(* ===== verification/_CoqProject ===== *)
-Q . S2P
Prelude.v
Etree.v
Xml.v
PyStr.v
Template.v
Replace.v
Layout.v
Render.v
Invariant.v
Uuids.v
Prune.v
Svg.v
