(* ===== verification/Prelude.v ===== *)
(** * svgcomposer: a verification development of the SVG templating core

    The program ([src/svgcomposer]) composes SVG templates.  The core is
    the class [Template] of [src/svgcomposer/svglue.py]: it wraps an lxml
    document, resolves placeholder rectangles by their [id] attribute
    ([get_by_id], memoised in [_tid_cache]), finds or creates the
    document's [<defs>] container ([get_defs], memoised in [_defs]),
    rewrites a placeholder into a [<use>] of an appended fragment
    ([replace_rect_with_etree] and its string and bytes wrappers), removes
    Inkscape layout elements ([expunge_layout_elements]) and serialises
    the tree ([tostring]).  [Template.render_svg_string] chains them:
    load, one replacement per (id, fragment) pair in the dictionary's
    order, optional pruning, serialisation.  [src/svgcomposer/svg.py]
    wraps this with literal and [str.format] interpolation, a disk cache
    and rasterisation.

    ** Files and what they model

    The files are listed in dependency order in [_CoqProject].
    - [Prelude] (this file): Python's exceptions ([exn]), a result type
      ([outcome]) and the state-and-exception monad [PyM] in which every
      method is written.  A Python exception does not roll back the
      mutations made before it is raised, so [PyM S A] returns the state
      in both cases ([S -> S * outcome A]).  [for_each] is a [for] loop.
      Shared tactics ([py_unfold], [py_step], [by_eval]), the hint
      database [svg] and generic lemmas on lists.
    - [Etree]: the lxml data model.  An element ([elem]) is a tree node
      with an identity ([oid], standing for the Python object), a tag in
      Clark notation (["{ns}local"], as lxml spells it), an ordered
      attribute list and its children; [xml] is the same tree without
      identities, as a parser produces it.  lxml's attribute dictionary
      ([attr_get], [attr_set], [attr_remove]), document-order traversal
      ([preorder]), lookup and in-place update of the first element with a
      given identity ([find_elem], [update_elem]), the mutations the code
      performs, and [alloc], which gives a parsed tree fresh identities
      (proved: it numbers the nodes consecutively and [erase] undoes it).
    - [Xml]: a small XML reader and writer (namespace declarations
      resolved into Clark names, fuel = input length + 1), the concrete
      parser with which the model runs on the markup of the spec.
    - [Template]: the state of a [Template] object ([_doc] and its kind,
      the detached subtrees, [_tid_cache], [_defs]) with the process state
      its methods touch ([uuid4] draws, identities of new objects); the
      constants of svglue.py; [get_by_id] and [get_defs].  The libraries
      the code only calls are type classes: [Uuid] ([uuid4], any injective
      supply) and [XPathEval] (what lxml does with an id query whose
      identifier breaks the XPath literal).
    - [Replace]: [replace_rect_with_etree] and its attribute loop.
    - [Layout]: [expunge_layout_elements]: the xpath query, the parent map
      built before any removal, and the removal loop.
    - [Render]: [Template.load], [__init__], the string and bytes
      wrappers, [tostring] and [render_svg_string]; lxml's parser and
      serialiser ([XmlCodec]) and the file system ([FileSystem]) are
      interfaces, instantiated by [Xml] for the examples.
    - [PyStr]: the Python builtins the interpolation calls, modelled from
      Python's semantics since they are not code of the repository:
      [str.replace] (one left-to-right pass, the empty pattern included,
      proved equal to a fuel-bounded reference) and [str.format] with
      keyword arguments (literal text, doubled braces, fields, and its
      [KeyError], [IndexError] and [ValueError]s); what comes after a
      field name is Python's [format], the interface [FormatField].
    - [Invariant]: the well-formedness of a [Template] state
      ([wf_state]: distinct identities below the allocation counter,
      [_tid_cache] and [_defs] naming live objects), Hoare triples of
      every method (rules in this file, [Section Triple]), the calls as
      an inductive type ([call], [run_call]) and the states they reach
      ([reachable]).
    - [Prune]: the removal loop of [expunge_layout_elements] against a
      declarative pruning ([prune_layout]); the loop state after the
      removal of the marked elements [P] is [loop_state s P], the
      document and each removed element without the elements of [P].
    - [Uuids]: the uuid draws of every method counted exactly ([draws k m],
      a triple on the draw counter, with its rules and the tactic
      [draws0]); the counter only grows along any sequence of calls, so
      the [doc_id] and [new_id] of two successful replacements differ.
    - [Svg]: svg.py.  The process state ([proc]) holds the [Template]
      state, the disk cache (a [gmap] from the keys of diskcache's
      [args_to_key] to values with their expiry time), the clock (in
      seconds, as [N]) and the switch [__CACHE_DISABLED].  One cache holds
      texts and images ([pyval]).  [get_or_compute], the memoised
      [_svgs_into_svg_string] and [svg_string_to_pil],
      [interpolate_svg_to_string], [interpolate_svg], [constant_svg];
      cairosvg is the interface [Rasteriser].  The package's entry points
      ([__init__.py]) are the calls [api_call]; the process states they
      reach with the passing of time ([tick]) are [preach].

    Every method is a [Definition] in [PyM state]; a method that calls
    another binds it, in the order of the Python code, so the state a
    raised exception leaves is the one the code leaves.

    ** Main results (the properties of PROJECT.json)

    - identifier resolution: a unique match is returned and cached, zero
      or several matches raise [LookupError], a cache hit short-circuits
      the query, also when the cached element has changed since;
    - the attribute loop of [replace_rect_with_etree] equals a filter on
      the allow-list (equivalence of the loop with a reference function);
    - a successful replacement in closed form, and from it size
      propagation and attribute restriction; the reference element has no
      [id] (the spec says it keeps a fresh one: the loop deletes it);
    - the error paths: a placeholder without [height] raises [KeyError];
      a document without [<defs>] makes every replacement fail with
      [AttributeError] (lxml's [insert] returns [None], and a document
      loaded from a string has no [getroot]), which is what the spec's own
      end-to-end example does; a second replacement of an identifier
      hits the stale cache;
    - pruning: nothing changes without marked elements, a marked root
      raises [AttributeError]; otherwise, with distinct identities, the
      loop leaves exactly the declarative pruning of the document, marked
      elements inside [defs] fragments included, and keeps each marked
      element as a detached tree ([Prune]);
    - an identifier with an apostrophe breaks the XPath literal of
      [get_by_id] and is not resolved even when one element carries it;
    - the batch: printing back the parsed tree, the first failure ends
      the batch, a missing input raises [TypeError];
    - invariant and safety ([Invariant]): every state reachable from a
      loaded document by calls of the methods, returning or raising, is
      well formed, and no call from it (nor [render_svg_string] from any
      state) dereferences a dead object;
    - freshness ([Uuids]): a successful replacement draws exactly two
      identifiers, and two successful replacements separated by any calls,
      raising ones included, draw four distinct ones;
    - purity of the batch ([Render]): [render_svg_string] depends on the
      state before it only through the two counters, so an earlier
      document, [_tid_cache] or [_defs] never leaks into its result;
    - the cache ([Svg]): memoisation refines the pure computation (a
      coherent cache stays coherent and serves what the function
      computes), entries are served exactly until 86400 seconds after
      they were stored, the key is the function's [__name__] (two
      functions of one name share entries), every entry point keeps each
      function's entries of its kind (texts for [render_svg_string],
      images for [_svg_string_to_pil]), and any non-empty value of the
      environment switch, ["0"] included, disables the cache; from every
      reachable process state, a day later every call recomputes
      (liveness); a cache hit returns the earlier run's fragment ids;
    - interpolation ([Svg]): a missing input raises [TypeError], an
      unreadable file [OSError]; a literal brace of the template (a CSS
      rule) raises [KeyError]; doubled braces come back as the text; with
      the cache off, [interpolate_svg_to_string] and [interpolate_svg]
      return what the batch and the rasteriser produce on the formatted
      text.

    ** Abstractions and bounds

    Text content (lxml's [text]/[tail]), comments and processing
    instructions are not modelled: no operation of the core reads or
    writes them.  Python [str] and [bytes] are both [string]: [encode]
    with UTF-8 is the identity on the modelled strings.  A Python dict
    with string keys is a [gmap string]; the items of the replacements
    dictionary are a list in iteration order.  [uuid4] is an injective
    supply indexed by the number of draws, which is what the code relies
    on (distinct identifiers).  The fuel of the XML reader is the length
    of its input plus one, which bounds the nesting it can meet; the
    reference [str.replace] takes the length of the text as fuel, which
    is enough since each step consumes a character.  The cache's clock
    is a natural number of seconds ([N], so that [3600 * 24] is a
    literal); expiry is [diskcache]'s test [now < expire_time].  A PIL
    image is the PNG bytes cairosvg produced.  Every loop of the code is
    a [for] over a finite list ([for_each], structural), so termination
    holds by construction and needs no theorem.

    ** Not modelled (see PROJECT.json): the pixels cairosvg and PIL
    compute (an interface), the disk, locking and [retry] of diskcache,
    reading files (an interface), and the re-exports of [__init__.py].
    The code the map leaves out is the licence header, imports and
    comments, the class [TemplateParseError] (declared and never raised),
    the module-level aliases of [svglue.py] (names for the methods the
    model already has), the package metadata of [__init__.py] and the
    line defining the [ENOVAL] sentinel of svg.py (its use, a miss of
    [cache.get], is the [None] of [cache_get]). *)

From Stdlib Require Export Ascii.
From stdpp Require Export base list strings gmap pretty.
Export ListNotations.

Open Scope string_scope.
Open Scope list_scope.

(** ** Python exceptions raised by the modelled code *)

Inductive exn :=
  | LookupError (msg : string)      (** [raise LookupError(...)] in get_by_id *)
  | KeyError (key : string)         (** a missing dictionary or attribute key *)
  | AttributeError (msg : string)   (** an attribute access on the wrong object *)
  | ValueError (msg : string)       (** lxml's [remove] of a non-child *)
  | TypeError (msg : string)        (** a call with the wrong argument *)
  | OSError (msg : string)          (** a file that cannot be read *)
  | IndexError (msg : string)       (** a positional field of [str.format] *)
  | XMLSyntaxError                  (** lxml's parser rejected the input *)
  | XPathEvalError.                 (** lxml rejected an xpath expression *)

#[export] Instance exn_eq_dec : EqDecision exn.
Proof. solve_decision. Defined.

(** The result of a Python call: a value or a raised exception. *)
Inductive outcome (A : Type) :=
  | Ok (a : A)
  | Raise (e : exn).
Arguments Ok {A} a.
Arguments Raise {A} e.

(** ** The state-and-exception monad *)

(** A method of an object with state [S]: the state is returned whether the
    method returns or raises, since Python keeps earlier mutations. *)
Definition PyM (S A : Type) : Type := S -> S * outcome A.

Section Monad.
Context {S : Type}.

Definition ret {A} (a : A) : PyM S A := fun s => (s, Ok a).

Definition raise {A} (e : exn) : PyM S A := fun s => (s, Raise e).

Definition bind {A B} (m : PyM S A) (k : A -> PyM S B) : PyM S B :=
  fun s =>
    match m s with
    | (s', Ok a) => k a s'
    | (s', Raise e) => (s', Raise e)
    end.

Definition get : PyM S S := fun s => (s, Ok s).

Definition modify (f : S -> S) : PyM S unit := fun s => (f s, Ok tt).

(** An [outcome] computed without touching the state. *)
Definition lift {A} (o : outcome A) : PyM S A := fun s => (s, o).

(** [for x in xs: body(x)] *)
Fixpoint for_each {A} (body : A -> PyM S unit) (xs : list A) : PyM S unit :=
  match xs with
  | [] => ret tt
  | x :: xs' => bind (body x) (fun _ => for_each body xs')
  end.
End Monad.

Declare Scope py_scope.
Delimit Scope py_scope with py.
Notation "x <- m ;; k" := (bind m (fun x => k))
  (at level 100, m at next level, right associativity) : py_scope.
Notation "m ;; k" := (bind m (fun _ => k))
  (at level 100, right associativity) : py_scope.
Open Scope py_scope.

(** ** Monad laws and running lemmas, used by every component *)

Create HintDb svg.

Section MonadLemmas.
Context {S : Type}.

Lemma bind_Ok {A B} (m : PyM S A) (k : A -> PyM S B) s s' a :
  m s = (s', Ok a) -> bind m k s = k a s'.
Proof. intros H. unfold bind. by rewrite H. Qed.

Lemma bind_Raise {A B} (m : PyM S A) (k : A -> PyM S B) s s' e :
  m s = (s', Raise e) -> bind m k s = (s', Raise e).
Proof. intros H. unfold bind. by rewrite H. Qed.

Lemma bind_assoc {A B C} (m : PyM S A) (k : A -> PyM S B) (h : B -> PyM S C) s :
  bind (bind m k) h s = bind m (fun a => bind (k a) h) s.
Proof. unfold bind. destruct (m s) as [s' [a|e]]; reflexivity. Qed.

Lemma for_each_app {A} (body : A -> PyM S unit) xs ys s :
  for_each body (xs ++ ys) s = bind (for_each body xs) (fun _ => for_each body ys) s.
Proof.
  revert s. induction xs as [|x xs IH]; intros s; [reflexivity|].
  cbn [for_each app]. rewrite bind_assoc. unfold bind.
  destruct (body x s) as [s' [[]|e]]; [|reflexivity].
  rewrite IH. reflexivity.
Qed.
End MonadLemmas.

(** ** Hoare triples for [PyM]

    [triple P m Q E]: from a state satisfying [P], [m] either returns [a]
    in a state satisfying [Q a], or raises [e] in a state satisfying
    [E e].  The state a raise leaves is constrained too, since Python
    keeps the mutations made before it. *)

Section Triple.
Context {S : Type}.

Definition triple {A} (P : S -> Prop) (m : PyM S A) (Q : A -> S -> Prop) (E : exn -> S -> Prop) : Prop :=
  forall s, P s -> match m s with (s', Ok a) => Q a s' | (s', Raise e) => E e s' end.

Lemma triple_ret {A} (a : A) P Q E : (forall s, P s -> Q a s) -> triple P (ret a) Q E.
Proof. intros H s Hs. by apply H. Qed.

Lemma triple_raise {A} e P (Q : A -> S -> Prop) E : (forall s, P s -> E e s) -> triple P (raise e) Q E.
Proof. intros H s Hs. by apply H. Qed.

Lemma triple_lift {A} (o : outcome A) P Q E :
  (forall s, P s -> match o with Ok a => Q a s | Raise e => E e s end) -> triple P (lift o) Q E.
Proof. intros H s Hs. specialize (H s Hs). unfold lift. by destruct o. Qed.

Lemma triple_modify f P Q E : (forall s, P s -> Q tt (f s)) -> triple P (modify f) Q E.
Proof. intros H s Hs. by apply H. Qed.

Lemma triple_bind {A B} (m : PyM S A) (k : A -> PyM S B) P R Q E :
  triple P m R E -> (forall a, triple (R a) (k a) Q E) -> triple P (bind m k) Q E.
Proof.
  intros Hm Hk s Hs. specialize (Hm s Hs). unfold bind.
  destruct (m s) as [s' [a|e]]; [by apply Hk|done].
Qed.

(** Reading the state: the continuation is checked at the state read. *)
Lemma triple_get_bind {B} (k : S -> PyM S B) P Q E :
  (forall s0, triple (fun s => P s /\ s = s0) (k s0) Q E) -> triple P (bind get k) Q E.
Proof. intros Hk s Hs. unfold bind, get. by apply (Hk s). Qed.

Lemma triple_conseq {A} (m : PyM S A) P P' Q Q' E E' :
  triple P m Q E -> (forall s, P' s -> P s) -> (forall a s, Q a s -> Q' a s) ->
  (forall e s, E e s -> E' e s) -> triple P' m Q' E'.
Proof.
  intros Hm HP HQ HE s Hs. specialize (Hm s (HP s Hs)).
  destruct (m s) as [s' [a|e]]; auto.
Qed.

(** Case analysis on a property of the initial state. *)
Lemma triple_pre {A} (m : PyM S A) P Q E :
  (forall s0, P s0 -> triple (fun s => s = s0) m Q E) -> triple P m Q E.
Proof. intros H s Hs. by apply (H s Hs). Qed.

(** A [for] loop with invariant [I]. *)
Lemma triple_for_each {A} (body : A -> PyM S unit) xs (I : S -> Prop) E :
  (forall x, x ∈ xs -> triple I (body x) (fun _ => I) E) -> triple I (for_each body xs) (fun _ => I) E.
Proof.
  induction xs as [|x xs IH]; intros Hb; [by apply triple_ret|].
  apply (triple_bind _ _ _ (fun _ => I)); [apply Hb; left|].
  intros _. apply IH. intros y Hy. apply Hb. by right.
Qed.

(** Reading a triple off a run. *)
Lemma triple_run {A} (m : PyM S A) P Q E s :
  triple P m Q E -> P s ->
  match m s with (s', Ok a) => Q a s' | (s', Raise e) => E e s' end.
Proof. intros Hm Hs. by apply Hm. Qed.
End Triple.

(** Unfold the monad's plumbing in the goal. *)
Ltac py_unfold := cbn [bind ret raise get modify lift for_each] in *.

(** Rewrite a run of a first step whose result is known from a hypothesis. *)
Tactic Notation "py_step" open_constr(H) :=
  first [ erewrite (bind_Ok _ _ _ _ _ H) | erewrite (bind_Raise _ _ _ _ _ H) ].

(** ** Generic lemmas on lists and strings *)

(** The longest prefix whose elements satisfy [p], and the rest. *)
Fixpoint span {A} (p : A -> bool) (l : list A) : list A * list A :=
  match l with
  | c :: l' => if p c then let '(a, b) := span p l' in (c :: a, b) else ([], l)
  | [] => ([], [])
  end.

Lemma span_app {A} (p : A -> bool) l : (span p l).1 ++ (span p l).2 = l.
Proof.
  induction l as [|c l IH]; simpl; [done|]. destruct (p c); [|done].
  destruct (span p l) as [a b]. simpl in *. by rewrite IH.
Qed.

Lemma NoDup_map_filter {A B} (f : A -> B) (P : A -> Prop) `{!forall x, Decision (P x)} (l : list A) :
  NoDup (map f l) -> NoDup (map f (filter P l)).
Proof.
  induction l as [|x l IH]; simpl; [done|].
  rewrite NoDup_cons. intros [Hx Hl]. rewrite filter_cons.
  case_decide; simpl; [|by apply IH].
  rewrite NoDup_cons. split; [|by apply IH].
  intros Hin. apply Hx. apply list_elem_of_In in Hin. apply list_elem_of_In.
  apply in_map_iff in Hin as (y & <- & Hy). apply in_map.
  apply list_elem_of_In, list_elem_of_filter in Hy as [_ Hy]. by apply list_elem_of_In.
Qed.
#[export] Hint Resolve NoDup_map_filter : svg.

Lemma filter_all {A} (P : A -> Prop) `{!forall x, Decision (P x)} (l : list A) :
  (forall x, x ∈ l -> P x) -> filter P l = l.
Proof.
  induction l as [|x l IH]; intros Hall; [done|]. rewrite filter_cons_True.
  - f_equal. apply IH. intros y Hy. apply Hall. by right.
  - apply Hall. by left.
Qed.

Lemma filter_ext_in {A} (P Q : A -> Prop) `{!forall x, Decision (P x)} `{!forall x, Decision (Q x)}
    (l : list A) :
  (forall x, x ∈ l -> P x <-> Q x) -> filter P l = filter Q l.
Proof.
  induction l as [|x l IH]; intros Hiff; [done|]. rewrite !filter_cons.
  rewrite IH by (intros y Hy; apply Hiff; by right).
  specialize (Hiff x (list_elem_of_here _ _)). by repeat case_decide; naive_solver.
Qed.

(** Discharge a closed decidable hypothesis of a witness by evaluation. *)
Ltac by_eval :=
  first [ vm_compute; reflexivity
        | apply (bool_decide_unpack _); vm_compute; exact I ].

Lemma filter_none {A} (P : A -> Prop) `{!forall x, Decision (P x)} (l : list A) :
  (forall x, x ∈ l -> ~ P x) -> filter P l = [].
Proof.
  induction l as [|x l IH]; intros Hn; [done|]. rewrite filter_cons_False.
  - apply IH. intros y Hy. apply Hn. by right.
  - apply Hn. by left.
Qed.
