(* ===== verification/Etree.v ===== *)
(** * Etree: the lxml element model used by [svglue.py]

    An lxml element is a Python object: it has an identity, a tag, an
    ordered attribute dictionary and an ordered list of children.  The code
    holds references to elements ([_tid_cache], [_defs], the local [elem])
    and mutates them in place, so an element is modelled as a tree node that
    carries its identity [e_oid]; "the object [o]" is the node whose
    identity is [o], read with [find_elem] and mutated with [update_elem].
    A freshly parsed tree ([xml], no identities) receives fresh identities
    with [alloc], which is what creating new Python objects does. *)

From S2P Require Import Prelude.

(** ** Attribute dictionaries ([elem.attrib]) *)

(** lxml keeps attributes in document order; keys are Clark names. *)
Abbreviation attrib := (list (string * string)).

(** [elem.attrib.get(k)] *)
Fixpoint attr_get (k : string) (a : attrib) : option string :=
  match a with
  | [] => None
  | (k', v) :: a' => if decide (k = k') then Some v else attr_get k a'
  end.

(** [elem.set(k, v)]: an existing key keeps its position, a new key is
    appended. *)
Fixpoint attr_set (k v : string) (a : attrib) : attrib :=
  match a with
  | [] => [(k, v)]
  | (k', v') :: a' => if decide (k = k') then (k, v) :: a' else (k', v') :: attr_set k v a'
  end.

(** [del elem.attrib[k]] once the key is known to be present. *)
Fixpoint attr_remove (k : string) (a : attrib) : attrib :=
  match a with
  | [] => []
  | (k', v') :: a' => if decide (k = k') then a' else (k', v') :: attr_remove k a'
  end.

(** lxml never holds two attributes with the same name. *)
Definition attrib_wf (a : attrib) : Prop := NoDup (fst <$> a).

(** ** Parsed trees and elements with identity *)

Local Unset Elimination Schemes.

(** What [etree.fromstring] builds and [etree.tostring] prints. *)
Inductive xml : Type :=
  | XElem (tag : string) (attrs : attrib) (kids : list xml).

(** A live element: identity, tag, attributes, children. *)
Inductive elem : Type :=
  | Elem (oid : nat) (tag : string) (attrs : attrib) (kids : list elem).

Local Set Elimination Schemes.

(** Induction with a hypothesis on every child, as for any rose tree. *)
Section elem_ind.
Variable P : elem -> Prop.
Hypothesis HElem : forall i t a ks, Forall P ks -> P (Elem i t a ks).

Fixpoint elem_ind (e : elem) : P e :=
  match e with
  | Elem i t a ks =>
      HElem i t a ks
        ((fix go (ks : list elem) : Forall P ks :=
            match ks with
            | [] => List.Forall_nil P
            | k :: ks' => @List.Forall_cons _ P k ks' (elem_ind k) (go ks')
            end) ks)
  end.
End elem_ind.

Section xml_ind.
Variable P : xml -> Prop.
Hypothesis HXElem : forall t a ks, Forall P ks -> P (XElem t a ks).

Fixpoint xml_ind (x : xml) : P x :=
  match x with
  | XElem t a ks =>
      HXElem t a ks
        ((fix go (ks : list xml) : Forall P ks :=
            match ks with
            | [] => List.Forall_nil P
            | k :: ks' => @List.Forall_cons _ P k ks' (xml_ind k) (go ks')
            end) ks)
  end.
End xml_ind.

Definition e_oid (e : elem) : nat := let 'Elem i _ _ _ := e in i.
Definition e_tag (e : elem) : string := let 'Elem _ t _ _ := e in t.
Definition e_attrs (e : elem) : attrib := let 'Elem _ _ a _ := e in a.
Definition e_kids (e : elem) : list elem := let 'Elem _ _ _ ks := e in ks.

(** ** Traversal *)

(** Document order, as xpath returns its node sets. *)
Fixpoint preorder (e : elem) : list elem :=
  match e with
  | Elem _ _ _ ks => e :: (ks ≫= preorder)
  end.

Definition oids (e : elem) : list nat := e_oid <$> preorder e.

(** The first [Some] of a list of options. *)
Fixpoint first_some {A} (l : list (option A)) : option A :=
  match l with
  | [] => None
  | Some x :: _ => Some x
  | None :: l' => first_some l'
  end.

(** Replace the first element of a list that satisfies [p]. *)
Fixpoint update_first {A} (p : A -> bool) (u : A -> A) (l : list A) : list A :=
  match l with
  | [] => []
  | x :: l' => if p x then u x :: l' else x :: update_first p u l'
  end.

(** The object with identity [o] inside a tree: the first node in document
    order with that identity. *)
Fixpoint find_elem (o : nat) (e : elem) : option elem :=
  match e with
  | Elem i _ _ ks => if decide (i = o) then Some e else first_some (find_elem o <$> ks)
  end.

(** The object [o] among a list of trees (siblings, or the document and the
    detached subtrees). *)
Definition find_in (o : nat) (ts : list elem) : option elem := first_some (find_elem o <$> ts).

(** A mutation [f] of the object [o], seen from a tree that contains it: the
    node [find_elem] returns is replaced by its image. *)
Fixpoint update_elem (o : nat) (f : elem -> elem) (e : elem) : elem :=
  match e with
  | Elem i t a ks =>
      if decide (i = o) then f e
      else Elem i t a (update_first (fun k => bool_decide (o ∈ oids k)) (update_elem o f) ks)
  end.

Definition update_in (o : nat) (f : elem -> elem) (ts : list elem) : list elem :=
  update_first (fun k => bool_decide (o ∈ oids k)) (update_elem o f) ts.

(** What the code reads of one object without looking at its children. *)
Definition shallow (e : elem) : nat * string * attrib := (e_oid e, e_tag e, e_attrs e).

(** ** Element mutations, as lxml performs them on one object *)

(** [elem.tag = t] *)
Definition set_tag (t : string) (e : elem) : elem :=
  let 'Elem i _ a ks := e in Elem i t a ks.

(** [elem.set(k, v)] *)
Definition set_attr (k v : string) (e : elem) : elem :=
  let 'Elem i t a ks := e in Elem i t (attr_set k v a) ks.

(** [del elem.attrib[k]] *)
Definition del_attr (k : string) (e : elem) : elem :=
  let 'Elem i t a ks := e in Elem i t (attr_remove k a) ks.

(** [e] with attribute dictionary [a]. *)
Definition set_attrs (a : attrib) (e : elem) : elem :=
  let 'Elem i t _ ks := e in Elem i t a ks.

(** [elem.insert(0, c)] *)
Definition insert_first (c : elem) (e : elem) : elem :=
  let 'Elem i t a ks := e in Elem i t a (c :: ks).

(** [elem.append(c)] *)
Definition append_kid (c : elem) (e : elem) : elem :=
  let 'Elem i t a ks := e in Elem i t a (ks ++ [c]).

(** [elem.remove(c)] for a child [c] of [elem]. *)
Definition remove_kid (c : nat) (e : elem) : elem :=
  let 'Elem i t a ks := e in Elem i t a (filter (fun k => e_oid k <> c) ks).

(** ** From parsed trees to objects and back *)

Fixpoint xml_size (x : xml) : nat :=
  match x with
  | XElem _ _ ks => S (sum_list_with xml_size ks)
  end.

(** Number the nodes of a parsed tree in document order from [n]; return the
    next free identity. *)
Fixpoint alloc (n : nat) (x : xml) : elem * nat :=
  match x with
  | XElem t a ks =>
      let fix go (n : nat) (ks : list xml) : list elem * nat :=
        match ks with
        | [] => ([], n)
        | k :: ks' =>
            let '(e, n1) := alloc n k in
            let '(es, n2) := go n1 ks' in (e :: es, n2)
        end in
      let '(es, n') := go (S n) ks in (Elem n t a es, n')
  end.

(** The tree an element denotes, without identities. *)
Fixpoint erase (e : elem) : xml :=
  match e with
  | Elem _ t a ks => XElem t a (erase <$> ks)
  end.

(** ** Lemmas on traversal, lookup and update *)

Lemma oids_Elem i t a ks : oids (Elem i t a ks) = i :: (ks ≫= oids).
Proof.
  unfold oids. cbn [preorder]. rewrite fmap_cons. f_equal.
  induction ks as [|k ks IH]; [done|]. simpl. rewrite fmap_app. by f_equal.
Qed.

Lemma elem_of_oids_Elem o i t a ks :
  o ∈ oids (Elem i t a ks) <-> o = i \/ exists k, k ∈ ks /\ o ∈ oids k.
Proof. rewrite oids_Elem, elem_of_cons, list_elem_of_bind. naive_solver. Qed.

Lemma first_some_None {A} (l : list (option A)) :
  first_some l = None <-> Forall (fun o => o = None) l.
Proof.
  induction l as [|[x|] l IH]; simpl; [split; constructor| |].
  - split; [done|]. rewrite Forall_cons. naive_solver.
  - rewrite IH, Forall_cons. naive_solver.
Qed.

Lemma fmap_first_some {A B} (f : A -> B) (l : list (option A)) :
  f <$> first_some l = first_some ((fun o : option A => f <$> o) <$> l).
Proof. induction l as [|[x|] l IH]; simpl; auto. Qed.

Lemma find_elem_None o e : find_elem o e = None <-> o ∉ oids e.
Proof.
  induction e as [i t a ks IH] using elem_ind. simpl. rewrite elem_of_oids_Elem.
  case_decide; [naive_solver|].
  rewrite first_some_None, Forall_fmap. unfold compose.
  rewrite Forall_forall in IH. rewrite Forall_forall.
  split; [intros Hall [->|(k & Hk & Ho)]; [done|]; exact (proj1 (IH k Hk) (Hall k Hk) Ho)|].
  intros Hn k Hk. apply (IH k Hk). intros Ho. apply Hn. right. eauto.
Qed.

Lemma find_elem_Some_elem_of o e y : find_elem o e = Some y -> o ∈ oids e.
Proof.
  intros Hf. destruct (decide (o ∈ oids e)) as [|Hn]; [done|].
  apply find_elem_None in Hn. congruence.
Qed.

Lemma find_elem_oid o e x : find_elem o e = Some x -> e_oid x = o.
Proof.
  revert x. induction e as [i t a ks IH] using elem_ind; intros x; simpl.
  case_decide; [by intros [= <-]|].
  induction IH as [|k ks Hk _ IHks]; simpl; [done|].
  destruct (find_elem o k) eqn:Ek; [intros [= <-]; by apply Hk|]. apply IHks.
Qed.

Lemma update_first_none {A} (p : A -> bool) u l :
  Forall (fun x => p x = false) l -> update_first p u l = l.
Proof. induction 1 as [|x l Hx _ IH]; simpl; [done|]. by rewrite Hx, IH. Qed.

Lemma update_notin o f e : o ∉ oids e -> update_elem o f e = e.
Proof.
  destruct e as [i t a ks]. rewrite elem_of_oids_Elem. intros Hn. simpl.
  rewrite decide_False by naive_solver. f_equal. apply update_first_none.
  apply Forall_forall. intros k Hk. apply bool_decide_eq_false. naive_solver.
Qed.

(** Reading through [update_first]: the first list element holding [o] is
    the one replaced. *)
Lemma find_in_update_first o (u : elem -> elem) g ts y :
  Forall (fun t => forall z, find_elem o t = Some z -> find_elem o (u t) = Some (g z)) ts ->
  find_in o ts = Some y ->
  find_in o (update_first (fun k => bool_decide (o ∈ oids k)) u ts) = Some (g y).
Proof.
  unfold find_in. induction 1 as [|t ts Ht _ IH]; simpl; [done|].
  destruct (find_elem o t) as [z|] eqn:Ez.
  - rewrite bool_decide_eq_true_2 by (eapply find_elem_Some_elem_of; eauto).
    intros [= <-]. simpl. by rewrite (Ht z).
  - rewrite bool_decide_eq_false_2 by (by apply find_elem_None). simpl. rewrite Ez. apply IH.
Qed.

(** Mutating the object [o] and reading it back gives the mutated object. *)
Lemma find_update_eq o f e y :
  find_elem o e = Some y -> (forall z, e_oid (f z) = e_oid z) ->
  find_elem o (update_elem o f e) = Some (f y).
Proof.
  intros Hf Hoid. revert y Hf. induction e as [i t a ks IH] using elem_ind; intros y; simpl.
  case_decide as Hi.
  - intros [= <-]. specialize (Hoid (Elem i t a ks)).
    destruct (f _) eqn:Ef; simpl in *. subst. by rewrite decide_True.
  - intros Hf. simpl. rewrite decide_False by done.
    apply (find_in_update_first o _ f ks y); [|done].
    eapply Forall_impl; [exact IH|]. intros k Hk z Hz. by apply Hk.
Qed.

Lemma find_in_update_eq o f ts y :
  find_in o ts = Some y -> (forall z, e_oid (f z) = e_oid z) ->
  find_in o (update_in o f ts) = Some (f y).
Proof.
  intros Hf Hoid. apply (find_in_update_first o _ f ts y); [|done].
  apply Forall_forall. intros t _ z Hz. by apply find_update_eq.
Qed.

Lemma update_first_find_ext o (u1 u2 : elem -> elem) ts y :
  Forall (fun t => find_elem o t = Some y -> u1 t = u2 t) ts ->
  find_in o ts = Some y ->
  update_first (fun k => bool_decide (o ∈ oids k)) u1 ts
  = update_first (fun k => bool_decide (o ∈ oids k)) u2 ts.
Proof.
  unfold find_in. induction 1 as [|t ts Ht _ IH]; simpl; [done|].
  destruct (find_elem o t) as [z|] eqn:Ez.
  - rewrite bool_decide_eq_true_2 by (eapply find_elem_Some_elem_of; eauto).
    intros [= <-]. by rewrite Ht.
  - rewrite bool_decide_eq_false_2 by (by apply find_elem_None). intros Hy. by rewrite IH.
Qed.

(** Only the image of the object [o] matters to a mutation of [o]. *)
Lemma update_ext o f g e y :
  find_elem o e = Some y -> f y = g y -> update_elem o f e = update_elem o g e.
Proof.
  revert y. induction e as [i t a ks IH] using elem_ind; intros y; simpl.
  case_decide; [by intros [= <-]|]. intros Hf Hfg. f_equal.
  apply (update_first_find_ext o _ _ ks y); [|done].
  eapply Forall_impl; [exact IH|]. intros k Hk Hky. by apply (Hk y).
Qed.

Lemma update_in_ext o f g ts y :
  find_in o ts = Some y -> f y = g y -> update_in o f ts = update_in o g ts.
Proof.
  intros Hf Hfg. apply (update_first_find_ext o _ _ ts y); [|done].
  apply Forall_forall. intros t _ Ht. by apply (update_ext o f g t y).
Qed.

Lemma update_first_compose {A} (p : A -> bool) u1 u2 l :
  (forall x, p (u2 x) = p x) ->
  update_first p u1 (update_first p u2 l) = update_first p (u1 ∘ u2) l.
Proof.
  intros Hp. induction l as [|x l IH]; simpl; [done|].
  destruct (p x) eqn:Ex; simpl; [by rewrite Hp, Ex|]. by rewrite Ex, IH.
Qed.

Lemma update_first_ext {A} (p : A -> bool) u1 u2 l :
  Forall (fun x => u1 x = u2 x) l -> update_first p u1 l = update_first p u2 l.
Proof. induction 1 as [|x l Hx _ IH]; simpl; [done|]. by rewrite Hx, IH. Qed.

Lemma elem_of_oids_update o g e :
  (forall z, e_oid (g z) = e_oid z) -> o ∈ oids (update_elem o g e) <-> o ∈ oids e.
Proof.
  intros Hg. destruct (decide (o ∈ oids e)) as [Ho|Ho].
  - split; [done|]. intros _. destruct (find_elem o e) as [z|] eqn:Ez.
    + eapply find_elem_Some_elem_of, find_update_eq; [exact Ez|exact Hg].
    + by apply find_elem_None in Ez.
  - by rewrite update_notin.
Qed.

(** Two mutations of the same object compose. *)
Lemma update_update o f g e :
  (forall z, e_oid (g z) = e_oid z) ->
  update_elem o f (update_elem o g e) = update_elem o (f ∘ g) e.
Proof.
  intros Hg. induction e as [i t a ks IH] using elem_ind; simpl.
  case_decide as Hi.
  - specialize (Hg (Elem i t a ks)). destruct (g _); simpl in *. subst. by rewrite decide_True.
  - simpl. rewrite decide_False by done. f_equal.
    rewrite update_first_compose; [by apply update_first_ext|].
    intros k. apply bool_decide_ext, elem_of_oids_update, Hg.
Qed.

Lemma update_in_update o f g ts :
  (forall z, e_oid (g z) = e_oid z) ->
  update_in o f (update_in o g ts) = update_in o (f ∘ g) ts.
Proof.
  intros Hg. unfold update_in. rewrite update_first_compose.
  - apply update_first_ext, Forall_forall. intros t _. by apply update_update.
  - intros k. apply bool_decide_ext, elem_of_oids_update, Hg.
Qed.

Lemma fmap_find_in_update_first {B} (p : elem -> B) o (q : elem -> bool) u ts :
  Forall (fun k => p <$> find_elem o (u k) = p <$> find_elem o k) ts ->
  p <$> find_in o (update_first q u ts) = p <$> find_in o ts.
Proof.
  unfold find_in. induction 1 as [|k ks Hk _ IH]; [done|]. cbn [update_first].
  destruct (q k); rewrite !fmap_cons; simpl.
  - destruct (find_elem o (u k)), (find_elem o k); simpl in *; congruence.
  - by destruct (find_elem o k).
Qed.

(** A mutation of the object [d] does not change what is read of the object
    [o] (possibly [d] itself) when the mutation keeps it. *)
Lemma find_update_shallow o d f e :
  (forall z, e_oid z = d -> shallow <$> find_elem o (f z) = shallow <$> find_elem o z) ->
  shallow <$> find_elem o (update_elem d f e) = shallow <$> find_elem o e.
Proof.
  intros Hf. induction e as [i t a ks IH] using elem_ind; simpl.
  destruct (decide (i = d)) as [->|Hi]; [by apply Hf|]. simpl.
  destruct (decide (i = o)); [done|]. by apply fmap_find_in_update_first.
Qed.

Lemma find_in_update_shallow o d f ts :
  (forall z, e_oid z = d -> shallow <$> find_elem o (f z) = shallow <$> find_elem o z) ->
  shallow <$> find_in o (update_in d f ts) = shallow <$> find_in o ts.
Proof.
  intros Hf. apply fmap_find_in_update_first, Forall_forall. intros t _.
  by apply find_update_shallow.
Qed.

(** An object that a mutation of [d] brings into the tree (an appended
    child) is found where the mutation put it. *)
Lemma find_in_update_new o d f ts xd y :
  find_in o ts = None -> find_in d ts = Some xd -> find_elem o (f xd) = Some y ->
  Forall (fun t => find_elem o t = None -> find_elem d t = Some xd ->
                   find_elem o (update_elem d f t) = Some y) ts ->
  find_in o (update_in d f ts) = Some y.
Proof.
  unfold find_in, update_in. intros Ho Hd Hy Hall. revert Ho Hd.
  induction Hall as [|t ts Ht _ IH]; simpl; [done|].
  destruct (find_elem o t) eqn:Eo; [done|]. intros Ho.
  destruct (find_elem d t) as [z|] eqn:Ed.
  - rewrite bool_decide_eq_true_2 by (eapply find_elem_Some_elem_of; eauto).
    intros [= <-]. simpl. by rewrite Ht.
  - rewrite bool_decide_eq_false_2 by (by apply find_elem_None). simpl. rewrite Eo. by apply IH.
Qed.

Lemma find_update_new o d f e xd y :
  find_elem o e = None -> find_elem d e = Some xd -> find_elem o (f xd) = Some y ->
  find_elem o (update_elem d f e) = Some y.
Proof.
  revert xd. induction e as [i t a ks IH] using elem_ind; intros xd; simpl.
  destruct (decide (i = o)); [done|]. destruct (decide (i = d)); [by intros _ [= <-]|].
  intros Ho Hd Hy. simpl. rewrite decide_False by done.
  eapply find_in_update_new; [done|done|done|].
  eapply Forall_impl; [exact IH|]. intros k Hk Hko Hkd. by eapply Hk.
Qed.

Lemma find_in_update_new' o d f ts xd y :
  find_in o ts = None -> find_in d ts = Some xd -> find_elem o (f xd) = Some y ->
  find_in o (update_in d f ts) = Some y.
Proof.
  intros Ho Hd Hy. eapply find_in_update_new; [done..|].
  apply Forall_forall. intros t _ Hto Htd. by eapply find_update_new.
Qed.

(** Appending a subtree that does not hold [o] keeps what is read of [o]. *)
Lemma find_append_kid_shallow o c z :
  o ∉ oids c -> shallow <$> find_elem o (append_kid c z) = shallow <$> find_elem o z.
Proof.
  intros Hc. destruct z as [i t a ks]; simpl. case_decide; [done|].
  rewrite fmap_app. unfold find_in. simpl.
  apply find_elem_None in Hc. rewrite Hc.
  induction ks as [|k ks IH]; simpl; [done|]. by destruct (find_elem o k).
Qed.

(** ** Lemmas on attribute dictionaries *)

Lemma attr_get_set_eq k v a : attr_get k (attr_set k v a) = Some v.
Proof. induction a as [|[k' v'] a IH]; simpl; repeat (case_decide; simpl); done. Qed.

Lemma attr_get_set_ne k k' v a : k <> k' -> attr_get k' (attr_set k v a) = attr_get k' a.
Proof.
  intros Hne. induction a as [|[k'' v'] a IH]; simpl; repeat (case_decide; simplify_eq/=); done.
Qed.

Lemma attr_get_elem_of k a v : attr_get k a = Some v -> k ∈ (fst <$> a).
Proof.
  induction a as [|[k' v'] a IH]; simpl; [done|]. rewrite elem_of_cons.
  case_decide; naive_solver.
Qed.

Lemma attr_set_fresh k v a : k ∉ (fst <$> a) -> attr_set k v a = a ++ [(k, v)].
Proof.
  induction a as [|[k' v'] a IH]; simpl; [done|]. rewrite elem_of_cons.
  intros Hn. rewrite decide_False by naive_solver. f_equal. naive_solver.
Qed.

Lemma attr_set_keys_elem k v a : k ∈ (fst <$> a) -> (fst <$> attr_set k v a) = (fst <$> a).
Proof.
  induction a as [|[k' v'] a IH]; [intros Hk; by apply not_elem_of_nil in Hk|].
  rewrite fmap_cons, elem_of_cons. cbn [attr_set fst].
  case_decide; [by subst|]. rewrite fmap_cons. intros [?|?]; [done|]. by rewrite IH.
Qed.

Lemma attr_set_wf k v a : attrib_wf a -> attrib_wf (attr_set k v a).
Proof.
  unfold attrib_wf. intros Hnd. destruct (decide (k ∈ (fst <$> a))) as [Hk|Hk].
  - by rewrite attr_set_keys_elem.
  - rewrite attr_set_fresh, fmap_app by done. apply NoDup_app. simpl.
    split; [done|]. split; [|apply NoDup_singleton]. intros x Hx ->%list_elem_of_singleton. done.
Qed.

(** Setting a key that a filter drops does not change the filtered dictionary. *)
Lemma filter_attr_set_drop (P : string * string -> Prop) `{!forall kv, Decision (P kv)} k v a :
  (forall v', ~ P (k, v')) -> filter P (attr_set k v a) = filter P a.
Proof.
  intros HP. induction a as [|[k' v'] a IH]; cbn [attr_set].
  - by rewrite filter_cons_False.
  - case_decide; subst; rewrite !filter_cons.
    + by rewrite !decide_False.
    + by case_decide; rewrite IH.
Qed.

(** Without duplicate keys, [del attrib[k]] is a filter. *)
Lemma attr_remove_filter k a :
  attrib_wf a -> attr_remove k a = filter (fun kv => kv.1 <> k) a.
Proof.
  unfold attrib_wf. induction a as [|[k' v'] a IH]; simpl; [done|].
  rewrite NoDup_cons. intros [Hn Hnd]. rewrite filter_cons. simpl.
  case_decide as Hk; subst.
  - rewrite decide_False by naive_solver. symmetry. apply filter_all.
    intros [k1 v1] Hin. simpl. intros ->. apply Hn. apply list_elem_of_fmap. by exists (k', v1).
  - rewrite decide_True by naive_solver. by rewrite IH.
Qed.

Lemma attr_remove_wf k a : attrib_wf a -> attrib_wf (attr_remove k a).
Proof.
  intros Hwf. rewrite attr_remove_filter by done. unfold attrib_wf in *.
  by apply NoDup_map_filter.
Qed.

#[export] Hint Resolve attr_set_wf attr_remove_wf : svg.

Lemma update_first_id {A} (p : A -> bool) u l :
  Forall (fun x => u x = x) l -> update_first p u l = l.
Proof. induction 1 as [|x l Hx _ IH]; simpl; [done|]. destruct (p x); by rewrite ?Hx, ?IH. Qed.

Lemma update_id o e : update_elem o (fun z => z) e = e.
Proof.
  induction e as [i t a ks IH] using elem_ind; simpl. case_decide; [done|].
  f_equal. by apply update_first_id.
Qed.

Lemma update_in_id o ts : update_in o (fun z => z) ts = ts.
Proof. apply update_first_id, Forall_forall. intros t _. apply update_id. Qed.


Lemma attr_get_is_Some k a : k ∈ (fst <$> a) -> is_Some (attr_get k a).
Proof.
  induction a as [|[k' v'] a IH]; [intros Hk; by apply not_elem_of_nil in Hk|].
  rewrite fmap_cons, elem_of_cons. simpl. case_decide; [by eauto|]. naive_solver.
Qed.

Lemma set_attrs_self e : set_attrs (e_attrs e) e = e.
Proof. by destruct e. Qed.

Lemma set_attrs_del_attr a k e : set_attrs a (del_attr k e) = set_attrs a e.
Proof. by destruct e. Qed.

Lemma e_oid_set_tag t e : e_oid (set_tag t e) = e_oid e.
Proof. by destruct e. Qed.
Lemma e_oid_set_attr k v e : e_oid (set_attr k v e) = e_oid e.
Proof. by destruct e. Qed.
Lemma e_oid_del_attr k e : e_oid (del_attr k e) = e_oid e.
Proof. by destruct e. Qed.
Lemma e_oid_set_attrs a e : e_oid (set_attrs a e) = e_oid e.
Proof. by destruct e. Qed.
Lemma e_oid_append_kid c e : e_oid (append_kid c e) = e_oid e.
Proof. by destruct e. Qed.

#[export] Hint Resolve e_oid_set_tag e_oid_set_attr e_oid_del_attr e_oid_set_attrs
  e_oid_append_kid : svg.

Lemma oids_same_kids z z' : e_oid z' = e_oid z -> e_kids z' = e_kids z -> oids z' = oids z.
Proof. destruct z, z'. simpl. intros -> ->. by rewrite !oids_Elem. Qed.

Lemma oids_set_attr k v z : oids (set_attr k v z) = oids z.
Proof. apply oids_same_kids; by destruct z. Qed.

(** The identities inside an object are identities of any tree holding it. *)
Lemma find_elem_oids_sub o e y i : find_elem o e = Some y -> i ∈ oids y -> i ∈ oids e.
Proof.
  revert y. induction e as [i' t a ks IH] using elem_ind; intros y; simpl.
  case_decide; [by intros [= <-]|]. intros Hf Hi. rewrite elem_of_oids_Elem. right.
  induction IH as [|k ks Hk _ IHks]; simpl in *; [done|].
  destruct (find_elem o k) as [z|] eqn:Ek.
  - injection Hf as <-. exists k. split; [by left|]. by eapply Hk.
  - destruct (IHks Hf) as (k' & ? & ?). exists k'. split; [by right|done].
Qed.

Lemma find_in_oids_sub o ts y i :
  find_in o ts = Some y -> i ∈ oids y -> exists t, t ∈ ts /\ i ∈ oids t.
Proof.
  unfold find_in. induction ts as [|t ts IH]; simpl; [done|].
  destruct (find_elem o t) eqn:Et.
  - intros [= <-] Hi. exists t. split; [by left|]. by eapply find_elem_oids_sub.
  - intros Hf Hi. destruct (IH Hf Hi) as (t' & ? & ?). exists t'. split; [by right|done].
Qed.

Lemma find_in_None o ts : find_in o ts = None <-> forall t, t ∈ ts -> o ∉ oids t.
Proof.
  unfold find_in. rewrite first_some_None, Forall_fmap, Forall_forall. unfold compose.
  split; intros Hall t Ht; [apply find_elem_None|apply find_elem_None]; by apply Hall.
Qed.

(** A child appended to [z] is found at its identity, if [z] did not hold it. *)
Lemma find_append_kid_new c z :
  e_oid c ∉ oids z -> find_elem (e_oid c) (append_kid c z) = Some c.
Proof.
  destruct z as [i t a ks]. rewrite elem_of_oids_Elem. intros Hn. simpl.
  rewrite decide_False by naive_solver. rewrite fmap_app. simpl.
  assert (first_some (find_elem (e_oid c) <$> ks) = None) as Hks.
  { apply (find_in_None (e_oid c) ks). intros k Hk Hin. apply Hn. eauto. }
  revert Hks. generalize (find_elem (e_oid c) <$> ks). intros l.
  destruct c as [ci ct ca cks]. simpl. rewrite decide_True by done.
  induction l as [|[o|] l IH]; simpl; [done|done|]. apply IH.
Qed.

Lemma attr_get_app k a b :
  attr_get k (a ++ b) = match attr_get k a with Some v => Some v | None => attr_get k b end.
Proof. induction a as [|[k' v'] a IH]; simpl; [done|]. by case_decide. Qed.

Lemma attr_get_filter_None (P : string * string -> Prop) `{!forall kv, Decision (P kv)} k a :
  (forall v, ~ P (k, v)) -> attr_get k (filter P a) = None.
Proof.
  intros Hk. induction a as [|[k' v'] a IH]; [done|]. rewrite filter_cons.
  case_decide; simpl; [|done]. rewrite decide_False; [done|]. intros ->. naive_solver.
Qed.

(** ** Allocation of a parsed tree *)

(** [alloc] numbers the nodes [n], [n+1], ... in document order, returns
    the next free identity, and forgets nothing of the parsed tree. *)
Lemma alloc_spec n x :
  erase (alloc n x).1 = x /\ oids (alloc n x).1 = seq n (xml_size x) /\
  (alloc n x).2 = n + xml_size x.
Proof.
  revert n. induction x as [t a ks IH] using xml_ind. intros n. cbn [alloc xml_size].
  assert (Hgo : forall m,
    let r := (fix go (n : nat) (ks : list xml) : list elem * nat :=
                match ks with
                | [] => ([], n)
                | k :: ks' => let '(e, n1) := alloc n k in
                              let '(es, n2) := go n1 ks' in (e :: es, n2)
                end) m ks in
    erase <$> r.1 = ks /\ r.1 ≫= oids = seq m (sum_list_with xml_size ks) /\
    r.2 = m + sum_list_with xml_size ks).
  { induction IH as [|k ks Hk _ IHks]; intros m; simpl; [split_and!; done || lia|].
    destruct (Hk m) as (Hk1 & Hk2 & Hk3). destruct (alloc m k) as [e n1]. simpl in *.
    destruct (IHks n1) as (Hs1 & Hs2 & Hs3).
    destruct (_ n1 ks) as [es n2]. simpl in *. subst n1 n2.
    split_and!; [by f_equal| |lia]. rewrite seq_app, <- Hs2, Hk2. done. }
  destruct (Hgo (S n)) as (H1 & H2 & H3). destruct (_ (S n) ks) as [es n']. simpl in *.
  split_and!; [by f_equal| |lia]. rewrite oids_Elem. f_equal. exact H2.
Qed.

Lemma erase_alloc n x : erase (alloc n x).1 = x.
Proof. apply alloc_spec. Qed.

Lemma oids_alloc n x : oids (alloc n x).1 = seq n (xml_size x).
Proof. apply alloc_spec. Qed.

Lemma alloc_next n x : (alloc n x).2 = n + xml_size x.
Proof. apply alloc_spec. Qed.

(** Fresh objects have distinct identities, all in [[n, n')]. *)
Lemma alloc_NoDup n x : NoDup (oids (alloc n x).1).
Proof. rewrite oids_alloc. apply NoDup_seq. Qed.

Lemma elem_of_oids_alloc n x o : o ∈ oids (alloc n x).1 <-> n <= o < (alloc n x).2.
Proof. rewrite oids_alloc, alloc_next, elem_of_seq. lia. Qed.

(** ** Identities under mutation *)

Lemma find_elem_Elem_ne o i t a ks : i <> o -> find_elem o (Elem i t a ks) = find_in o ks.
Proof. intros Hi. simpl. by rewrite decide_False. Qed.

Lemma update_elem_Elem_ne o f i t a ks :
  i <> o -> update_elem o f (Elem i t a ks) = Elem i t a (update_in o f ks).
Proof. intros Hi. simpl. by rewrite decide_False. Qed.

Section update_perm.
Variables (o : nat) (f : elem -> elem).

(** The identities of a forest after the mutation, given the mutation's
    effect on each tree. *)
Lemma update_in_perm_gen ts z :
  Forall (fun t => forall z, find_elem o t = Some z ->
            oids (update_elem o f t) ++ oids z ≡ₚ oids t ++ oids (f z)) ts ->
  find_in o ts = Some z -> (update_in o f ts ≫= oids) ++ oids z ≡ₚ (ts ≫= oids) ++ oids (f z).
Proof.
  unfold find_in, update_in. induction 1 as [|t ts Ht _ IH]; [done|].
  rewrite fmap_cons, !bind_cons. cbn [first_some update_first].
  destruct (find_elem o t) as [z'|] eqn:Et.
  - intros [= <-]. rewrite bool_decide_eq_true_2 by (eapply find_elem_Some_elem_of; eauto).
    rewrite bind_cons, <- (assoc_L (++)), (comm (++) (ts ≫= oids)), (assoc_L (++)), (Ht z' eq_refl).
    solve_Permutation.
  - rewrite bool_decide_eq_false_2 by (by apply find_elem_None).
    intros Hts. rewrite bind_cons, <- !(assoc_L (++)). apply Permutation_app_head. by apply IH.
Qed.

(** Mutating the first object [o] of a tree replaces the identities of its
    subtree [z] by those of [f z]; the others are kept. *)
Lemma update_elem_perm e z :
  find_elem o e = Some z -> oids (update_elem o f e) ++ oids z ≡ₚ oids e ++ oids (f z).
Proof.
  revert z. induction e as [i t a ks IH] using elem_ind; intros z.
  destruct (decide (i = o)) as [<-|Hi].
  - simpl. rewrite !decide_True by done. intros [= <-]. apply Permutation_app_comm.
  - rewrite find_elem_Elem_ne, update_elem_Elem_ne, !oids_Elem by done. intros Hz.
    simpl. apply perm_skip. by apply update_in_perm_gen.
Qed.

Lemma update_in_perm ts z :
  find_in o ts = Some z -> (update_in o f ts ≫= oids) ++ oids z ≡ₚ (ts ≫= oids) ++ oids (f z).
Proof.
  apply update_in_perm_gen, Forall_forall. intros t _ z'. apply update_elem_perm.
Qed.
End update_perm.

Lemma update_in_notin o f ts : find_in o ts = None -> update_in o f ts = ts.
Proof.
  rewrite find_in_None. intros Hn. apply update_first_none, Forall_forall.
  intros t Ht. apply bool_decide_eq_false. by apply Hn.
Qed.

Lemma oids_append_kid c z : oids (append_kid c z) = oids z ++ oids c.
Proof.
  destruct z as [i t a ks]. unfold append_kid.
  by rewrite !oids_Elem, bind_app, bind_singleton.
Qed.

Lemma oids_insert_first c z : oids (insert_first c z) ≡ₚ oids z ++ oids c.
Proof.
  destruct z as [i t a ks]. unfold insert_first. rewrite !oids_Elem, bind_cons.
  apply perm_skip. apply Permutation_app_comm.
Qed.

Lemma oids_set_tag t z : oids (set_tag t z) = oids z.
Proof. by apply oids_same_kids; destruct z. Qed.

Lemma oids_del_attr k z : oids (del_attr k z) = oids z.
Proof. by apply oids_same_kids; destruct z. Qed.

Lemma e_oid_elem_of_oids x : e_oid x ∈ oids x.
Proof. destruct x. rewrite oids_Elem. left. Qed.

Lemma elem_of_bind_oids o k ks : k ∈ ks -> o ∈ oids k -> o ∈ ks ≫= oids.
Proof. intros Hk Ho. apply list_elem_of_bind. by exists k. Qed.

(** Removing the only child with identity [c] takes its subtree out. *)
Lemma filter_oid_perm c ks k :
  NoDup (ks ≫= oids) -> k ∈ ks -> e_oid k = c ->
  (filter (fun k => e_oid k <> c) ks ≫= oids) ++ oids k ≡ₚ ks ≫= oids.
Proof.
  induction ks as [|k' ks IH]; intros Hnd Hk Hc; [by apply not_elem_of_nil in Hk|].
  rewrite bind_cons in Hnd |- *. apply NoDup_app in Hnd as (_ & Hdis & Hnd).
  rewrite filter_cons. case_decide as Hk'.
  - rewrite bind_cons, <- (assoc_L (++)). apply Permutation_app_head.
    apply IH; [done| |done]. apply elem_of_cons in Hk as [->|]; [done|done].
  - assert (Hall : forall x, x ∈ ks -> e_oid x <> c).
    { intros x Hx Hxc. apply (Hdis c); [rewrite <- Hk'; apply e_oid_elem_of_oids|].
      apply (elem_of_bind_oids c x); [done|rewrite <- Hxc; apply e_oid_elem_of_oids]. }
    rewrite filter_all by done. apply elem_of_cons in Hk as [->|Hk].
    + apply Permutation_app_comm.
    + by destruct (Hall k Hk).
Qed.

Lemma oids_remove_kid c z k :
  NoDup (oids z) -> k ∈ e_kids z -> e_oid k = c -> oids (remove_kid c z) ++ oids k ≡ₚ oids z.
Proof.
  destruct z as [i t a ks]. unfold remove_kid. rewrite !oids_Elem. intros Hnd Hk Hc.
  apply perm_skip. apply NoDup_cons in Hnd as [_ Hnd]. by apply filter_oid_perm.
Qed.

Lemma find_in_oid o ts y : find_in o ts = Some y -> e_oid y = o.
Proof.
  unfold find_in. induction ts as [|t ts IH]; simpl; [done|].
  destruct (find_elem o t) eqn:Et; [intros [= <-]; by eapply find_elem_oid|done].
Qed.

Lemma first_some_Some {A} (l : list (option A)) x : first_some l = Some x -> Some x ∈ l.
Proof.
  induction l as [|[y|] l IH]; simpl; [done| |].
  - intros [= ->]. left.
  - intros Hx. right. by apply IH.
Qed.

(** The identities of a found object form a segment of the tree's. *)
Lemma find_elem_split o e x :
  find_elem o e = Some x -> exists l1 l2, oids e = l1 ++ oids x ++ l2.
Proof.
  revert x. induction e as [i t a ks IH] using elem_ind; intros x.
  destruct (decide (i = o)) as [<-|Hi].
  - simpl. rewrite decide_True by done. intros [= <-]. exists [], []. by rewrite (right_id_L [] (++)).
  - rewrite find_elem_Elem_ne, oids_Elem by done. unfold find_in. intros Hx.
    assert (exists l1 l2, ks ≫= oids = l1 ++ oids x ++ l2) as (l1 & l2 & Hs).
    { induction IH as [|k ks Hk _ IHks]; [done|]. rewrite fmap_cons in Hx. simpl in Hx.
      rewrite bind_cons. destruct (find_elem o k) as [y|] eqn:Ek.
      - injection Hx as <-. destruct (Hk _ eq_refl) as (l1 & l2 & ->). exists l1, (l2 ++ ks ≫= oids).
        by rewrite <- !(assoc_L (++)).
      - destruct (IHks Hx) as (l1 & l2 & ->). exists (oids k ++ l1), l2. by rewrite <- !(assoc_L (++)). }
    exists (i :: l1), l2. by rewrite Hs.
Qed.

Lemma find_in_split o ts x :
  find_in o ts = Some x -> exists l1 l2, ts ≫= oids = l1 ++ oids x ++ l2.
Proof.
  unfold find_in. induction ts as [|t ts IH]; [done|]. rewrite fmap_cons, bind_cons. simpl.
  destruct (find_elem o t) as [y|] eqn:Et.
  - intros [= <-]. destruct (find_elem_split o t y Et) as (l1 & l2 & ->).
    exists l1, (l2 ++ ts ≫= oids). by rewrite <- !(assoc_L (++)).
  - intros Hx. destruct (IH Hx) as (l1 & l2 & ->). exists (oids t ++ l1), l2. by rewrite <- !(assoc_L (++)).
Qed.

Lemma find_in_NoDup o ts x : find_in o ts = Some x -> NoDup (ts ≫= oids) -> NoDup (oids x).
Proof.
  intros Hx. destruct (find_in_split o ts x Hx) as (l1 & l2 & ->).
  intros Hnd. apply NoDup_app in Hnd as (_ & _ & Hnd). by apply NoDup_app in Hnd as (? & _ & _).
Qed.
