(* ===== verification/Xml.v ===== *)
(** * Xml: a small XML reader and writer

    A concrete parser and printer for the element structure the model
    keeps (tags, attributes, children), used to run the model on the
    markup of the spec's examples.  The reader resolves namespace
    declarations ([xmlns], [xmlns:p]) into Clark names as lxml does,
    drops text content, comments are not accepted, an unbound prefix or a
    mismatched end tag is a syntax error.  Recursion is on fuel; the
    length of the input plus one is always enough ([parse_doc]). *)

From S2P Require Import Prelude Etree.

Definition dquote : ascii := ascii_of_nat 34.

Definition is_space (c : ascii) : bool :=
  Ascii.eqb c " " || Ascii.eqb c (ascii_of_nat 10) || Ascii.eqb c (ascii_of_nat 13)
  || Ascii.eqb c (ascii_of_nat 9).

Definition name_char (c : ascii) : bool :=
  negb (is_space c || Ascii.eqb c "<" || Ascii.eqb c ">" || Ascii.eqb c "/"
        || Ascii.eqb c "=" || Ascii.eqb c dquote || Ascii.eqb c "'").

Fixpoint skip_ws (l : list ascii) : list ascii :=
  match l with
  | c :: l' => if is_space c then skip_ws l' else l
  | [] => []
  end.

(** [p:local] as [(p, local)], an unprefixed name as [("", name)]. *)
Definition split_qname (n : list ascii) : string * string :=
  let '(p, r) := span (fun c => negb (Ascii.eqb c ":")) n in
  match r with
  | _ :: l => (String.string_of_list_ascii p, String.string_of_list_ascii l)
  | [] => ("", String.string_of_list_ascii n)
  end.

(** Namespace bindings, innermost first; the key [""] is the default. *)
Abbreviation nsenv := (list (string * string)).

Definition xmlns_decl (kv : string * string) : option (string * string) :=
  let '(p, l) := split_qname (String.list_ascii_of_string kv.1) in
  if decide (p = "" /\ l = "xmlns") then Some ("", kv.2)
  else if decide (p = "xmlns") then Some (l, kv.2) else None.

Definition clark (ns l : string) : string := "{" +:+ ns +:+ "}" +:+ l.

(** An element name takes the default namespace; an attribute name only
    an explicit prefix. *)
Definition resolve_tag (env : nsenv) (n : list ascii) : option string :=
  let '(p, l) := split_qname n in
  match attr_get p env with
  | Some ns => Some (clark ns l)
  | None => if decide (p = "") then Some l else None
  end.

Definition resolve_attr (env : nsenv) (kv : string * string) : option (string * string) :=
  let '(p, l) := split_qname (String.list_ascii_of_string kv.1) in
  if decide (p = "") then Some kv
  else match attr_get p env with Some ns => Some (clark ns l, kv.2) | None => None end.

Fixpoint parse_attrs (fuel : nat) (l : list ascii) : option (attrib * list ascii) :=
  match fuel with
  | 0 => None
  | S f =>
      match skip_ws l with
      | [] => None
      | c :: r =>
          if Ascii.eqb c ">" || Ascii.eqb c "/" then Some ([], c :: r) else
          let '(n, r1) := span name_char (c :: r) in
          match n, skip_ws r1 with
          | _ :: _, e :: r2 =>
              if negb (Ascii.eqb e "=") then None else
              match skip_ws r2 with
              | q :: r3 =>
                  if negb (Ascii.eqb q dquote || Ascii.eqb q "'") then None else
                  let '(v, r4) := span (fun c => negb (Ascii.eqb c q)) r3 in
                  match r4 with
                  | _ :: r5 =>
                      match parse_attrs f r5 with
                      | Some (a, r6) =>
                          Some ((String.string_of_list_ascii n, String.string_of_list_ascii v) :: a, r6)
                      | None => None
                      end
                  | [] => None
                  end
              | [] => None
              end
          | _, _ => None
          end
      end
  end.

Fixpoint resolve_attrs (env : nsenv) (a : attrib) : option attrib :=
  match a with
  | [] => Some []
  | kv :: a' =>
      match xmlns_decl kv with
      | Some _ => resolve_attrs env a'
      | None =>
          match resolve_attr env kv, resolve_attrs env a' with
          | Some kv', Some a'' => Some (kv' :: a'')
          | _, _ => None
          end
      end
  end.

(** Text between elements is skipped: the model keeps no text. *)
Definition skip_text (l : list ascii) : list ascii := (span (fun c => negb (Ascii.eqb c "<")) l).2.

Fixpoint parse_elem (fuel : nat) (env : nsenv) (l : list ascii) : option (xml * list ascii) :=
  match fuel with
  | 0 => None
  | S f =>
      match skip_ws l with
      | c :: r =>
          if negb (Ascii.eqb c "<") then None else
          let '(n, r1) := span name_char r in
          match n, parse_attrs (S (length r1)) r1 with
          | _ :: _, Some (a, r2) =>
              let env' := omap xmlns_decl a ++ env in
              match resolve_tag env' n, resolve_attrs env' a with
              | Some t, Some a' =>
                  match r2 with
                  | c1 :: c2 :: r3 =>
                      if Ascii.eqb c1 "/" && Ascii.eqb c2 ">" then Some (XElem t a' [], r3)
                      else if Ascii.eqb c1 ">" then
                        match parse_kids f env' (c2 :: r3) with
                        | Some (ks, c3 :: c4 :: r4) =>
                            let '(n', r5) := span name_char r4 in
                            match skip_ws r5 with
                            | c5 :: r6 =>
                                if Ascii.eqb c3 "<" && Ascii.eqb c4 "/" && bool_decide (n' = n)
                                   && Ascii.eqb c5 ">"
                                then Some (XElem t a' ks, r6) else None
                            | [] => None
                            end
                        | _ => None
                        end
                      else None
                  | _ => None
                  end
              | _, _ => None
              end
          | _, _ => None
          end
      | [] => None
      end
  end
with parse_kids (fuel : nat) (env : nsenv) (l : list ascii) : option (list xml * list ascii) :=
  match fuel with
  | 0 => None
  | S f =>
      match skip_text l with
      | c1 :: c2 :: r =>
          if Ascii.eqb c2 "/" then Some ([], c1 :: c2 :: r) else
          match parse_elem f env (c1 :: c2 :: r) with
          | Some (k, r1) =>
              match parse_kids f env r1 with
              | Some (ks, r2) => Some (k :: ks, r2)
              | None => None
              end
          | None => None
          end
      | _ => None
      end
  end.

(** An optional [<?xml ...?>] declaration, one element, trailing space. *)
Definition skip_prolog (l : list ascii) : list ascii :=
  match skip_ws l with
  | c1 :: c2 :: r =>
      if Ascii.eqb c1 "<" && Ascii.eqb c2 "?" then
        let fix go (l : list ascii) :=
          match l with
          | c :: ((d :: _) as r) => if Ascii.eqb c "?" && Ascii.eqb d ">" then List.tl r else go r
          | _ => []
          end in go r
      else c1 :: c2 :: r
  | l' => l'
  end.

(** [None]: not well-formed. *)
Definition parse_doc (s : string) : option xml :=
  let l := skip_prolog (String.list_ascii_of_string s) in
  match parse_elem (S (length l)) [] l with
  | Some (x, r) => if bool_decide (skip_ws r = []) then Some x else None
  | None => None
  end.

(** The writer prints names in Clark notation and values between double
    quotes. *)
Definition print_attr (kv : string * string) : string :=
  " " +:+ kv.1 +:+ "=" +:+ String dquote (kv.2 +:+ String dquote EmptyString).

Fixpoint print_xml (x : xml) : string :=
  match x with
  | XElem t a ks =>
      "<" +:+ t +:+ String.concat "" (print_attr <$> a) +:+
      match ks with
      | [] => "/>"
      | _ => ">" +:+ String.concat "" (print_xml <$> ks) +:+ "</" +:+ t +:+ ">"
      end
  end.
