(* ===== verification/PyStr.v ===== *)
(** * PyStr: the Python string methods svg.py calls

    [str.replace(old, new)] (every non-overlapping occurrence, left to
    right; an empty [old] puts [new] between all characters and at both
    ends) and [str.format] with keyword arguments (literal text, [{{] and [}}], and
    replacement fields [{name...}] looked up in the keyword arguments).
    [str.replace] is written as one structural pass that counts the
    characters of a match still to skip ([replace_go]) and proved equal to
    the direct definition that drops a match ([replace_ref], on fuel). *)

From S2P Require Import Prelude.

Section Replace.
Variables (old new : list ascii).

(** One pass over the text; [skip] characters of the last match are still
    to be dropped. *)
Fixpoint replace_go (skip : nat) (l : list ascii) : list ascii :=
  match l, skip with
  | [], _ => []
  | _ :: l', S k => replace_go k l'
  | c :: l', 0 =>
      if bool_decide (old `prefix_of` c :: l') then new ++ replace_go (length old - 1) l'
      else c :: replace_go 0 l'
  end.

(** The reference: at a match, emit [new] and drop the match. *)
Fixpoint replace_ref (fuel : nat) (l : list ascii) : list ascii :=
  match fuel with
  | 0 => l
  | S f =>
      match l with
      | [] => []
      | c :: l' =>
          if bool_decide (old `prefix_of` l) then new ++ replace_ref f (drop (length old) l)
          else c :: replace_ref f l'
      end
  end.

Definition py_replace_list (l : list ascii) : list ascii :=
  match old with
  | [] => new ++ (l ≫= fun c => c :: new)
  | _ => replace_go 0 l
  end.
End Replace.

(** [p in l]: [p] occurs somewhere in [l]. *)
Definition occurs_in (p l : list ascii) : Prop := exists a b, l = a ++ p ++ b.

(** [s.replace(old, new)] *)
Definition str_replace (s old new : string) : string :=
  String.string_of_list_ascii
    (py_replace_list (String.list_ascii_of_string old) (String.list_ascii_of_string new)
                     (String.list_ascii_of_string s)).

(** ** [str.format] with keyword arguments *)

Definition lbrace : ascii := "{".
Definition rbrace : ascii := "}".

(** What comes after the argument name in a field ([.attr], [[key]],
    [!conversion], [:spec]) is applied by Python's [format] of the value;
    it is an interface, with the law that a bare field gives the value. *)
Class FormatField := {
  format_field : string -> list ascii -> outcome string;
  format_field_bare v : format_field v [] = Ok v
}.

(** Where the scanner is: in literal text, after a [{] or a [}], or inside
    a replacement field (nesting depth, characters read so far in reverse). *)
Inductive fmode := FLit | FOpen | FClose | FField (depth : nat) (acc : list ascii).

Definition is_digit (c : ascii) : bool := bool_decide (48 <= nat_of_ascii c <= 57).
Definition name_end (c : ascii) : bool :=
  bool_decide (c ∈ ["."; "["; "!"; ":"]%char).

Section Format.
Context `{FormatField} (kw : gmap string string).

(** The value of the field [f]: its argument name up to [.], [[], [!] or
    [:]; an empty or numeric name is a positional argument, of which
    [format] with keyword arguments only has none. *)
Definition eval_field (f : list ascii) : outcome (list ascii) :=
  let '(name, rest) := span (fun c => negb (name_end c)) f in
  if forallb is_digit name then
    Raise (IndexError ("Replacement index " +:+ (if name is [] then "0" else String.string_of_list_ascii name)
                       +:+ " out of range for positional args tuple"))
  else
    match kw !! String.string_of_list_ascii name with
    | None => Raise (KeyError (String.string_of_list_ascii name))
    | Some v =>
        match format_field v rest with
        | Ok r => Ok (String.list_ascii_of_string r)
        | Raise e => Raise e
        end
    end.

Definition ocons (v : list ascii) (r : outcome (list ascii)) : outcome (list ascii) :=
  match r with Ok l => Ok (v ++ l) | Raise e => Raise e end.

Fixpoint fmt_go (m : fmode) (l : list ascii) : outcome (list ascii) :=
  match m, l with
  | FLit, [] => Ok []
  | FLit, c :: l' =>
      if bool_decide (c = lbrace) then fmt_go FOpen l'
      else if bool_decide (c = rbrace) then fmt_go FClose l'
      else ocons [c] (fmt_go FLit l')
  | FOpen, [] => Raise (ValueError "Single '{' encountered in format string")
  | FOpen, c :: l' =>
      if bool_decide (c = lbrace) then ocons [lbrace] (fmt_go FLit l')
      else if bool_decide (c = rbrace) then
        match eval_field [] with Ok v => ocons v (fmt_go FLit l') | Raise e => Raise e end
      else fmt_go (FField 0 [c]) l'
  | FClose, c :: l' =>
      if bool_decide (c = rbrace) then ocons [rbrace] (fmt_go FLit l')
      else Raise (ValueError "Single '}' encountered in format string")
  | FClose, [] => Raise (ValueError "Single '}' encountered in format string")
  | FField _ _, [] => Raise (ValueError "expected '}' before end of string")
  | FField d acc, c :: l' =>
      if bool_decide (c = rbrace) then
        match d with
        | 0 => match eval_field (rev acc) with Ok v => ocons v (fmt_go FLit l') | Raise e => Raise e end
        | S d' => fmt_go (FField d' (c :: acc)) l'
        end
      else if bool_decide (c = lbrace) then fmt_go (FField (S d) (c :: acc)) l'
      else fmt_go (FField d (c :: acc)) l'
  end.
End Format.

(** Text in which [str.format] sees no field. *)
Definition brace_free (l : list ascii) : Prop := Forall (fun c => c <> lbrace /\ c <> rbrace) l.

(** Doubling every brace: how a literal brace is written in a format
    string. *)
Fixpoint escape_braces (l : list ascii) : list ascii :=
  match l with
  | [] => []
  | c :: l' => if bool_decide (c = lbrace \/ c = rbrace) then c :: c :: escape_braces l' else c :: escape_braces l'
  end.

(** [fmt.format] with the keyword arguments [kw] *)
Definition py_format `{FormatField} (fmt : string) (kw : gmap string string) : outcome string :=
  match fmt_go kw FLit (String.list_ascii_of_string fmt) with
  | Ok l => Ok (String.string_of_list_ascii l)
  | Raise e => Raise e
  end.

(** A collaborator for running the model: bare fields only, a conversion
    or a format spec is rejected. *)
#[export] Instance bare_fields : FormatField :=
  {| format_field v spec := if spec is [] then Ok v else Raise (ValueError "Invalid format specifier");
     format_field_bare _ := eq_refl |}.

(** ** Theorems on [str.replace] *)

Lemma list_ascii_of_string_app a b :
  String.list_ascii_of_string (a +:+ b) = String.list_ascii_of_string a ++ String.list_ascii_of_string b.
Proof. induction a as [|c a IH]; simpl; [done|]. by rewrite IH. Qed.

Section ReplaceTheorems.
Variables (old new : list ascii).

Lemma replace_go_skip k l : replace_go old new k l = replace_go old new 0 (drop k l).
Proof.
  revert k. induction l as [|c l IH]; intros [|k]; simpl; [done|by destruct k|done|apply IH].
Qed.

Lemma prefix_drop_length (l : list ascii) :
  old `prefix_of` l -> old ++ drop (length old) l = l.
Proof. intros [r ->]. by rewrite drop_app_length. Qed.
End ReplaceTheorems.

Section ReplaceClaims.

(** The one-pass [replace_go] equals the reference that emits [new] at
    each match and drops the match, whenever the reference has fuel for
    every character. *)
Lemma replace_go_ref old new fuel l :
  old <> [] -> length l <= fuel -> replace_go old new 0 l = replace_ref old new fuel l.
Proof.
  intros Hne. revert l. induction fuel as [|f IH]; intros [|c l] Hl; simpl in *; try done; [lia|].
  case_bool_decide as Hp; [|f_equal; apply IH; lia].
  destruct old as [|o old']; [done|]. simpl. rewrite Nat.sub_0_r, replace_go_skip.
  f_equal. apply IH. rewrite length_drop. simpl. lia.
Qed.

(** A text without the pattern is returned unchanged. *)
Lemma str_replace_absent s old new :
  old <> "" -> ~ occurs_in (String.list_ascii_of_string old) (String.list_ascii_of_string s) ->
  str_replace s old new = s.
Proof.
  intros Hne Hin. unfold str_replace, py_replace_list.
  destruct (String.list_ascii_of_string old) as [|o old'] eqn:Ho.
  { destruct old; [done|discriminate]. }
  rewrite <- Ho in Hin |- *. clear Hne.
  assert (replace_go (String.list_ascii_of_string old) (String.list_ascii_of_string new) 0
            (String.list_ascii_of_string s) = String.list_ascii_of_string s) as ->;
    [|apply String.string_of_list_ascii_of_string].
  revert Hin. generalize (String.list_ascii_of_string s) as l.
  induction l as [|c l IH]; intros Hin; [done|]. simpl.
  rewrite bool_decide_eq_false_2.
  - f_equal. apply IH. intros (a & b & ->). apply Hin. by exists (c :: a), b.
  - intros [r Hr]. apply Hin. exists [], r. by rewrite Hr.
Qed.

(** Replacing a pattern by itself is the identity, the empty pattern
    included. *)
Lemma str_replace_self s old : str_replace s old old = s.
Proof.
  unfold str_replace, py_replace_list.
  transitivity (String.string_of_list_ascii (String.list_ascii_of_string s));
    [f_equal|apply String.string_of_list_ascii_of_string].
  generalize (String.list_ascii_of_string s) as l. intros l.
  destruct (String.list_ascii_of_string old) as [|o old'] eqn:Ho.
  - simpl. induction l as [|c l IH]; [done|]. by rewrite bind_cons, IH.
  - rewrite (replace_go_ref _ _ (length l)) by (done || lia).
    remember (length l) as n. assert (length l <= n) as Hn by lia. clear Heqn.
    revert l Hn. induction n as [|n IH]; intros l Hn; [done|]. destruct l as [|c l]; [done|]. simpl.
    case_bool_decide as Hp.
    + rewrite IH; [exact (prefix_drop_length (o :: old') (c :: l) Hp)|]. rewrite length_drop. simpl in *. lia.
    + f_equal. apply IH. simpl in Hn. lia.
Qed.
End ReplaceClaims.

(** ** Theorems on [str.format] *)

Section FormatTheorems.
Context `{FormatField} (kw : gmap string string).

Lemma ocons_app a b r : ocons (a ++ b) r = ocons a (ocons b r).
Proof. destruct r; simpl; by rewrite ?(assoc_L (++)). Qed.

(** Literal text is copied. *)
Lemma fmt_lit_app a l : brace_free a -> fmt_go kw FLit (a ++ l) = ocons a (fmt_go kw FLit l).
Proof.
  induction 1 as [|c a [Hl Hr] _ IH]; [simpl; by destruct (fmt_go kw FLit l)|]. simpl.
  rewrite !bool_decide_eq_false_2 by done. rewrite IH. by rewrite (ocons_app [c] a).
Qed.

(** A field is read up to its closing brace, then evaluated. *)
Lemma fmt_field_app acc f l :
  brace_free f ->
  fmt_go kw (FField 0 acc) (f ++ rbrace :: l) =
  match eval_field kw (rev acc ++ f) with Ok v => ocons v (fmt_go kw FLit l) | Raise e => Raise e end.
Proof.
  intros Hf. revert acc. induction Hf as [|c f [Hl Hr] _ IH]; intros acc; simpl.
  - try rewrite bool_decide_eq_true_2 by done. by rewrite (right_id_L [] (++)).
  - rewrite !bool_decide_eq_false_2 by done. rewrite IH. simpl. by rewrite <- (assoc_L (++)).
Qed.

Lemma fmt_escape l : fmt_go kw FLit (escape_braces l) = Ok l.
Proof.
  induction l as [|c l IH]; [done|]. cbn [escape_braces]. case_bool_decide as Hc.
  - destruct Hc as [-> | ->]; cbn; by rewrite IH.
  - cbn [fmt_go]. rewrite !bool_decide_eq_false_2 by naive_solver. by rewrite IH.
Qed.

Lemma py_format_escape s : py_format (String.string_of_list_ascii (escape_braces (String.list_ascii_of_string s))) kw = Ok s.
Proof.
  unfold py_format. rewrite String.list_ascii_of_string_of_list_ascii, fmt_escape.
  by rewrite String.string_of_list_ascii_of_string.
Qed.

Lemma span_name k spec :
  Forall (fun c => name_end c = false) k ->
  (spec = [] \/ exists c r, spec = c :: r /\ name_end c = true) ->
  span (fun c => negb (name_end c)) (k ++ spec) = (k, spec).
Proof.
  intros Hk Hs. induction Hk as [|c k Hc _ IH]; simpl.
  - destruct Hs as [->|(c & r & -> & Hc)]; [done|]. simpl. by rewrite Hc.
  - rewrite Hc. simpl. by rewrite IH.
Qed.

(** A field naming a missing keyword raises [KeyError] with the name. *)
Lemma eval_field_missing k spec :
  Forall (fun c => name_end c = false) k ->
  (spec = [] \/ exists c r, spec = c :: r /\ name_end c = true) ->
  forallb is_digit k = false -> kw !! String.string_of_list_ascii k = None ->
  eval_field kw (k ++ spec) = Raise (KeyError (String.string_of_list_ascii k)).
Proof. intros Hk Hs Hd Hn. unfold eval_field. rewrite span_name by done. by rewrite Hd, Hn. Qed.

Lemma fmt_missing_key a k spec b :
  brace_free a -> brace_free (k ++ spec) -> k <> [] ->
  Forall (fun c => name_end c = false) k ->
  (spec = [] \/ exists c r, spec = c :: r /\ name_end c = true) ->
  forallb is_digit k = false -> kw !! String.string_of_list_ascii k = None ->
  fmt_go kw FLit (a ++ lbrace :: k ++ spec ++ rbrace :: b) = Raise (KeyError (String.string_of_list_ascii k)).
Proof.
  intros Ha Hks Hne Hk Hs Hd Hn. rewrite fmt_lit_app by done.
  destruct k as [|c k]; [done|]. apply Forall_cons in Hks as [[Hl Hr] Hks].
  cbn [fmt_go app]. rewrite bool_decide_eq_true_2 by done. cbn [fmt_go].
  rewrite !bool_decide_eq_false_2 by done. rewrite (assoc_L (++)), fmt_field_app by done.
  change (rev [c] ++ k ++ spec) with ((c :: k) ++ spec). rewrite eval_field_missing by done. done.
Qed.
End FormatTheorems.
