(* ===== verification/Template.v ===== *)
(** * Template: the [Template] class of [src/svgcomposer/svglue.py]

    The state of a [Template] object ([__init__], lines 68-71) together
    with the process state its methods touch (the [uuid4] draws and the
    creation of new element objects), the constants of the module, and
    the methods [get_by_id] and [get_defs] written in the monad [PyM].
    The theorems give each method's result on every branch, and the
    lemmas on reading and updating objects of the state that the other
    components' proofs use. *)

From S2P Require Import Prelude Etree.

(** ** Constants (svglue.py, lines 33-37) *)

Definition SVG_NS : string := "http://www.w3.org/2000/svg".
Definition INKSCAPE_NS : string := "http://www.inkscape.org/namespaces/inkscape".
Definition RECT_TAG : string := "{http://www.w3.org/2000/svg}rect".
Definition USE_TAG : string := "{http://www.w3.org/2000/svg}use".
Definition HREF_ATTR : string := "{http://www.w3.org/1999/xlink}href".

(** [/svg:svg] and [svg:defs] with the prefix bound to [SVG_NS], and the tag
    [f"{{{SVG_NS}}}defs"] of the element [get_defs] creates. *)
Definition SVG_TAG : string := "{" +:+ SVG_NS +:+ "}svg".
Definition DEFS_TAG : string := "{" +:+ SVG_NS +:+ "}defs".

(** [ALLOWED_ATTRS = ('x', 'y')] (line 127). *)
Definition ALLOWED_ATTRS : list string := ["x"; "y"].

(** ** Interfaces to the libraries the class calls *)

(** [str(uuid4())]: the code only relies on distinct draws, so [uuid4] is
    an injective supply indexed by the number of earlier draws. *)
Class Uuid := {
  uuid4 : nat -> string;
  uuid4_inj : Inj (=) (=) uuid4
}.

(** lxml's answer to [//*[@id='tid']] when [tid] contains an apostrophe:
    the identifier then ends the XPath string literal early, and lxml
    evaluates whatever expression results, or rejects it with
    [XPathEvalError] ([None]).  Only node-set results are modelled: the
    elements found are elements of the queried document. *)
Class XPathEval := {
  xpath_broken_id_query : string -> elem -> option (list nat);
  xpath_broken_in_doc tid root l :
    xpath_broken_id_query tid root = Some l -> forall o, o ∈ l -> o ∈ oids root
}.

(** ** The state of a [Template] object *)

(** [Template.load] builds [_doc] with [etree.fromstring] (an [_Element])
    or with [etree.parse] (an [_ElementTree]); only the latter has
    [getroot]. *)
Inductive doc_kind := FromString | FromFile.

#[export] Instance doc_kind_eq_dec : EqDecision doc_kind.
Proof. solve_decision. Defined.

Record state := mk_state {
  st_kind : doc_kind;            (** the Python type of [_doc] *)
  st_doc : elem;                 (** the root element of [_doc] *)
  st_loose : list elem;          (** detached subtrees still referenced *)
  st_tid_cache : gmap string nat;(** [_tid_cache] *)
  st_defs : option nat;          (** [_defs] *)
  st_uuids : nat;                (** number of [uuid4()] draws so far *)
  st_next : nat                  (** next identity of a new Python object *)
}.

Definition with_doc (r : elem) (s : state) : state :=
  mk_state (st_kind s) r (st_loose s) (st_tid_cache s) (st_defs s) (st_uuids s) (st_next s).
Definition with_loose (l : list elem) (s : state) : state :=
  mk_state (st_kind s) (st_doc s) l (st_tid_cache s) (st_defs s) (st_uuids s) (st_next s).
Definition with_cache (c : gmap string nat) (s : state) : state :=
  mk_state (st_kind s) (st_doc s) (st_loose s) c (st_defs s) (st_uuids s) (st_next s).
Definition with_defs (d : option nat) (s : state) : state :=
  mk_state (st_kind s) (st_doc s) (st_loose s) (st_tid_cache s) d (st_uuids s) (st_next s).
Definition with_uuids (u : nat) (s : state) : state :=
  mk_state (st_kind s) (st_doc s) (st_loose s) (st_tid_cache s) (st_defs s) u (st_next s).
Definition with_next (n : nat) (s : state) : state :=
  mk_state (st_kind s) (st_doc s) (st_loose s) (st_tid_cache s) (st_defs s) (st_uuids s) n.

(** The object with identity [o], attached to the document or not. *)
Definition st_find (o : nat) (s : state) : option elem :=
  find_in o (st_doc s :: st_loose s).

(** A mutation of the object [o], wherever it lives. *)
Definition st_update (o : nat) (f : elem -> elem) (s : state) : state :=
  if decide (o ∈ oids (st_doc s)) then with_doc (update_elem o f (st_doc s)) s
  else with_loose (update_in o f (st_loose s)) s.

(** Every identity in use. *)
Definition st_oids (s : state) : list nat := (st_doc s :: st_loose s) ≫= oids.

Abbreviation TplM := (PyM state).

Section Methods.
Context `{Uuid} `{XPathEval}.

(** [str(uuid4())] *)
Definition draw_uuid : TplM string :=
  fun s => (with_uuids (S (st_uuids s)) s, Ok (uuid4 (st_uuids s))).

(** A new Python object: a fresh identity. *)
Definition fresh_oid : TplM nat :=
  fun s => (with_next (S (st_next s)) s, Ok (st_next s)).

(** Dereference an element reference. *)
Definition load_elem (o : nat) : TplM elem :=
  s <- get ;;
  match st_find o s with
  | Some x => ret x
  | None => raise (ValueError "dangling element reference")
  end.

Definition mutate (o : nat) (f : elem -> elem) : TplM unit := modify (st_update o f).

(** [elem.attrib[k]] *)
Definition attrib_item (k : string) (x : elem) : outcome string :=
  match attr_get k (e_attrs x) with
  | Some v => Ok v
  | None => Raise (KeyError k)
  end.

(** *** [get_by_id] (lines 73-82) *)

(** [//*[@id='tid']] for an identifier that is a well-formed literal:
    every element of the document, in document order, whose [id] is [tid]. *)
Definition xpath_id (tid : string) (root : elem) : list nat :=
  e_oid <$> filter (fun x => attr_get "id" (e_attrs x) = Some tid) (preorder root).

Definition id_query (tid : string) (root : elem) : outcome (list nat) :=
  if decide ("'"%char ∈ String.list_ascii_of_string tid)
  then match xpath_broken_id_query tid root with
       | Some l => Ok l
       | None => Raise XPathEvalError
       end
  else Ok (xpath_id tid root).

Definition get_by_id (tid : string) : TplM nat :=
  s <- get ;;
  match st_tid_cache s !! tid with
  | Some e => ret e
  | None =>
      matches <- lift (id_query tid (st_doc s)) ;;
      match matches with
      | [e] => modify (fun s => with_cache (<[tid := e]> (st_tid_cache s)) s) ;; ret e
      | _ => raise (LookupError ("Expected unique match for " +:+ tid))
      end
  end.

(** *** [get_defs] (lines 84-97) *)

(** [/svg:svg/svg:defs]: the [defs] children of an SVG root. *)
Definition defs_query (root : elem) : list nat :=
  if decide (e_tag root = SVG_TAG)
  then e_oid <$> filter (fun k => e_tag k = DEFS_TAG) (e_kids root)
  else [].

(** With no [defs], an [_Element] has no [getroot]; an [_ElementTree]'s
    root gets a new [defs] first child, but [insert] returns [None], which
    is what [_defs] is set to and what is returned. *)
Definition get_defs : TplM (option nat) :=
  s <- get ;;
  match st_defs s with
  | Some d => ret (Some d)
  | None =>
      match defs_query (st_doc s) with
      | d :: _ => modify (with_defs (Some d)) ;; ret (Some d)
      | [] =>
          match st_kind s with
          | FromString =>
              raise (AttributeError "'lxml.etree._Element' object has no attribute 'getroot'")
          | FromFile =>
              o <- fresh_oid ;;
              modify (fun s => with_doc (insert_first (Elem o DEFS_TAG [] []) (st_doc s)) s) ;;
              modify (with_defs None) ;;
              ret None
          end
      end
  end.

End Methods.

(** ** Concrete collaborators, used to run the model on examples *)

(** An identifier supply: ["uuid-0"], ["uuid-1"], ... *)
Definition counter_uuid4 (n : nat) : string := "uuid-" +:+ pretty n.

(** Injectivity comes from the instances for [String.app] and [pretty]. *)
#[export] Instance counter_uuid : Uuid := {| uuid4 := counter_uuid4 |}.

(** An XPath evaluator that rejects every expression with a broken literal. *)
#[export] Instance reject_broken_literals : XPathEval :=
  {| xpath_broken_id_query _ _ := None;
     xpath_broken_in_doc _ _ _ H := ltac:(discriminate H) |}.

(** The template of the spec's end-to-end example, in the SVG namespace:
    [<svg><rect id="slot" height="10" width="10" x="1" style="s"/></svg>]. *)
Definition slot_doc : elem :=
  Elem 0 SVG_TAG [] [Elem 1 RECT_TAG [("id", "slot"); ("height", "10"); ("width", "10");
                                      ("x", "1"); ("style", "s")] []].

(** The same placeholder in a document that has a [defs] element. *)
Definition defs_doc : elem :=
  Elem 0 SVG_TAG [] [Elem 2 DEFS_TAG [] [];
                     Elem 1 RECT_TAG [("id", "slot"); ("height", "10"); ("width", "10");
                                      ("x", "1"); ("style", "s")] []].

Definition fresh_state (k : doc_kind) (root : elem) (next : nat) : state :=
  mk_state k root [] ∅ None 0 next.

(** ** Identifier resolution *)

Section Resolution.
Context `{Uuid} `{XPathEval}.

Lemma id_query_plain tid root :
  "'"%char ∉ String.list_ascii_of_string tid -> id_query tid root = Ok (xpath_id tid root).
Proof. intros Hq. unfold id_query. by rewrite decide_False. Qed.

Lemma get_by_id_unique_run tid s e :
  st_tid_cache s !! tid = None ->
  "'"%char ∉ String.list_ascii_of_string tid ->
  xpath_id tid (st_doc s) = [e] ->
  get_by_id tid s = (with_cache (<[tid := e]> (st_tid_cache s)) s, Ok e).
Proof.
  intros Hc Hq Hx. unfold get_by_id. py_unfold.
  by rewrite Hc, id_query_plain, Hx.
Qed.

(** C6 A cache miss on an identifier carried by exactly one element of
    the document returns that element and records it in [_tid_cache]. *)
Theorem get_by_id_unique tid s e :
  st_tid_cache s !! tid = None ->
  "'"%char ∉ String.list_ascii_of_string tid ->
  xpath_id tid (st_doc s) = [e] ->
  get_by_id tid s = (with_cache (<[tid := e]> (st_tid_cache s)) s, Ok e).
Proof. apply get_by_id_unique_run. Qed.

(** C7 A cache miss on an identifier carried by no element, or by two or
    more, raises [LookupError] and leaves the object unchanged. *)
Theorem get_by_id_not_unique tid s :
  st_tid_cache s !! tid = None ->
  "'"%char ∉ String.list_ascii_of_string tid ->
  length (xpath_id tid (st_doc s)) <> 1 ->
  get_by_id tid s = (s, Raise (LookupError ("Expected unique match for " +:+ tid))).
Proof.
  intros Hc Hq Hx. unfold get_by_id. py_unfold.
  rewrite Hc, id_query_plain by done. py_unfold.
  destruct (xpath_id tid (st_doc s)) as [|e [|e' l]]; simpl in *; done.
Qed.

Lemma get_by_id_cached_run tid s e :
  st_tid_cache s !! tid = Some e -> get_by_id tid s = (s, Ok e).
Proof. intros Hc. unfold get_by_id. py_unfold. by rewrite Hc. Qed.

(** C26 A cache hit returns the cached element without querying the
    document, whatever the element's [id] is now. *)
Theorem get_by_id_cached tid s e :
  st_tid_cache s !! tid = Some e -> get_by_id tid s = (s, Ok e).
Proof. apply get_by_id_cached_run. Qed.
(** C17 Spec gap: the identifier is pasted into the XPath literal of
    [//*[@id='tid']] unescaped, so an identifier with an apostrophe ends
    the literal and [get_by_id] returns whatever lxml makes of the broken
    expression: when lxml rejects it, [get_by_id] raises [XPathEvalError]
    although exactly one element carries the identifier. *)
Theorem get_by_id_apostrophe tid s e :
  st_tid_cache s !! tid = None ->
  "'"%char ∈ String.list_ascii_of_string tid ->
  xpath_id tid (st_doc s) = [e] ->
  xpath_broken_id_query tid (st_doc s) = None ->
  get_by_id tid s = (s, Raise XPathEvalError).
Proof.
  intros Hc Hq _ Hb. unfold get_by_id, id_query. py_unfold.
  by rewrite Hc, decide_True, Hb by done.
Qed.
End Resolution.

Lemma get_by_id_unique_witness :
  get_by_id "slot" (fresh_state FromString slot_doc 2)
  = (with_cache {["slot" := 1]} (fresh_state FromString slot_doc 2), Ok 1).
Proof.
  apply get_by_id_unique; [reflexivity | vm_compute; set_solver | reflexivity].
Defined.

Lemma get_by_id_not_unique_witness :
  get_by_id "nope" (fresh_state FromString slot_doc 2)
  = (fresh_state FromString slot_doc 2,
     Raise (LookupError ("Expected unique match for " +:+ "nope"))).
Proof.
  apply get_by_id_not_unique; [reflexivity | vm_compute; set_solver | vm_compute; lia].
Defined.

Lemma get_by_id_apostrophe_witness :
  get_by_id "a'b" (fresh_state FromString (Elem 0 SVG_TAG [] [Elem 1 RECT_TAG [("id", "a'b")] []]) 2)
  = (fresh_state FromString (Elem 0 SVG_TAG [] [Elem 1 RECT_TAG [("id", "a'b")] []]) 2, Raise XPathEvalError).
Proof. apply (get_by_id_apostrophe _ _ 1); [reflexivity | vm_compute; set_solver | reflexivity | reflexivity]. Defined.

Lemma get_by_id_cached_witness :
  get_by_id "slot" (with_cache {["slot" := 7]} (fresh_state FromString slot_doc 2))
  = (with_cache {["slot" := 7]} (fresh_state FromString slot_doc 2), Ok 7).
Proof. apply get_by_id_cached. reflexivity. Defined.

(** ** Reading and mutating objects of the state *)

Lemma st_update_alt o f s :
  st_update o f s =
  match update_in o f (st_doc s :: st_loose s) with
  | d :: l => with_loose l (with_doc d s)
  | [] => s
  end.
Proof.
  destruct s as [k d l c df u n]. unfold st_update, update_in. simpl.
  case_decide; case_bool_decide; done.
Qed.

Lemma st_trees_update o f s :
  st_doc (st_update o f s) :: st_loose (st_update o f s) = update_in o f (st_doc s :: st_loose s).
Proof.
  rewrite st_update_alt. unfold update_in. simpl. by case_bool_decide.
Qed.

Lemma st_find_update_eq o f s y :
  st_find o s = Some y -> (forall z, e_oid (f z) = e_oid z) ->
  st_find o (st_update o f s) = Some (f y).
Proof. unfold st_find. rewrite st_trees_update. apply find_in_update_eq. Qed.

Lemma st_update_ext o f g s y :
  st_find o s = Some y -> f y = g y -> st_update o f s = st_update o g s.
Proof. intros Hf Hfg. rewrite !st_update_alt. by erewrite update_in_ext. Qed.

Lemma st_update_update o f g s :
  (forall z, e_oid (g z) = e_oid z) ->
  st_update o f (st_update o g s) = st_update o (f ∘ g) s.
Proof.
  intros Hg. rewrite (st_update_alt o f), st_trees_update, update_in_update by done.
  rewrite (st_update_alt o (f ∘ g)). unfold update_in. simpl.
  destruct s. unfold st_update. simpl. by repeat case_decide.
Qed.

Lemma st_update_id o s : st_update o (fun z => z) s = s.
Proof. rewrite st_update_alt, update_in_id. by destruct s. Qed.



(** ** Replacing a placeholder *)

Lemma st_update_with_uuids o f n s : st_update o f (with_uuids n s) = with_uuids n (st_update o f s).
Proof. destruct s. unfold st_update. simpl. by case_decide. Qed.

Lemma st_update_with_defs o f d s : st_update o f (with_defs d s) = with_defs d (st_update o f s).
Proof. destruct s. unfold st_update. simpl. by case_decide. Qed.

Lemma st_uuids_update o f s : st_uuids (st_update o f s) = st_uuids s.
Proof. unfold st_update. by case_decide. Qed.

Lemma st_find_with_uuids o n s : st_find o (with_uuids n s) = st_find o s.
Proof. reflexivity. Qed.

Lemma st_find_with_defs o d s : st_find o (with_defs d s) = st_find o s.
Proof. reflexivity. Qed.

Lemma st_find_update_shallow o d f s :
  (forall z, e_oid z = d -> shallow <$> find_elem o (f z) = shallow <$> find_elem o z) ->
  shallow <$> st_find o (st_update d f s) = shallow <$> st_find o s.
Proof. intros Hf. unfold st_find. rewrite st_trees_update. by apply find_in_update_shallow. Qed.

Lemma st_find_update_new o d f s xd y :
  st_find o s = None -> st_find d s = Some xd -> find_elem o (f xd) = Some y ->
  st_find o (st_update d f s) = Some y.
Proof. unfold st_find. rewrite st_trees_update. apply find_in_update_new'. Qed.

(** What is read of the placeholder does not change when the fragment is
    appended to the [defs] element. *)
Lemma st_find_after_append e d t s x :
  st_find e s = Some x -> e ∉ oids t ->
  exists y, st_find e (st_update d (append_kid t) s) = Some y /\ shallow y = shallow x.
Proof.
  intros Hf Ht. assert (shallow <$> st_find e (st_update d (append_kid t) s) = Some (shallow x)) as Hsh.
  { rewrite st_find_update_shallow, Hf; [done|]. intros z _. by apply find_append_kid_shallow. }
  destruct (st_find e (st_update d (append_kid t) s)) as [y|]; [|done]. exists y. split; [done|]. simpl in Hsh. congruence.
Qed.

(** ** Running the methods *)

Section Running.
Context `{Uuid} `{XPathEval}.

Lemma load_elem_found o s y : st_find o s = Some y -> load_elem o s = (s, Ok y).
Proof. intros Hf. unfold load_elem. py_unfold. by rewrite Hf. Qed.

Lemma draw_uuid_run s : draw_uuid s = (with_uuids (S (st_uuids s)) s, Ok (uuid4 (st_uuids s))).
Proof. reflexivity. Qed.

Lemma mutate_run o f s : mutate o f s = (st_update o f s, Ok tt).
Proof. reflexivity. Qed.

Lemma lift_attrib_item k x v s :
  attr_get k (e_attrs x) = Some v -> lift (S:=state) (attrib_item k x) s = (s, Ok v).
Proof. intros Hv. unfold lift, attrib_item. by rewrite Hv. Qed.

Lemma get_defs_some_run s d :
  st_defs s = Some d \/ (st_defs s = None /\ head (defs_query (st_doc s)) = Some d) ->
  get_defs s = (with_defs (Some d) s, Ok (Some d)).
Proof.
  unfold get_defs. py_unfold. intros [Hd|[Hd Hq]]; rewrite Hd.
  - by destruct s; simpl in *; subst.
  - by destruct (defs_query (st_doc s)); simplify_eq/=.
Qed.

(** C20 [get_defs] returns the cached [defs] element, or else the first
    [defs] child of the SVG root, which it caches. *)
Theorem get_defs_some s d :
  st_defs s = Some d \/ (st_defs s = None /\ head (defs_query (st_doc s)) = Some d) ->
  get_defs s = (with_defs (Some d) s, Ok (Some d)).
Proof. apply get_defs_some_run. Qed.

(** A successful resolution only records the element in [_tid_cache]. *)
Lemma get_by_id_Ok tid s s1 e :
  get_by_id tid s = (s1, Ok e) ->
  s1 = with_cache (<[tid := e]> (st_tid_cache s)) s /\ st_tid_cache s1 !! tid = Some e.
Proof.
  unfold get_by_id. py_unfold. destruct (st_tid_cache s !! tid) as [e'|] eqn:Hc.
  - intros [= <- <-]. split; [|done]. destruct s; simpl in *. unfold with_cache. simpl.
    by rewrite insert_id.
  - destruct (id_query tid (st_doc s)) as [[|e' [|]]|]; py_unfold; try discriminate.
    intros [= <- <-]. split; [done|]. apply lookup_insert_eq.
Qed.

Lemma get_defs_absent_file_run s :
  st_defs s = None -> defs_query (st_doc s) = [] -> st_kind s = FromFile ->
  get_defs s = (with_defs None (with_doc (insert_first (Elem (st_next s) DEFS_TAG [] []) (st_doc s))
                                  (with_next (S (st_next s)) s)), Ok None).
Proof. intros Hd Hq Hk. unfold get_defs. py_unfold. by rewrite Hd, Hq, Hk. Qed.

(** C22 With no cached [defs], an [_ElementTree] whose SVG root has no
    [defs] child gets a new empty [defs] element as first child of the
    root, but [get_defs] returns [None] and [_defs] stays [None]: lxml's
    [insert] returns nothing. *)
Theorem get_defs_absent_file s :
  st_defs s = None -> defs_query (st_doc s) = [] -> st_kind s = FromFile ->
  get_defs s = (with_defs None (with_doc (insert_first (Elem (st_next s) DEFS_TAG [] []) (st_doc s))
                                  (with_next (S (st_next s)) s)), Ok None).
Proof. apply get_defs_absent_file_run. Qed.

Lemma get_defs_absent_string_run s :
  st_defs s = None -> defs_query (st_doc s) = [] -> st_kind s = FromString ->
  get_defs s = (s, Raise (AttributeError "'lxml.etree._Element' object has no attribute 'getroot'")).
Proof. intros Hd Hq Hk. unfold get_defs. py_unfold. by rewrite Hd, Hq, Hk. Qed.

(** C21 With no cached [defs], an [_Element] (a document loaded from a
    string) whose root has no [defs] child makes [get_defs] raise
    [AttributeError]: [_Element] has no [getroot]. *)
Theorem get_defs_absent_string s :
  st_defs s = None -> defs_query (st_doc s) = [] -> st_kind s = FromString ->
  get_defs s = (s, Raise (AttributeError "'lxml.etree._Element' object has no attribute 'getroot'")).
Proof. apply get_defs_absent_string_run. Qed.
End Running.

Lemma st_tid_cache_update o f s : st_tid_cache (st_update o f s) = st_tid_cache s.
Proof. unfold st_update. by case_decide. Qed.

Lemma get_defs_some_witness :
  get_defs (fresh_state FromString defs_doc 3)
  = (with_defs (Some 2) (fresh_state FromString defs_doc 3), Ok (Some 2)).
Proof. apply get_defs_some. right. split; reflexivity. Defined.

Lemma get_defs_absent_file_witness :
  get_defs (fresh_state FromFile slot_doc 2)
  = (with_defs None (with_doc (insert_first (Elem 2 DEFS_TAG [] []) slot_doc)
                       (with_next 3 (fresh_state FromFile slot_doc 2))), Ok None).
Proof. apply (get_defs_absent_file (fresh_state FromFile slot_doc 2)); reflexivity. Defined.

Lemma get_defs_absent_string_witness :
  get_defs (fresh_state FromString slot_doc 2)
  = (fresh_state FromString slot_doc 2,
     Raise (AttributeError "'lxml.etree._Element' object has no attribute 'getroot'")).
Proof. apply get_defs_absent_string; reflexivity. Defined.
