(* ===== verification/Replace.v ===== *)
(** * Replace: the placeholder rewriter of [src/svgcomposer/svglue.py]

    [Template.replace_rect_with_etree] (lines 105-134) and the attribute
    loop inside it: the placeholder is resolved, the fragment gets a fresh
    [id] and the placeholder's [height] and [width] and is appended to the
    [defs] element, and the placeholder is turned in place into a [use]
    element that keeps only [x] and [y] and points to the fragment.  The
    theorems give the result in closed form, the size propagation and
    attribute restriction the spec asks for, and every error path. *)

From S2P Require Import Prelude Etree Template.

Section Methods.
Context `{Uuid} `{XPathEval}.

(** *** [replace_rect_with_etree] (lines 105-134) *)

(** [del elem.attrib[k]] *)
Definition del_attrib (o : nat) (k : string) : TplM unit :=
  x <- load_elem o ;;
  match attr_get k (e_attrs x) with
  | Some _ => mutate o (del_attr k)
  | None => raise (KeyError k)
  end.

(** [for attr in keys: if not attr in ALLOWED_ATTRS: del elem.attrib[attr]] *)
Definition strip_attrs (o : nat) (keys : list string) : TplM unit :=
  for_each (fun k => if decide (k ∈ ALLOWED_ATTRS) then ret tt else del_attrib o k) keys.

Definition replace_rect_with_etree (tid : string) (tree : elem) : TplM unit :=
  e <- get_by_id tid ;;
  doc_id <- draw_uuid ;;
  let tree := set_attr "id" doc_id tree in
  x <- load_elem e ;;
  h <- lift (attrib_item "height" x) ;;
  let tree := set_attr "height" h tree in
  x <- load_elem e ;;
  w <- lift (attrib_item "width" x) ;;
  let tree := set_attr "width" w tree in
  d <- get_defs ;;
  match d with
  | None => raise (AttributeError "'NoneType' object has no attribute 'append'")
  | Some d =>
      mutate d (append_kid tree) ;;
      mutate e (set_tag USE_TAG) ;;
      new_id <- draw_uuid ;;
      mutate e (set_attr "id" new_id) ;;
      x <- load_elem e ;;
      strip_attrs e (fst <$> e_attrs x) ;;
      mutate e (set_attr HREF_ATTR ("#" +:+ doc_id))
  end.
End Methods.

(** The former placeholder as the code leaves it: a [use] element with
    attributes [a] and its children unchanged. *)
Definition as_use (a : attrib) (z : elem) : elem := Elem (e_oid z) USE_TAG a (e_kids z).

(** The fragment of the spec's end-to-end example, [<g><circle r='5'/></g>],
    as fresh objects, and the placeholder of [defs_doc]. *)
Definition frag : elem :=
  Elem 10 "{http://www.w3.org/2000/svg}g" [] [Elem 11 "{http://www.w3.org/2000/svg}circle" [("r", "5")] []].

Definition slot_rect : elem :=
  Elem 1 RECT_TAG [("id", "slot"); ("height", "10"); ("width", "10"); ("x", "1"); ("style", "s")] [].

(** The example's state before and after the first lookup of ["slot"]. *)
Definition ex_state : state := fresh_state FromString defs_doc 12.
Definition ex_resolved : state := with_cache {["slot" := 1]} ex_state.

(** A placeholder without size attributes. *)
Definition bare_doc : elem := Elem 0 SVG_TAG [] [Elem 1 RECT_TAG [("id", "slot")] []].

(** ** The attribute loop of [replace_rect_with_etree] *)

Section StripLoop.
Context `{Uuid} `{XPathEval}.

Lemma del_attrib_present o k s y :
  st_find o s = Some y -> k ∈ (fst <$> e_attrs y) ->
  del_attrib o k s = (st_update o (del_attr k) s, Ok tt).
Proof.
  intros Hf Hk. unfold del_attrib. rewrite (bind_Ok _ _ _ _ _ (load_elem_found _ _ _ Hf)).
  by destruct (attr_get_is_Some _ _ Hk) as [v ->].
Qed.

(** The loop over a list [ks] of distinct keys of the element removes exactly
    the keys of [ks] that are not allowed. *)
Lemma strip_attrs_keys o ks s y :
  st_find o s = Some y -> attrib_wf (e_attrs y) -> NoDup ks ->
  (forall k, k ∈ ks -> k ∈ (fst <$> e_attrs y)) ->
  strip_attrs o ks s =
  (st_update o (set_attrs (filter (fun kv => kv.1 ∈ ALLOWED_ATTRS \/ kv.1 ∉ ks) (e_attrs y))) s,
   Ok tt).
Proof.
  revert s y. induction ks as [|k ks IH]; intros s y Hf Hwf Hnd Hks.
  - rewrite filter_all by set_solver. rewrite (st_update_ext _ _ (fun z => z) _ y Hf).
    + by rewrite st_update_id.
    + apply set_attrs_self.
  - apply NoDup_cons in Hnd as [Hk Hnd]. unfold strip_attrs. cbn [for_each].
    case_decide as Ha.
    + cbn [bind ret]. fold (strip_attrs o ks). rewrite (IH s y) by set_solver.
      do 3 f_equal. apply list_filter_iff. intros [k' v']; simpl.
      destruct (decide (k' = k)); set_solver.
    + rewrite (bind_Ok _ _ _ _ _ (del_attrib_present o k s y Hf ltac:(set_solver))).
      fold (strip_attrs o ks).
      rewrite (IH _ (del_attr k y)).
      * rewrite st_update_update by apply e_oid_del_attr.
        f_equal. apply (st_update_ext _ _ _ _ y Hf). simpl.
        rewrite set_attrs_del_attr. do 2 f_equal. destruct y as [i t a kids]; simpl in *.
        rewrite attr_remove_filter, list_filter_filter by done.
        apply list_filter_iff. intros [k' v']; simpl.
        destruct (decide (k' = k)); set_solver.
      * apply st_find_update_eq; [done|apply e_oid_del_attr].
      * destruct y; simpl. by apply attr_remove_wf.
      * done.
      * intros k' Hk'. destruct y as [i t a kids]; simpl in *.
        rewrite attr_remove_filter by done. apply list_elem_of_fmap.
        assert (k' ∈ a.*1) as Hka by (apply Hks; set_solver).
        apply list_elem_of_fmap in Hka as ([k'' v''] & -> & Hin).
        exists (k'', v''). split; [done|].
        apply list_elem_of_filter. split; [simpl; set_solver|done].
Qed.

Lemma strip_attrs_filter_run o s y :
  st_find o s = Some y -> attrib_wf (e_attrs y) ->
  strip_attrs o (fst <$> e_attrs y) s =
  (st_update o (set_attrs (filter (fun kv => kv.1 ∈ ALLOWED_ATTRS) (e_attrs y))) s, Ok tt).
Proof.
  intros Hf Hwf. rewrite (strip_attrs_keys o _ s y) by done.
  do 3 f_equal. apply filter_ext_in. intros [k v] Hin; simpl. split; [|by left].
  intros [?|Hn]; [done|]. exfalso. apply Hn, list_elem_of_fmap. by exists (k, v).
Qed.

(** C10 The loop [for attr in elem.attrib.keys(): if not attr in ALLOWED_ATTRS:
    del elem.attrib[attr]] never raises and leaves exactly the allowed
    attributes, in their order: it equals one filter on the allow-list. *)
Theorem strip_attrs_filter o s y :
  st_find o s = Some y -> attrib_wf (e_attrs y) ->
  strip_attrs o (fst <$> e_attrs y) s =
  (st_update o (set_attrs (filter (fun kv => kv.1 ∈ ALLOWED_ATTRS) (e_attrs y))) s, Ok tt).
Proof. apply strip_attrs_filter_run. Qed.
End StripLoop.

(** ** Replacing a placeholder *)

Section Replace.
Context `{Uuid} `{XPathEval}.

Lemma replace_rect_ok_run tid tree s s1 e x h w d :
  get_by_id tid s = (s1, Ok e) ->
  st_find e s1 = Some x -> attrib_wf (e_attrs x) ->
  attr_get "height" (e_attrs x) = Some h -> attr_get "width" (e_attrs x) = Some w ->
  st_defs s1 = Some d \/ (st_defs s1 = None /\ head (defs_query (st_doc s1)) = Some d) ->
  e ∉ oids tree ->
  replace_rect_with_etree tid tree s =
  (st_update e (as_use (filter (fun kv => kv.1 ∈ ALLOWED_ATTRS) (e_attrs x)
                        ++ [(HREF_ATTR, "#" +:+ uuid4 (st_uuids s1))]))
     (st_update d (append_kid (set_attr "width" w (set_attr "height" h
                                 (set_attr "id" (uuid4 (st_uuids s1)) tree))))
        (with_defs (Some d) (with_uuids (S (S (st_uuids s1))) s1))),
   Ok tt).
Proof.
  intros Hget Hf Hwf Hh Hw Hd Hfresh. unfold replace_rect_with_etree.
  set (u := st_uuids s1).
  py_step Hget. py_step (draw_uuid_run s1).
  py_step (load_elem_found e (with_uuids (S u) s1) x Hf).
  py_step (lift_attrib_item "height" x h (with_uuids (S u) s1) Hh).
  py_step (load_elem_found e (with_uuids (S u) s1) x Hf).
  py_step (lift_attrib_item "width" x w (with_uuids (S u) s1) Hw).
  py_step (get_defs_some_run (with_uuids (S u) s1) d Hd). cbv beta iota.
  set (tree' := set_attr "width" w (set_attr "height" h (set_attr "id" (uuid4 u) tree))).
  set (X := st_update d (append_kid tree') s1).
  destruct (st_find_after_append e d tree' s1 x Hf) as (y4 & Hy4 & Hsh);
    [unfold tree'; by rewrite !oids_set_attr|]. fold X in Hy4.
  assert (e_attrs y4 = e_attrs x) as Ha4 by (by inversion Hsh).
  py_step (mutate_run d _ _). py_step (mutate_run e _ _). py_step (draw_uuid_run _).
  py_step (mutate_run e _ _).
  set (y6 := set_attr "id" (uuid4 (S u)) (set_tag USE_TAG y4)).
  assert (attrib_wf (e_attrs y6)) as Hwf6.
  { unfold y6. destruct y4; simpl in *. subst. by apply attr_set_wf. }
  rewrite !st_uuids_update. simpl.
  repeat rewrite ?st_update_with_defs, ?st_update_with_uuids. fold u tree' X.
  set (S5 := st_update e (set_attr "id" (uuid4 (S u))) (st_update e (set_tag USE_TAG) X)).
  assert (st_find e S5 = Some y6) as Hy6.
  { unfold S5, y6. apply st_find_update_eq; [|auto with svg].
    apply st_find_update_eq; auto with svg. }
  py_step (load_elem_found e (with_uuids (S (S u)) (with_defs (Some d) (with_uuids (S u) S5))) y6 Hy6).
  py_step (strip_attrs_filter_run e (with_uuids (S (S u)) (with_defs (Some d) (with_uuids (S u) S5))) y6 Hy6 Hwf6).
  rewrite mutate_run. f_equal.
  repeat rewrite ?st_update_with_defs, ?st_update_with_uuids. unfold S5.
  rewrite !st_update_update by auto with svg.
  rewrite (st_update_ext e _ (as_use (filter (fun kv => kv.1 ∈ ALLOWED_ATTRS) (e_attrs x)
                                        ++ [(HREF_ATTR, "#" +:+ uuid4 u)])) X y4 Hy4).
  - by destruct (st_update e _ X).
  - unfold y6 in *. destruct y4 as [i t a ks]; simpl in *. subst a.
    rewrite filter_attr_set_drop by (unfold ALLOWED_ATTRS; set_solver).
    rewrite attr_set_fresh; [done|].
    intros (kv & Hkv & Hin)%list_elem_of_fmap. apply list_elem_of_filter in Hin as [Hk _].
    rewrite <- Hkv in Hk. unfold ALLOWED_ATTRS, HREF_ATTR in Hk. set_solver.
Qed.

(** C1 A successful replacement, in closed form: the fragment, given the
    fresh id [uuid4 u] and the placeholder's [height] and [width], is
    appended to the [defs] element; the placeholder becomes a [use] element
    whose attributes are its allowed ones ([x], [y]) followed by the
    reference to the fragment; its children and position are kept; two
    identifiers are drawn. *)
Theorem replace_rect_ok tid tree s s1 e x h w d :
  get_by_id tid s = (s1, Ok e) ->
  st_find e s1 = Some x -> attrib_wf (e_attrs x) ->
  attr_get "height" (e_attrs x) = Some h -> attr_get "width" (e_attrs x) = Some w ->
  st_defs s1 = Some d \/ (st_defs s1 = None /\ head (defs_query (st_doc s1)) = Some d) ->
  e ∉ oids tree ->
  replace_rect_with_etree tid tree s =
  (st_update e (as_use (filter (fun kv => kv.1 ∈ ALLOWED_ATTRS) (e_attrs x)
                        ++ [(HREF_ATTR, "#" +:+ uuid4 (st_uuids s1))]))
     (st_update d (append_kid (set_attr "width" w (set_attr "height" h
                                 (set_attr "id" (uuid4 (st_uuids s1)) tree))))
        (with_defs (Some d) (with_uuids (S (S (st_uuids s1))) s1))),
   Ok tt).
Proof. apply replace_rect_ok_run. Qed.
End Replace.

(** ** What a replacement leaves behind, and its errors *)

Lemma find_as_use_other o a z : o <> e_oid z -> find_elem o (as_use a z) = find_elem o z.
Proof. destruct z as [i t a' ks]; simpl. intros Ho. by rewrite !decide_False. Qed.

(** The attributes of the [use] element hold nothing but [x], [y] and the
    reference. *)
Lemma use_attrs_other k a v :
  k ∉ ALLOWED_ATTRS -> k <> HREF_ATTR ->
  attr_get k (filter (fun kv => kv.1 ∈ ALLOWED_ATTRS) a ++ [(HREF_ATTR, v)]) = None.
Proof.
  intros Hk Hh. rewrite attr_get_app, attr_get_filter_None by naive_solver.
  simpl. by rewrite decide_False.
Qed.

Section Corollaries.
Context `{Uuid} `{XPathEval}.

Lemma lift_attrib_item_None k x s :
  attr_get k (e_attrs x) = None -> lift (S:=state) (attrib_item k x) s = (s, Raise (KeyError k)).
Proof. intros Hv. unfold lift, attrib_item. by rewrite Hv. Qed.

Lemma replace_attr_restriction_run tid tree s s1 s' e x h w d :
  get_by_id tid s = (s1, Ok e) ->
  st_find e s1 = Some x -> attrib_wf (e_attrs x) ->
  attr_get "height" (e_attrs x) = Some h -> attr_get "width" (e_attrs x) = Some w ->
  st_defs s1 = Some d \/ (st_defs s1 = None /\ head (defs_query (st_doc s1)) = Some d) ->
  e ∉ oids tree ->
  replace_rect_with_etree tid tree s = (s', Ok tt) ->
  exists y, st_find e s' = Some y /\ e_tag y = USE_TAG /\
    e_attrs y = filter (fun kv => kv.1 ∈ ALLOWED_ATTRS) (e_attrs x)
                ++ [(HREF_ATTR, "#" +:+ uuid4 (st_uuids s1))].
Proof.
  intros Hget Hf Hwf Hh Hw Hd Hfresh Hrun.
  rewrite (replace_rect_ok_run tid tree s s1 e x h w d) in Hrun by done. injection Hrun as <-.
  set (tree' := set_attr "width" w (set_attr "height" h (set_attr "id" (uuid4 (st_uuids s1)) tree))).
  destruct (st_find_after_append e d tree' (with_defs (Some d) (with_uuids (S (S (st_uuids s1))) s1))
              x Hf) as (y4 & Hy4 & _); [unfold tree'; by rewrite !oids_set_attr|].
  eexists. split; [apply st_find_update_eq; [exact Hy4|by intros []]|done].
Qed.

(** C9 Attribute restriction: after a successful replacement the former
    placeholder is a [use] element whose attributes are exactly its original
    [x] and [y] (in their order) and the reference to the fragment. *)
Theorem replace_attr_restriction tid tree s s1 s' e x h w d :
  get_by_id tid s = (s1, Ok e) ->
  st_find e s1 = Some x -> attrib_wf (e_attrs x) ->
  attr_get "height" (e_attrs x) = Some h -> attr_get "width" (e_attrs x) = Some w ->
  st_defs s1 = Some d \/ (st_defs s1 = None /\ head (defs_query (st_doc s1)) = Some d) ->
  e ∉ oids tree ->
  replace_rect_with_etree tid tree s = (s', Ok tt) ->
  exists y, st_find e s' = Some y /\ e_tag y = USE_TAG /\
    e_attrs y = filter (fun kv => kv.1 ∈ ALLOWED_ATTRS) (e_attrs x)
                ++ [(HREF_ATTR, "#" +:+ uuid4 (st_uuids s1))].
Proof. apply replace_attr_restriction_run. Qed.

Lemma replace_ref_has_no_id_run tid tree s s1 s' e x h w d :
  get_by_id tid s = (s1, Ok e) ->
  st_find e s1 = Some x -> attrib_wf (e_attrs x) ->
  attr_get "height" (e_attrs x) = Some h -> attr_get "width" (e_attrs x) = Some w ->
  st_defs s1 = Some d \/ (st_defs s1 = None /\ head (defs_query (st_doc s1)) = Some d) ->
  e ∉ oids tree ->
  replace_rect_with_etree tid tree s = (s', Ok tt) ->
  exists y, st_find e s' = Some y /\ attr_get "id" (e_attrs y) = None /\
    attr_get "height" (e_attrs y) = None /\ attr_get "width" (e_attrs y) = None.
Proof.
  intros Hget Hf Hwf Hh Hw Hd Hfresh Hrun.
  destruct (replace_attr_restriction_run tid tree s s1 s' e x h w d) as (y & Hy & _ & Ha); [done..|].
  exists y. rewrite Ha. unfold ALLOWED_ATTRS, HREF_ATTR.
  split; [done|]. split_and!; apply use_attrs_other; set_solver.
Qed.

(** C19 Divergence from the spec: the [use] element keeps no [id] (the
    fresh [new_id] is set and then deleted by the allow-list loop), and it
    carries neither [height] nor [width]. *)
Theorem replace_ref_has_no_id tid tree s s1 s' e x h w d :
  get_by_id tid s = (s1, Ok e) ->
  st_find e s1 = Some x -> attrib_wf (e_attrs x) ->
  attr_get "height" (e_attrs x) = Some h -> attr_get "width" (e_attrs x) = Some w ->
  st_defs s1 = Some d \/ (st_defs s1 = None /\ head (defs_query (st_doc s1)) = Some d) ->
  e ∉ oids tree ->
  replace_rect_with_etree tid tree s = (s', Ok tt) ->
  exists y, st_find e s' = Some y /\ attr_get "id" (e_attrs y) = None /\
    attr_get "height" (e_attrs y) = None /\ attr_get "width" (e_attrs y) = None.
Proof. apply replace_ref_has_no_id_run. Qed.

(** C8 Size propagation: after a successful replacement, the fragment's
    root object carries the fresh [id] and the placeholder's [height] and
    [width]. *)
Theorem replace_size_propagation tid tree s s1 s' e x h w d xd :
  get_by_id tid s = (s1, Ok e) ->
  st_find e s1 = Some x -> attrib_wf (e_attrs x) ->
  attr_get "height" (e_attrs x) = Some h -> attr_get "width" (e_attrs x) = Some w ->
  st_defs s1 = Some d \/ (st_defs s1 = None /\ head (defs_query (st_doc s1)) = Some d) ->
  st_find d s1 = Some xd -> e ∉ oids tree -> e_oid tree ∉ st_oids s1 ->
  replace_rect_with_etree tid tree s = (s', Ok tt) ->
  exists fr, st_find (e_oid tree) s' = Some fr /\
    attr_get "height" (e_attrs fr) = Some h /\ attr_get "width" (e_attrs fr) = Some w /\
    attr_get "id" (e_attrs fr) = Some (uuid4 (st_uuids s1)).
Proof.
  intros Hget Hf Hwf Hh Hw Hd Hxd Hfresh Hnew Hrun.
  rewrite (replace_rect_ok_run tid tree s s1 e x h w d) in Hrun by done. injection Hrun as Hs'.
  set (u := st_uuids s1). set (o := e_oid tree).
  set (tree' := set_attr "width" w (set_attr "height" h (set_attr "id" (uuid4 u) tree))).
  set (S0 := with_defs (Some d) (with_uuids (S (S u)) s1)).
  assert (st_find o S0 = None) as Ho.
  { apply find_in_None. intros t Ht Hin. apply Hnew, list_elem_of_bind. eauto. }
  assert (o ∉ oids xd) as Hoxd.
  { intros Hin. destruct (find_in_oids_sub d _ xd o Hxd Hin) as (t & Ht & Hot).
    apply Hnew, list_elem_of_bind. eauto. }
  assert (st_find o (st_update d (append_kid tree') S0) = Some tree') as Hy.
  { eapply st_find_update_new; [exact Ho|exact Hxd|].
    replace o with (e_oid tree') by (unfold tree'; destruct tree; done).
    apply find_append_kid_new. unfold tree'. by destruct tree. }
  assert (e <> o) as Heo.
  { intros ->. apply Hfresh. unfold o. destruct tree. rewrite elem_of_oids_Elem. by left. }
  assert (shallow <$> st_find o s' = Some (shallow tree')) as Hsh.
  { rewrite <- Hs'. transitivity (shallow <$> st_find o (st_update d (append_kid tree') S0));
      [|by rewrite Hy]. apply st_find_update_shallow. intros z Hz.
    rewrite find_as_use_other; [done|congruence]. }
  destruct (st_find o s') as [fr|]; [|done]. exists fr. split; [done|].
  simpl in Hsh. injection Hsh as _ _ ->. unfold tree'. destruct tree as [i t a ks]. simpl.
  rewrite !attr_get_set_eq, attr_get_set_ne, attr_get_set_eq by done.
  rewrite !attr_get_set_ne, attr_get_set_eq by done. done.
Qed.

Lemma replace_missing_height_run tid tree s s1 e x :
  get_by_id tid s = (s1, Ok e) -> st_find e s1 = Some x ->
  attr_get "height" (e_attrs x) = None ->
  replace_rect_with_etree tid tree s = (with_uuids (S (st_uuids s1)) s1, Raise (KeyError "height")).
Proof.
  intros Hget Hf Hh. unfold replace_rect_with_etree.
  py_step Hget. py_step (draw_uuid_run s1).
  py_step (load_elem_found e (with_uuids (S (st_uuids s1)) s1) x Hf).
  py_step (lift_attrib_item_None "height" x (with_uuids (S (st_uuids s1)) s1) Hh). done.
Qed.

(** C28 A placeholder without [height] makes the replacement raise
    [KeyError('height')] after one identifier has been drawn; the document
    is untouched. *)
Theorem replace_missing_height tid tree s s1 e x :
  get_by_id tid s = (s1, Ok e) -> st_find e s1 = Some x ->
  attr_get "height" (e_attrs x) = None ->
  replace_rect_with_etree tid tree s = (with_uuids (S (st_uuids s1)) s1, Raise (KeyError "height")).
Proof. apply replace_missing_height_run. Qed.

Lemma replace_no_defs_string_run tid tree s s1 e x h w :
  get_by_id tid s = (s1, Ok e) -> st_find e s1 = Some x ->
  attr_get "height" (e_attrs x) = Some h -> attr_get "width" (e_attrs x) = Some w ->
  st_defs s1 = None -> defs_query (st_doc s1) = [] -> st_kind s1 = FromString ->
  replace_rect_with_etree tid tree s =
  (with_uuids (S (st_uuids s1)) s1,
   Raise (AttributeError "'lxml.etree._Element' object has no attribute 'getroot'")).
Proof.
  intros Hget Hf Hh Hw Hd Hq Hk. unfold replace_rect_with_etree.
  set (s2 := with_uuids (S (st_uuids s1)) s1).
  py_step Hget. py_step (draw_uuid_run s1).
  py_step (load_elem_found e s2 x Hf). py_step (lift_attrib_item "height" x h s2 Hh).
  py_step (load_elem_found e s2 x Hf). py_step (lift_attrib_item "width" x w s2 Hw).
  py_step (get_defs_absent_string_run s2 Hd Hq Hk). done.
Qed.

(** C23 Code bug: in a document loaded from a string ([_Element]) whose SVG
    root has no [defs] child, every replacement of a well-formed
    placeholder raises [AttributeError]. *)
Theorem replace_no_defs_string tid tree s s1 e x h w :
  get_by_id tid s = (s1, Ok e) -> st_find e s1 = Some x ->
  attr_get "height" (e_attrs x) = Some h -> attr_get "width" (e_attrs x) = Some w ->
  st_defs s1 = None -> defs_query (st_doc s1) = [] -> st_kind s1 = FromString ->
  replace_rect_with_etree tid tree s =
  (with_uuids (S (st_uuids s1)) s1,
   Raise (AttributeError "'lxml.etree._Element' object has no attribute 'getroot'")).
Proof. apply replace_no_defs_string_run. Qed.

(** C24 Code bug: in a document loaded from a file ([_ElementTree]) whose
    SVG root has no [defs] child, [get_defs] inserts a [defs] element but
    returns [None], and the replacement raises [AttributeError] on
    [None.append]; the new [defs] element stays in the document. *)
Theorem replace_no_defs_file tid tree s s1 e x h w :
  get_by_id tid s = (s1, Ok e) -> st_find e s1 = Some x ->
  attr_get "height" (e_attrs x) = Some h -> attr_get "width" (e_attrs x) = Some w ->
  st_defs s1 = None -> defs_query (st_doc s1) = [] -> st_kind s1 = FromFile ->
  replace_rect_with_etree tid tree s =
  (with_defs None (with_doc (insert_first (Elem (st_next s1) DEFS_TAG [] []) (st_doc s1))
                    (with_next (S (st_next s1)) (with_uuids (S (st_uuids s1)) s1))),
   Raise (AttributeError "'NoneType' object has no attribute 'append'")).
Proof.
  intros Hget Hf Hh Hw Hd Hq Hk. unfold replace_rect_with_etree.
  set (s2 := with_uuids (S (st_uuids s1)) s1).
  py_step Hget. py_step (draw_uuid_run s1).
  py_step (load_elem_found e s2 x Hf). py_step (lift_attrib_item "height" x h s2 Hh).
  py_step (load_elem_found e s2 x Hf). py_step (lift_attrib_item "width" x w s2 Hw).
  py_step (get_defs_absent_file_run s2 Hd Hq Hk). done.
Qed.

(** C27 Stale cache: [_tid_cache] still maps the identifier to the element
    that is now a [use] without [id]; replacing the same identifier again
    does not report an unknown identifier but raises [KeyError('height')]. *)
Theorem replace_twice_stale tid tree tree2 s s1 s' e x h w d :
  get_by_id tid s = (s1, Ok e) ->
  st_find e s1 = Some x -> attrib_wf (e_attrs x) ->
  attr_get "height" (e_attrs x) = Some h -> attr_get "width" (e_attrs x) = Some w ->
  st_defs s1 = Some d \/ (st_defs s1 = None /\ head (defs_query (st_doc s1)) = Some d) ->
  e ∉ oids tree ->
  replace_rect_with_etree tid tree s = (s', Ok tt) ->
  replace_rect_with_etree tid tree2 s' = (with_uuids (S (st_uuids s')) s', Raise (KeyError "height")).
Proof.
  intros Hget Hf Hwf Hh Hw Hd Hfresh Hrun.
  destruct (replace_ref_has_no_id_run tid tree s s1 s' e x h w d) as (y & Hy & _ & Hyh & _); [done..|].
  apply (replace_missing_height_run tid tree2 s' s' e y); [|done|done].
  apply get_by_id_cached_run.
  rewrite (replace_rect_ok_run tid tree s s1 e x h w d) in Hrun by done. injection Hrun as <-.
  apply get_by_id_Ok in Hget as [_ Hc].
  rewrite !st_tid_cache_update. exact Hc.
Qed.
End Corollaries.

(** ** The theorems on the example of the spec *)

Lemma strip_attrs_filter_witness :
  strip_attrs 1 (fst <$> e_attrs slot_rect) ex_state
  = (st_update 1 (set_attrs [("x", "1")]) ex_state, Ok tt).
Proof. apply (strip_attrs_filter 1 ex_state slot_rect); by_eval. Defined.

Lemma replace_rect_ok_witness :
  exists s', replace_rect_with_etree "slot" frag ex_state = (s', Ok tt).
Proof.
  eexists. apply (replace_rect_ok "slot" frag ex_state ex_resolved 1 slot_rect "10" "10" 2);
    [by_eval|by_eval|by_eval|by_eval|by_eval|right; split; by_eval|by_eval].
Defined.

Lemma replace_attr_restriction_witness :
  exists y, st_find 1 (replace_rect_with_etree "slot" frag ex_state).1 = Some y /\
    e_tag y = USE_TAG /\
    e_attrs y = filter (fun kv => kv.1 ∈ ALLOWED_ATTRS) (e_attrs slot_rect)
                ++ [(HREF_ATTR, "#" +:+ uuid4 (st_uuids ex_resolved))].
Proof.
  apply (replace_attr_restriction "slot" frag ex_state ex_resolved (replace_rect_with_etree "slot" frag ex_state).1 1 slot_rect "10" "10" 2);
    [by_eval|by_eval|by_eval|by_eval|by_eval|right; split; by_eval|by_eval|by_eval].
Defined.

Lemma replace_ref_has_no_id_witness :
  exists y, st_find 1 (replace_rect_with_etree "slot" frag ex_state).1 = Some y /\
    attr_get "id" (e_attrs y) = None /\ attr_get "height" (e_attrs y) = None /\
    attr_get "width" (e_attrs y) = None.
Proof.
  apply (replace_ref_has_no_id "slot" frag ex_state ex_resolved (replace_rect_with_etree "slot" frag ex_state).1 1 slot_rect "10" "10" 2);
    [by_eval|by_eval|by_eval|by_eval|by_eval|right; split; by_eval|by_eval|by_eval].
Defined.

Lemma replace_size_propagation_witness :
  exists fr, st_find 10 (replace_rect_with_etree "slot" frag ex_state).1 = Some fr /\
    attr_get "height" (e_attrs fr) = Some "10" /\ attr_get "width" (e_attrs fr) = Some "10" /\
    attr_get "id" (e_attrs fr) = Some (uuid4 (st_uuids ex_resolved)).
Proof.
  apply (replace_size_propagation "slot" frag ex_state ex_resolved (replace_rect_with_etree "slot" frag ex_state).1 1 slot_rect "10" "10" 2
           (Elem 2 DEFS_TAG [] []));
    [by_eval|by_eval|by_eval|by_eval|by_eval|right; split; by_eval|by_eval|by_eval|by_eval|by_eval].
Defined.

Lemma replace_missing_height_witness :
  replace_rect_with_etree "slot" frag (fresh_state FromString bare_doc 12)
  = (with_uuids 1 (with_cache {["slot" := 1]} (fresh_state FromString bare_doc 12)),
     Raise (KeyError "height")).
Proof.
  apply (replace_missing_height "slot" frag (fresh_state FromString bare_doc 12)
           (with_cache {["slot" := 1]} (fresh_state FromString bare_doc 12)) 1
           (Elem 1 RECT_TAG [("id", "slot")] [])); by_eval.
Defined.

Lemma replace_no_defs_string_witness :
  replace_rect_with_etree "slot" frag (fresh_state FromString slot_doc 12)
  = (with_uuids 1 (with_cache {["slot" := 1]} (fresh_state FromString slot_doc 12)),
     Raise (AttributeError "'lxml.etree._Element' object has no attribute 'getroot'")).
Proof.
  apply (replace_no_defs_string "slot" frag (fresh_state FromString slot_doc 12)
           (with_cache {["slot" := 1]} (fresh_state FromString slot_doc 12)) 1 slot_rect "10" "10");
    by_eval.
Defined.

Lemma replace_no_defs_file_witness :
  exists s', replace_rect_with_etree "slot" frag (fresh_state FromFile slot_doc 12)
  = (s', Raise (AttributeError "'NoneType' object has no attribute 'append'")).
Proof.
  eexists. apply (replace_no_defs_file "slot" frag (fresh_state FromFile slot_doc 12)
                   (with_cache {["slot" := 1]} (fresh_state FromFile slot_doc 12)) 1 slot_rect "10" "10");
    by_eval.
Defined.

Lemma replace_twice_stale_witness :
  replace_rect_with_etree "slot" frag (replace_rect_with_etree "slot" frag ex_state).1
  = (with_uuids (S (st_uuids (replace_rect_with_etree "slot" frag ex_state).1))
       (replace_rect_with_etree "slot" frag ex_state).1, Raise (KeyError "height")).
Proof.
  apply (replace_twice_stale "slot" frag frag ex_state ex_resolved (replace_rect_with_etree "slot" frag ex_state).1 1 slot_rect "10" "10" 2);
    [by_eval|by_eval|by_eval|by_eval|by_eval|right; split; by_eval|by_eval|by_eval].
Defined.
