(* ===== verification/Layout.v ===== *)
(** * Layout: [Template.expunge_layout_elements] of [src/svgcomposer/svglue.py]

    Lines 136-145: the xpath query [//*[@inkscape:label='layout']], the
    dictionary [parent_map] from each match to its parent (computed before
    any removal), and the loop [parent_map[elem].remove(elem)].  A removed
    element is detached from its parent but stays a live object: it goes to
    the detached subtrees of the state, where a later removal may still
    find its own children. *)

From S2P Require Import Prelude Etree Template.

(** [{http://www.inkscape.org/namespaces/inkscape}label] *)
Definition LABEL_ATTR : string := "{" +:+ INKSCAPE_NS +:+ "}label".

(** [@inkscape:label='layout'] *)
Definition is_layout (x : elem) : Prop := attr_get LABEL_ATTR (e_attrs x) = Some "layout".

#[export] Instance is_layout_dec x : Decision (is_layout x).
Proof. unfold is_layout. apply _. Defined.

(** [self._doc.xpath("//*[@inkscape:label='layout']", ...)]: the marked
    elements of the document, in document order. *)
Definition layout_query (root : elem) : list nat := e_oid <$> filter is_layout (preorder root).

(** [elem.getparent()] for the first element with identity [o] in document
    order: [None] for the root. *)
Fixpoint parent_of (o : nat) (e : elem) : option nat :=
  match e with
  | Elem i _ _ ks =>
      if decide (i = o) then None
      else first_some ((fun k => if decide (e_oid k = o) then Some i else parent_of o k) <$> ks)
  end.

(** The child of [x] with identity [c]. *)
Definition child_of (c : nat) (x : elem) : option elem :=
  first_some ((fun k => if decide (e_oid k = c) then Some k else None) <$> e_kids x).

Section Expunge.
Context `{Uuid} `{XPathEval}.

(** [parent.remove(elem)]: lxml raises [ValueError] when [elem] is not a
    child; otherwise the child is detached and lives on as its own tree. *)
Definition remove_child (p c : nat) : TplM unit :=
  x <- load_elem p ;;
  match child_of c x with
  | Some k =>
      mutate p (remove_kid c) ;;
      modify (fun s => with_loose (st_loose s ++ [k]) s)
  | None => raise (ValueError "Element is not a child of this node.")
  end.

Definition expunge_layout_elements : TplM unit :=
  s <- get ;;
  let layout_elements := layout_query (st_doc s) in
  let parent_map := (fun o => (o, parent_of o (st_doc s))) <$> layout_elements in
  for_each (fun op =>
              match op.2 with
              | Some p => remove_child p op.1
              | None => raise (AttributeError "'NoneType' object has no attribute 'remove'")
              end) parent_map.
End Expunge.

(** A document whose root is itself a layout guide. *)
Definition guide_root_doc : elem :=
  Elem 0 SVG_TAG [(LABEL_ATTR, "layout")] [Elem 1 RECT_TAG [("id", "slot")] []].

(** ** Theorems *)

Section ExpungeTheorems.
Context `{Uuid} `{XPathEval}.

Lemma layout_query_Elem i t a ks :
  layout_query (Elem i t a ks) =
  (if decide (is_layout (Elem i t a ks)) then [i] else []) ++ (ks ≫= layout_query).
Proof.
  assert (Hb : e_oid <$> filter is_layout (ks ≫= preorder) = ks ≫= layout_query).
  { induction ks as [|k ks IH]; [done|].
    rewrite !bind_cons, filter_app, fmap_app, IH. done. }
  unfold layout_query at 1. cbn [preorder]. rewrite filter_cons.
  case_decide; rewrite ?fmap_cons, Hb; done.
Qed.

Lemma child_of_Some c x k : child_of c x = Some k -> k ∈ e_kids x /\ e_oid k = c.
Proof.
  unfold child_of. intros Hk. apply first_some_Some, list_elem_of_fmap in Hk as (k' & Hk' & Hin).
  case_decide; [|done]. injection Hk' as <-. done.
Qed.

Lemma parent_of_in o e p : parent_of o e = Some p -> p ∈ oids e.
Proof.
  induction e as [i t a ks IH] using elem_ind. simpl. case_decide; [done|].
  intros Hp. apply first_some_Some, list_elem_of_fmap in Hp as (k & Hk & Hin).
  rewrite elem_of_oids_Elem. case_decide.
  - injection Hk as ->. by left.
  - right. exists k. split; [done|]. rewrite Forall_forall in IH. by apply IH.
Qed.

(** C29 A marked root element has no parent: the first iteration raises
    [AttributeError] on [None.remove] before anything is removed. *)
Theorem expunge_marked_root s :
  is_layout (st_doc s) ->
  expunge_layout_elements s = (s, Raise (AttributeError "'NoneType' object has no attribute 'remove'")).
Proof.
  intros Hl. unfold expunge_layout_elements. py_unfold.
  destruct (st_doc s) as [i t a ks]. rewrite layout_query_Elem, decide_True by done.
  cbn. by rewrite decide_True.
Qed.

(** Without marked elements the pruning step changes nothing, whatever
    the identities ([Prune.expunge_prunes] needs them distinct). *)
Theorem expunge_no_layout s :
  Forall (fun x => ~ is_layout x) (preorder (st_doc s)) ->
  expunge_layout_elements s = (s, Ok tt).
Proof.
  intros Hn. unfold expunge_layout_elements. py_unfold.
  unfold layout_query. rewrite filter_none; [done|]. by apply Forall_forall.
Qed.
End ExpungeTheorems.

Lemma expunge_marked_root_witness :
  expunge_layout_elements (fresh_state FromString guide_root_doc 2)
  = (fresh_state FromString guide_root_doc 2,
     Raise (AttributeError "'NoneType' object has no attribute 'remove'")).
Proof. apply expunge_marked_root. by_eval. Defined.

Lemma expunge_no_layout_witness :
  expunge_layout_elements (fresh_state FromString slot_doc 2)
  = (fresh_state FromString slot_doc 2, Ok tt).
Proof. apply expunge_no_layout. by_eval. Defined.
