(* ===== verification/Render.v ===== *)
(** * Render: loading, the fragment wrappers, serialisation and the batch

    [Template.load] (svglue.py lines 45-50), [__init__] (68-71), the
    wrappers [replace_rect_with_svg_string] and
    [replace_rect_with_svg_bytes] (99-103), [tostring] and [__str__]
    (147-151) and
    [Template.render_svg_string] (52-66).  lxml's parser and serialiser and
    the file system are interfaces ([XmlCodec], [FileSystem]): the code
    only calls them.  The theorems give the batch's result on its paths:
    the document is parsed and printed back when nothing is replaced,
    replacements run in the order of the dictionary and the first failure
    ends the batch, and a missing input raises [TypeError]. *)

From S2P Require Import Prelude Etree Xml Template Replace Layout.

(** [etree.fromstring] / [etree.parse] ([None]: the input is not
    well-formed and lxml raises [XMLSyntaxError]) and
    [etree.tostring(..., encoding=str)]. *)
Class XmlCodec := {
  parse_xml : string -> option xml;
  serialize : xml -> string
}.

(** The contents of the file [etree.parse] opens ([None]: it cannot be
    read, and lxml raises [OSError]). *)
Class FileSystem := {
  read_file : string -> option string
}.

Section Methods.
Context `{Uuid} `{XPathEval} `{XmlCodec} `{FileSystem}.

(** New Python objects for a parsed tree. *)
Definition new_tree (x : xml) : TplM elem :=
  fun s => let '(e, n) := alloc (st_next s) x in (with_next n s, Ok e).

(** [etree.fromstring(src)] *)
Definition fromstring (src : string) : TplM elem :=
  match parse_xml src with
  | Some x => new_tree x
  | None => raise XMLSyntaxError
  end.

(** [cls(doc)]: [__init__] sets [_doc], an empty [_tid_cache] and
    [_defs = None]; the process state (uuid draws, object identities) is
    kept. *)
Definition init (k : doc_kind) (doc : elem) : TplM unit :=
  modify (fun s => mk_state k doc [] ∅ None (st_uuids s) (st_next s)).

(** [cls(etree.parse(file))]; lxml rejects [file=None] with a [TypeError]. *)
Definition load_file (file : option string) : TplM unit :=
  match file with
  | None => raise (TypeError "cannot parse from 'NoneType'")
  | Some f =>
      match read_file f with
      | Some txt => r <- fromstring txt ;; init FromFile r
      | None => raise (OSError ("Error reading file '" +:+ f +:+ "'"))
      end
  end.

(** [if src: ... else ...]: a Python string is true when it is not empty. *)
Definition load (src file : option string) : TplM unit :=
  match src with
  | Some txt =>
      if decide (txt = "") then load_file file
      else r <- fromstring txt ;; init FromString r
  | None => load_file file
  end.

(** [replace_rect_with_svg_bytes]: the fragment is parsed before the
    placeholder is looked up. *)
Definition replace_rect_with_svg_bytes (tid svg_bytes : string) : TplM unit :=
  tree <- fromstring svg_bytes ;;
  replace_rect_with_etree tid tree.

(** [replace_rect_with_svg_string]: [encode("utf-8")] is the identity on
    the modelled strings. *)
Definition replace_rect_with_svg_string (tid svg : string) : TplM unit :=
  replace_rect_with_svg_bytes tid svg.

Definition tostring : TplM string :=
  s <- get ;;
  ret (serialize (erase (st_doc s))).

(** [Template.__str__] *)
Definition __str__ : TplM string := tostring.

(** [render_svg_string]: the dictionary [replacements] as its items in
    iteration order ([None] and [{}] are both the empty list). *)
Definition render_svg_string (src file : option string) (replacements : list (string * string))
    (clean_layout_elements : bool) : TplM string :=
  load src file ;;
  for_each (fun r => replace_rect_with_svg_string r.1 r.2) replacements ;;
  (if clean_layout_elements then expunge_layout_elements else ret tt) ;;
  tostring.

End Methods.

(** The state [__init__] leaves after loading the tree [x]: fresh objects
    numbered from [st_next s]. *)
Definition loaded (k : doc_kind) (x : xml) (s : state) : state :=
  mk_state k (alloc (st_next s) x).1 [] ∅ None (st_uuids s) (alloc (st_next s) x).2.

(** ** Concrete collaborators *)

#[export] Instance xml_codec : XmlCodec := {| parse_xml := parse_doc; serialize := print_xml |}.

(** A file system holding one file. *)
Definition one_file (path txt : string) : FileSystem :=
  {| read_file q := if decide (q = path) then Some txt else None |}.

(** The spec's end-to-end example, with single-quoted attribute values. *)
Definition spec_src : string := "<svg><rect id='slot' height='10' width='10'/></svg>".
Definition spec_frag : string := "<g><circle r='5'/></g>".

#[export] Instance example_files : FileSystem := one_file "template.svg" spec_src.

Definition frag_tree : xml := XElem "g" [] [XElem "circle" [("r", "5")] []].

(** ** Theorems *)

Section Running.
Context `{Uuid} `{XPathEval} `{XmlCodec} `{FileSystem}.

Lemma fromstring_run txt x s :
  parse_xml txt = Some x ->
  fromstring txt s = (with_next (alloc (st_next s) x).2 s, Ok (alloc (st_next s) x).1).
Proof. intros Hp. unfold fromstring, new_tree. rewrite Hp. by destruct (alloc _ x). Qed.

Lemma load_string_run txt file x s :
  txt <> "" -> parse_xml txt = Some x -> load (Some txt) file s = (loaded FromString x s, Ok tt).
Proof.
  intros Hne Hp. unfold load. rewrite decide_False by done.
  py_step (fromstring_run txt x s Hp). done.
Qed.

Lemma load_file_run f txt x s :
  read_file f = Some txt -> parse_xml txt = Some x -> load_file (Some f) s = (loaded FromFile x s, Ok tt).
Proof.
  intros Hr Hp. unfold load_file. rewrite Hr.
  py_step (fromstring_run txt x s Hp). done.
Qed.

Lemma load_missing src s :
  src = None \/ src = Some "" ->
  load src None s = (s, Raise (TypeError "cannot parse from 'NoneType'")).
Proof. intros [-> | ->]; [done|]. unfold load. by rewrite decide_True. Qed.

(** C33 Missing input: with neither a non-empty source string nor a file,
    the batch raises [TypeError] before anything else happens. *)
Theorem render_missing_input src reps clean s :
  src = None \/ src = Some "" ->
  render_svg_string src None reps clean s = (s, Raise (TypeError "cannot parse from 'NoneType'")).
Proof. intros Hs. unfold render_svg_string. by py_step (load_missing src s Hs). Qed.

(** C31 With no replacement and no pruning, the batch prints back the tree
    the parser read: loading and serialising lose nothing of the tree. *)
Theorem render_identity txt file x s :
  txt <> "" -> parse_xml txt = Some x ->
  render_svg_string (Some txt) file [] false s = (loaded FromString x s, Ok (serialize x)).
Proof.
  intros Hne Hp. unfold render_svg_string.
  py_step (load_string_run txt file x s Hne Hp). unfold tostring. py_unfold.
  cbn [loaded st_doc]. by rewrite erase_alloc.
Qed.

Lemma render_first_failure_run src file r rs clean s s1 s2 e :
  load src file s = (s1, Ok tt) ->
  replace_rect_with_svg_string r.1 r.2 s1 = (s2, Raise e) ->
  render_svg_string src file (r :: rs) clean s = (s2, Raise e).
Proof.
  intros Hl Hr. unfold render_svg_string. py_step Hl. cbn [for_each].
  rewrite bind_assoc. by py_step Hr.
Qed.


(** C25 Code bug: the spec's end-to-end example fails.  Its template
    [<svg><rect id="slot" height="10" width="10"/></svg>] has no namespace
    and no [defs]; loaded from a string, the replacement of ["slot"] raises
    [AttributeError] in [get_defs], for any fragment that parses. *)
Theorem render_spec_example_fails file clean s fx :
  parse_xml spec_src = Some (XElem "svg" [] [XElem "rect" [("id", "slot"); ("height", "10"); ("width", "10")] []]) ->
  parse_xml spec_frag = Some fx ->
  exists s', render_svg_string (Some spec_src) file [("slot", spec_frag)] clean s
             = (s', Raise (AttributeError "'lxml.etree._Element' object has no attribute 'getroot'")).
Proof.
  intros Hp Hf. eexists. eapply render_first_failure_run; [by apply load_string_run|].
  cbn [fst snd]. unfold replace_rect_with_svg_string, replace_rect_with_svg_bytes.
  py_step (fromstring_run _ _ _ Hf).
  set (s0 := with_next _ _). set (n := st_next s).
  eapply (replace_no_defs_string_run _ _ s0 _ (S n) (Elem (S n) "rect" [("id", "slot"); ("height", "10"); ("width", "10")] []) "10" "10").
  - apply get_by_id_unique_run; [done|vm_compute; set_solver|].
    unfold xpath_id. cbn. done.
  - unfold st_find, find_in. cbn. rewrite decide_False by lia. cbn. by rewrite decide_True.
  - done.
  - done.
  - done.
  - done.
  - done.
Qed.
(** What [load] leaves depends on the state only through the two
    counters: [__init__] replaces everything else. *)
Lemma load_counters src file s s' :
  st_uuids s = st_uuids s' -> st_next s = st_next s' ->
  (load src file s).2 = (load src file s').2 /\
  ((load src file s).2 = Ok tt -> (load src file s).1 = (load src file s').1).
Proof.
  intros Hu Hn.
  assert (Hfs : forall k txt, ((r <- fromstring txt ;; init k r) s).2 = ((r <- fromstring txt ;; init k r) s').2 /\
            (((r <- fromstring txt ;; init k r) s).2 = Ok tt ->
             ((r <- fromstring txt ;; init k r) s).1 = ((r <- fromstring txt ;; init k r) s').1)).
  { intros k txt. unfold fromstring, new_tree. destruct (parse_xml txt) as [x|]; [|done].
    unfold bind. rewrite <- Hn. destruct (alloc (st_next s) x). cbn. rewrite Hu. done. }
  assert (Hf : (load_file file s).2 = (load_file file s').2 /\ ((load_file file s).2 = Ok tt -> (load_file file s).1 = (load_file file s').1)).
  { unfold load_file. destruct file as [f|]; [|done]. destruct (read_file f); [apply Hfs|done]. }
  unfold load. destruct src as [txt|]; [|done]. case_decide; [done|apply Hfs].
Qed.

(** C5 Purity of the batch: the result of [render_svg_string] depends on
    the state before it only through the number of [uuid4()] draws and the
    objects created so far, not on any earlier document, [_tid_cache] or
    [_defs]: memoising it by its arguments is sound up to the identifiers
    it draws. *)
Theorem render_pure src file reps clean s s' :
  st_uuids s = st_uuids s' -> st_next s = st_next s' ->
  (render_svg_string src file reps clean s).2 = (render_svg_string src file reps clean s').2.
Proof.
  intros Hu Hn. destruct (load_counters src file s s' Hu Hn) as [Hr Hs].
  unfold render_svg_string, bind.
  destruct (load src file s) as [t [[]|e]], (load src file s') as [t' [[]|e']]; simpl in *; try congruence.
  by rewrite (Hs eq_refl).
Qed.
End Running.

Lemma render_missing_input_witness :
  render_svg_string (Some "") None [("slot", spec_frag)] true (fresh_state FromString slot_doc 2)
  = (fresh_state FromString slot_doc 2, Raise (TypeError "cannot parse from 'NoneType'")).
Proof. apply render_missing_input. by right. Defined.

Lemma render_identity_witness :
  render_svg_string (Some spec_frag) None [] false (fresh_state FromString slot_doc 2)
  = (loaded FromString frag_tree (fresh_state FromString slot_doc 2), Ok (serialize frag_tree)).
Proof. apply (render_identity spec_frag None frag_tree); by_eval. Defined.


Lemma render_spec_example_fails_witness :
  exists s', render_svg_string (Some spec_src) None [("slot", spec_frag)] true (fresh_state FromString slot_doc 0)
             = (s', Raise (AttributeError "'lxml.etree._Element' object has no attribute 'getroot'")).
Proof. apply (render_spec_example_fails None true (fresh_state FromString slot_doc 0) frag_tree); by_eval. Defined.

Lemma render_pure_witness :
  (render_svg_string (Some spec_frag) None [] true (fresh_state FromString slot_doc 2)).2
  = (render_svg_string (Some spec_frag) None [] true (fresh_state FromFile guide_root_doc 2)).2.
Proof. apply render_pure; reflexivity. Defined.
