(* ===== verification/Invariant.v ===== *)
(** * Invariant: the objects of a [Template] stay distinct and live

    [wf_state]: the identities of the objects (the document and the
    detached subtrees) are pairwise distinct and below the allocation
    counter, and [_tid_cache] and [_defs] name live objects.  Every method
    preserves it, on every path, returning or raising ([triple]s of
    [Prelude]); hence it holds in every state reachable by calls of the
    class's methods ([reachable]), and there the model's own error for a
    reference to no object is never raised.  Lookups by identity
    ([find_elem], the first node with that identity) are therefore lookups
    of the unique object, as in Python. *)

From S2P Require Import Prelude Etree Xml Template Replace Layout Render.

Definition wf_state (s : state) : Prop :=
  NoDup (st_oids s) /\
  (forall o, o ∈ st_oids s -> o < st_next s) /\
  (forall tid o, st_tid_cache s !! tid = Some o -> o ∈ st_oids s) /\
  (forall d, st_defs s = Some d -> d ∈ st_oids s).

(** A tree of new objects, not yet part of the state. *)
Definition fresh_tree (t : elem) (s : state) : Prop :=
  NoDup (oids t) /\ forall o, o ∈ oids t -> o < st_next s /\ o ∉ st_oids s.

(** [s'] keeps the objects of [s]. *)
Definition keeps (s s' : state) : Prop :=
  st_next s <= st_next s' /\ forall o, o ∈ st_oids s -> o ∈ st_oids s'.

(** ... and only adds objects created since. *)
Definition extends (s s' : state) : Prop :=
  keeps s s' /\ forall o, o ∈ st_oids s' -> o ∈ st_oids s \/ st_next s <= o.

(** Facts that survive the steps that only add new objects, and those that
    survive any step keeping the objects. *)
Definition stable (R : state -> Prop) : Prop := forall s s', extends s s' -> R s -> R s'.
Definition stable_keeps (R : state -> Prop) : Prop := forall s s', keeps s s' -> R s -> R s'.

(** The exceptions the code raises: never the model's dangling reference. *)
Definition safe_exn (e : exn) : Prop := e <> ValueError "dangling element reference".

(** The exceptional postcondition of every method. *)
Definition wf_raise (e : exn) (s : state) : Prop := wf_state s /\ safe_exn e.

(** The state after [get_defs] inserted a new [defs] element. *)
Definition with_new_defs (s : state) : state :=
  with_defs None (with_doc (insert_first (Elem (st_next s) DEFS_TAG [] []) (st_doc s))
                    (with_next (S (st_next s)) s)).

(** A call of a public method on a [Template] object ([load] and
    [render_svg_string] are class methods that make a new one). *)
Inductive call :=
  | CallGetById (tid : string)
  | CallGetDefs
  | CallReplaceString (tid svg : string)
  | CallReplaceBytes (tid svg_bytes : string)
  | CallExpunge
  | CallToString.

Section Calls.
Context `{Uuid} `{XPathEval} `{XmlCodec} `{FileSystem}.

Definition run_call (c : call) : TplM unit :=
  match c with
  | CallGetById tid => get_by_id tid ;; ret tt
  | CallGetDefs => get_defs ;; ret tt
  | CallReplaceString tid svg => replace_rect_with_svg_string tid svg
  | CallReplaceBytes tid b => replace_rect_with_svg_bytes tid b
  | CallExpunge => expunge_layout_elements
  | CallToString => tostring ;; ret tt
  end.

(** A [Template] made by [load], then any sequence of calls, each of which
    may return or raise (a caller may catch the exception and go on). *)
Inductive reachable : state -> Prop :=
  | reach_load src file s0 s : load src file s0 = (s, Ok tt) -> reachable s
  | reach_call c s : reachable s -> reachable (run_call c s).1.
End Calls.

(** The template of the spec's example, loaded. *)
Definition spec_loaded : state := (load (Some spec_src) None (fresh_state FromString slot_doc 0)).1.

(** From a well-formed state satisfying [Pre], [m] keeps [wf_state],
    raises only the code's exceptions, and when it returns it has only
    extended the state and its result satisfies [Q]. *)
Definition step {A} (Pre : state -> Prop) (m : TplM A) (Q : A -> state -> Prop) : Prop :=
  forall s0, triple (fun s => s = s0 /\ wf_state s /\ Pre s) m
                    (fun a s => wf_state s /\ extends s0 s /\ Q a s) wf_raise.

(** The same with only [keeps]: for a step that attaches existing objects. *)
Definition step_keeps {A} (Pre : state -> Prop) (m : TplM A) (Q : A -> state -> Prop) : Prop :=
  forall s0, triple (fun s => s = s0 /\ wf_state s /\ Pre s) m
                    (fun a s => wf_state s /\ keeps s0 s /\ Q a s) wf_raise.

(** ** Reading and updating objects of the state *)

Lemma st_oids_update o f s z :
  st_find o s = Some z -> st_oids (st_update o f s) ++ oids z ≡ₚ st_oids s ++ oids (f z).
Proof. unfold st_oids, st_find. rewrite st_trees_update. apply update_in_perm. Qed.

Lemma st_update_None o f s : st_find o s = None -> st_update o f s = s.
Proof. intros Hn. rewrite st_update_alt. unfold st_find in Hn. rewrite update_in_notin by done. by destruct s. Qed.

Lemma st_find_Some_iff o s : is_Some (st_find o s) <-> o ∈ st_oids s.
Proof.
  unfold st_find, st_oids. destruct (find_in o _) as [y|] eqn:Hf.
  - split; [intros _|done]. destruct (decide (o ∈ (st_doc s :: st_loose s) ≫= oids)) as [|Hn]; [done|].
    rewrite list_elem_of_bind in Hn. exfalso.
    destruct (find_in_oids_sub o _ y o Hf) as (t & ? & ?); [|apply Hn; by exists t].
    rewrite <- (find_in_oid o _ y Hf). apply e_oid_elem_of_oids.
  - rewrite find_in_None in Hf. split; [by intros []|]. intros (t & ? & ?)%list_elem_of_bind. by destruct (Hf t).
Qed.

Lemma st_next_update o f s : st_next (st_update o f s) = st_next s.
Proof. unfold st_update. by case_decide. Qed.

Lemma st_defs_update o f s : st_defs (st_update o f s) = st_defs s.
Proof. unfold st_update. by case_decide. Qed.

(** A mutation that keeps the subtree's identities keeps all of them. *)
Lemma st_oids_update_shallow o f s :
  (forall z, oids (f z) = oids z) -> st_oids (st_update o f s) ≡ₚ st_oids s.
Proof.
  intros Hf. destruct (st_find o s) as [z|] eqn:Hz; [|by rewrite st_update_None].
  pose proof (st_oids_update o f s z Hz) as Hp. rewrite Hf in Hp.
  by apply Permutation_app_inv_r in Hp.
Qed.

Lemma st_oids_update_append d t s :
  is_Some (st_find d s) -> st_oids (st_update d (append_kid t) s) ≡ₚ st_oids s ++ oids t.
Proof.
  intros [z Hz]. pose proof (st_oids_update d (append_kid t) s z Hz) as Hp.
  rewrite oids_append_kid, (assoc_L (++)) in Hp.
  apply (Permutation_app_inv_r (oids z)). rewrite Hp. solve_Permutation.
Qed.

(** ** The invariant under each kind of step *)

Lemma wf_transfer s s' :
  wf_state s -> st_oids s' ≡ₚ st_oids s -> st_next s <= st_next s' ->
  st_tid_cache s' = st_tid_cache s -> st_defs s' = st_defs s -> wf_state s'.
Proof.
  intros (Hnd & Hlt & Hc & Hd) Hp Hn Hc' Hd'. split_and!.
  - by rewrite Hp.
  - intros o Ho. rewrite Hp in Ho. specialize (Hlt o Ho). lia.
  - intros tid o. rewrite Hc', Hp. apply Hc.
  - intros d. rewrite Hd', Hp. apply Hd.
Qed.

Lemma extends_perm s s' :
  st_oids s' ≡ₚ st_oids s -> st_next s <= st_next s' -> extends s s'.
Proof. intros Hp Hn. split; [split; [done|]|]; intros o; rewrite Hp; auto. Qed.

Lemma extends_refl s : extends s s.
Proof. by apply extends_perm. Qed.

Lemma wf_update_shallow o f s :
  (forall z, oids (f z) = oids z) -> wf_state s -> wf_state (st_update o f s).
Proof.
  intros Hf Hwf. apply (wf_transfer s); [done|by apply st_oids_update_shallow| | |].
  - by rewrite st_next_update.
  - apply st_tid_cache_update.
  - apply st_defs_update.
Qed.

Lemma extends_update_shallow o f s :
  (forall z, oids (f z) = oids z) -> extends s (st_update o f s).
Proof. intros Hf. apply extends_perm; [by apply st_oids_update_shallow|by rewrite st_next_update]. Qed.

Lemma wf_update_append d t s :
  fresh_tree t s -> wf_state s -> wf_state (st_update d (append_kid t) s).
Proof.
  intros [Htnd Ht] (Hnd & Hlt & Hc & Hd).
  destruct (st_find d s) as [z|] eqn:Hz; [|rewrite st_update_None by done; by split_and!].
  pose proof (st_oids_update_append d t s (mk_is_Some _ _ Hz)) as Hp.
  split_and!.
  - rewrite Hp. apply NoDup_app. split_and!; [done| |done]. intros o Ho Hot. by apply (Ht o Hot).
  - intros o. rewrite Hp, elem_of_app, st_next_update. intros [Ho|Ho]; [auto|by apply Ht].
  - intros tid o. rewrite st_tid_cache_update, Hp, elem_of_app. eauto.
  - intros d'. rewrite st_defs_update, Hp, elem_of_app. eauto.
Qed.

Lemma keeps_update_append d t s : keeps s (st_update d (append_kid t) s).
Proof.
  unfold keeps. rewrite st_next_update. split; [done|]. intros o Ho.
  destruct (st_find d s) eqn:Hz; [|by rewrite st_update_None].
  rewrite st_oids_update_append by done. apply elem_of_app. by left.
Qed.

Lemma extends_keeps s s' : extends s s' -> keeps s s'.
Proof. by intros []. Qed.

Lemma stable_keeps_stable R : stable_keeps R -> stable R.
Proof. intros HR s s' Hx. apply HR. by apply extends_keeps. Qed.

Lemma keeps_refl s : keeps s s.
Proof. done. Qed.

Lemma fresh_tree_stable t : stable (fresh_tree t).
Proof.
  intros s s' [[Hn Hk] Hx] [Hnd Ht]. split; [done|]. intros o Ho.
  destruct (Ht o Ho) as [Hlt Hno]. split; [lia|]. intros Ho'. destruct (Hx o Ho'); [done|lia].
Qed.

Lemma live_stable o : stable_keeps (fun s => o ∈ st_oids s).
Proof. intros s s' [_ Hk] Ho. by apply Hk. Qed.

Lemma stable_and R1 R2 : stable R1 -> stable R2 -> stable (fun s => R1 s /\ R2 s).
Proof. intros H1 H2 s s' Hx [? ?]. split; [by apply (H1 s)|by apply (H2 s)]. Qed.

Lemma stable_keeps_and R1 R2 :
  stable_keeps R1 -> stable_keeps R2 -> stable_keeps (fun s => R1 s /\ R2 s).
Proof. intros H1 H2 s s' Hx [? ?]. split; [by apply (H1 s)|by apply (H2 s)]. Qed.

Lemma stable_const (P : Prop) : stable_keeps (fun _ => P).
Proof. by intros ? ? _ ?. Qed.

Lemma wf_same s s' :
  st_oids s' = st_oids s -> st_next s' = st_next s -> st_tid_cache s' = st_tid_cache s ->
  st_defs s' = st_defs s -> wf_state s -> wf_state s'.
Proof. intros Ho Hn Hc Hd Hwf. apply (wf_transfer s); [done|by rewrite Ho|lia|done|done]. Qed.

Lemma extends_same s s' : st_oids s' = st_oids s -> st_next s <= st_next s' -> extends s s'.
Proof. intros Ho Hn. apply extends_perm; [by rewrite Ho|done]. Qed.

Lemma fresh_tree_set_attr k v t s : fresh_tree (set_attr k v t) s <-> fresh_tree t s.
Proof. unfold fresh_tree. by rewrite oids_set_attr. Qed.

(** ** Steps: methods that keep the invariant and only add objects *)

Lemma step_frame {A} Pre (m : TplM A) Q R :
  step Pre m Q -> stable R -> (forall s, R s -> Pre s) ->
  triple (fun s => wf_state s /\ R s) m (fun a s => wf_state s /\ R s /\ Q a s) wf_raise.
Proof.
  intros Hm HR HP. apply triple_pre. intros s0 [Hwf HR0].
  eapply triple_conseq; [apply (Hm s0)| | |]; [naive_solver| |done].
  intros a s (? & Hx & ?). split_and!; [done|by apply (HR s0)|done].
Qed.

Lemma step_keeps_frame {A} Pre (m : TplM A) Q R :
  step_keeps Pre m Q -> stable_keeps R -> (forall s, R s -> Pre s) ->
  triple (fun s => wf_state s /\ R s) m (fun a s => wf_state s /\ R s /\ Q a s) wf_raise.
Proof.
  intros Hm HR HP. apply triple_pre. intros s0 [Hwf HR0].
  eapply triple_conseq; [apply (Hm s0)| | |]; [naive_solver| |done].
  intros a s (? & Hx & ?). split_and!; [done|by apply (HR s0)|done].
Qed.

Lemma step_keeps_of {A} Pre (m : TplM A) Q : step Pre m Q -> step_keeps Pre m Q.
Proof.
  intros Hm s0. eapply triple_conseq; [apply (Hm s0)|done| |done].
  intros a s (? & ? & ?). split_and!; [done|by apply extends_keeps|done].
Qed.

(** A step that does not change the state. *)
Lemma step_pure {A} Pre (m : TplM A) (Q : A -> state -> Prop) :
  (forall s, wf_state s -> Pre s ->
     match m s with (s', Ok a) => s' = s /\ Q a s | (s', Raise e) => s' = s /\ safe_exn e end) ->
  step Pre m Q.
Proof.
  intros Hm s0 s (-> & Hwf & HP). specialize (Hm s0 Hwf HP).
  destruct (m s0) as [s' [a|e]]; destruct Hm as [-> ?]; split_and!; auto using extends_refl.
Qed.

Lemma triple_raise_safe {A} e (P : state -> Prop) (Q : A -> state -> Prop) :
  safe_exn e -> (forall s, P s -> wf_state s) -> triple P (raise e) Q wf_raise.
Proof. intros He HP. apply triple_raise. intros s Hs. split; [by apply HP|done]. Qed.

Lemma wf_with_cache tid e s :
  e ∈ st_oids s -> wf_state s -> wf_state (with_cache (<[tid := e]> (st_tid_cache s)) s).
Proof.
  intros He (Hnd & Hlt & Hc & Hd). split_and!; [done|done| |done].
  intros tid' o. simpl. destruct (decide (tid' = tid)) as [->|Hne].
  - rewrite lookup_insert_eq. by intros [= <-].
  - rewrite lookup_insert_ne by done. apply Hc.
Qed.

Lemma wf_with_defs d s : d ∈ st_oids s -> wf_state s -> wf_state (with_defs (Some d) s).
Proof. intros Hd' (Hnd & Hlt & Hc & Hd). split_and!; [done|done|done|]. simpl. by intros ? [= <-]. Qed.

Lemma elem_of_st_oids_doc o s : o ∈ oids (st_doc s) -> o ∈ st_oids s.
Proof. intros Ho. unfold st_oids. rewrite bind_cons, elem_of_app. by left. Qed.


Lemma st_oids_with_new_defs s : st_oids (with_new_defs s) ≡ₚ st_oids s ++ [st_next s].
Proof.
  unfold with_new_defs, st_oids, with_defs, with_doc, with_next. cbn [st_doc st_loose].
  rewrite !bind_cons, oids_insert_first, oids_Elem. change (_ :: [] ≫= oids) with [st_next s].
  solve_Permutation.
Qed.

Lemma wf_with_new_defs s : wf_state s -> wf_state (with_new_defs s).
Proof.
  intros (Hnd & Hlt & Hc & Hd). pose proof (st_oids_with_new_defs s) as Hp. split_and!.
  - rewrite Hp. apply NoDup_app. split_and!; [done| |apply NoDup_singleton].
    intros o Ho ->%list_elem_of_singleton. specialize (Hlt _ Ho). lia.
  - intros o. rewrite Hp, elem_of_app, list_elem_of_singleton. simpl.
    intros [Ho| ->]; [specialize (Hlt _ Ho)|]; lia.
  - intros tid o Ho. rewrite Hp, elem_of_app. left. by apply (Hc tid).
  - done.
Qed.

Lemma extends_with_new_defs s : extends s (with_new_defs s).
Proof.
  pose proof (st_oids_with_new_defs s) as Hp. split; [split|].
  - simpl. lia.
  - intros o Ho. rewrite Hp, elem_of_app. by left.
  - intros o. rewrite Hp, elem_of_app, list_elem_of_singleton. intros [| ->]; [by left|right; done].
Qed.

Lemma id_query_raise `{XPathEval} tid root e : id_query tid root = Raise e -> e = XPathEvalError.
Proof. unfold id_query. case_decide; [|done]. by destruct (xpath_broken_id_query tid root) as [|]; intros [= <-]. Qed.

Lemma id_query_in_doc `{XPathEval} tid root l :
  id_query tid root = Ok l -> forall o, o ∈ l -> o ∈ oids root.
Proof.
  unfold id_query. case_decide.
  - destruct (xpath_broken_id_query tid root) eqn:Hq; [|done]. intros [= <-]. by eapply xpath_broken_in_doc.
  - intros [= <-] o (x & -> & Hx)%list_elem_of_fmap. apply list_elem_of_filter in Hx as [_ Hx].
    unfold oids. apply list_elem_of_fmap. by exists x.
Qed.

Section Steps.
Context `{Uuid} `{XPathEval}.

Lemma step_draw_uuid : step (fun _ => True) draw_uuid (fun _ _ => True).
Proof.
  intros s0 s (-> & Hwf & _). simpl. split_and!; [|apply extends_same; simpl; [done|lia]|done].
  by apply (wf_same s0).
Qed.

Lemma step_load_elem o : step (fun s => o ∈ st_oids s) (load_elem o) (fun _ _ => True).
Proof.
  apply step_pure. intros s Hwf Ho. unfold load_elem. py_unfold.
  destruct (st_find o s) eqn:Hf; [done|]. apply st_find_Some_iff in Ho. rewrite Hf in Ho. by destruct Ho.
Qed.

Lemma step_lift_attrib_item k x : step (fun _ => True) (lift (attrib_item k x)) (fun _ _ => True).
Proof. apply step_pure. intros s _ _. unfold lift, attrib_item. by destruct (attr_get k _). Qed.

Lemma step_mutate_shallow o f :
  (forall z, oids (f z) = oids z) -> step (fun _ => True) (mutate o f) (fun _ _ => True).
Proof.
  intros Hf s0 s (-> & Hwf & _). simpl. split_and!; [by apply wf_update_shallow|by apply extends_update_shallow|done].
Qed.

Lemma step_mutate_append d t : step_keeps (fresh_tree t) (mutate d (append_kid t)) (fun _ _ => True).
Proof.
  intros s0 s (-> & Hwf & Hf). simpl. split_and!; [by apply wf_update_append|apply keeps_update_append|done].
Qed.

Lemma step_get_by_id tid : step (fun _ => True) (get_by_id tid) (fun e s => e ∈ st_oids s).
Proof.
  intros s0 s (-> & Hwf & _). unfold get_by_id. py_unfold.
  destruct (st_tid_cache s0 !! tid) as [e|] eqn:Hc.
  - split_and!; [done|apply extends_refl|]. destruct Hwf as (_ & _ & Hcache & _). by apply (Hcache tid).
  - destruct (id_query tid (st_doc s0)) as [l|ex] eqn:Hq; py_unfold;
      [|split; [done|by rewrite (id_query_raise _ _ _ Hq)]].
    destruct l as [|e [|e' l]]; py_unfold; try (split; [done|discriminate]).
    assert (e ∈ st_oids s0) as He by (apply elem_of_st_oids_doc; eapply id_query_in_doc; [done|left]).
    split_and!; [by apply wf_with_cache|by apply extends_same|done].
Qed.

Lemma step_get_defs :
  step (fun _ => True) get_defs (fun r s => forall d, r = Some d -> d ∈ st_oids s).
Proof.
  intros s0 s (-> & Hwf & _). unfold get_defs. py_unfold.
  destruct (st_defs s0) as [d|] eqn:Hd.
  - split_and!; [done|apply extends_refl|]. intros ? [= <-]. destruct Hwf as (_ & _ & _ & Hdefs). by apply Hdefs.
  - destruct (defs_query (st_doc s0)) as [|d ds] eqn:Hq.
    + destruct (st_kind s0); py_unfold; [by split|].
      split_and!; [exact (wf_with_new_defs s0 Hwf)|exact (extends_with_new_defs s0)|done].
    + assert (d ∈ st_oids s0) as Hin.
      { apply elem_of_st_oids_doc. unfold defs_query in Hq. case_decide; [|done].
        destruct (st_doc s0) as [i t a ks]. cbn [e_kids] in Hq. rewrite elem_of_oids_Elem. right.
        assert (d ∈ e_oid <$> filter (fun k => e_tag k = DEFS_TAG) ks) as Hd' by (rewrite Hq; left).
        apply list_elem_of_fmap in Hd' as (k & -> & Hk). apply list_elem_of_filter in Hk as [_ Hk].
        exists k. split; [done|apply e_oid_elem_of_oids]. }
      split_and!; [by apply wf_with_defs|by apply extends_same|]. by intros ? [= <-].
Qed.
End Steps.

Lemma step_keeps_frame_pre {A} Pre (m : TplM A) Q R :
  step_keeps Pre m Q -> stable_keeps R ->
  triple (fun s => wf_state s /\ R s /\ Pre s) m (fun a s => wf_state s /\ R s /\ Q a s) wf_raise.
Proof.
  intros Hm HR. apply triple_pre. intros s0 (Hwf & HR0 & HP).
  eapply triple_conseq; [apply (Hm s0)| | |]; [naive_solver| |done].
  intros a s (? & Hx & ?). split_and!; [done|by apply (HR s0)|done].
Qed.

Lemma lives_stable (l : list nat) : stable_keeps (fun s => forall p, p ∈ l -> p ∈ st_oids s).
Proof. intros s s' [_ Hk] Hl p Hp. by apply Hk, Hl. Qed.

(** Discharge the side conditions of the framing lemmas; the predicate is
    split by its syntax, so that an undetermined one is left alone. *)
Ltac stable_tac :=
  repeat match goal with
  | |- stable (fun _ => _ /\ _) => apply stable_and
  | |- stable_keeps (fun _ => _ /\ _) => apply stable_keeps_and
  | |- stable (fun _ => fresh_tree _ _) => apply fresh_tree_stable
  | |- stable (fresh_tree _) => apply fresh_tree_stable
  | |- stable_keeps (fun _ => _ ∈ st_oids _) => apply live_stable
  | |- stable_keeps (fun _ => True) => apply stable_const
  | H : stable ?R |- stable ?R => exact H
  | H : stable_keeps ?R |- stable_keeps ?R => exact H
  | H : stable_keeps ?R |- stable ?R => exact (stable_keeps_stable R H)
  | |- stable (fun _ => True) => apply stable_keeps_stable, stable_const
  | |- stable (fun _ => _ ∈ st_oids _) => apply stable_keeps_stable, live_stable
  | |- stable (fun _ => forall _, _ ∈ _ -> _ ∈ st_oids _) => apply stable_keeps_stable, lives_stable
  end.

(** Run a step [L] of a method and continue with its result. *)
Tactic Notation "hstep" constr(L) "as" simple_intropattern(x) :=
  eapply triple_bind; [eapply step_frame; [apply L|stable_tac|naive_solver]|intros x].
Tactic Notation "hstep" constr(L) := hstep L as ?.

(** The last step [L] of a method: the framed predicate is fixed by the
    precondition before its side conditions are discharged. *)
Ltac hlast L :=
  eapply triple_conseq; [eapply step_frame; [apply L| |]|intros ?s ?Hs; exact Hs| |done];
  [stable_tac|naive_solver|naive_solver].

Section Composite.
Context `{Uuid} `{XPathEval}.

Lemma triple_del_attrib o k R :
  stable R -> (forall s, R s -> o ∈ st_oids s) ->
  triple (fun s => wf_state s /\ R s) (del_attrib o k) (fun _ s => wf_state s /\ R s) wf_raise.
Proof.
  intros HR Ho. unfold del_attrib. hstep (step_load_elem o).
  destruct (attr_get k _).
  - hlast (step_mutate_shallow o (del_attr k) (oids_del_attr k)).
  - apply triple_raise_safe; [done|naive_solver].
Qed.

Lemma triple_strip_attrs o keys R :
  stable R -> (forall s, R s -> o ∈ st_oids s) ->
  triple (fun s => wf_state s /\ R s) (strip_attrs o keys) (fun _ s => wf_state s /\ R s) wf_raise.
Proof.
  intros HR Ho. apply triple_for_each. intros k _. case_decide.
  - by apply triple_ret.
  - by apply triple_del_attrib.
Qed.

(** [replace_rect_with_etree] keeps the invariant when the fragment is a
    tree of new objects, which it is when it was just parsed. *)
Lemma triple_replace tid t R :
  stable_keeps R ->
  triple (fun s => wf_state s /\ R s /\ fresh_tree t s) (replace_rect_with_etree tid t)
         (fun _ s => wf_state s /\ R s) wf_raise.
Proof.
  intros HR. unfold replace_rect_with_etree.
  hstep (step_get_by_id tid) as e. hstep step_draw_uuid as doc_id.
  hstep (step_load_elem e) as x. hstep (step_lift_attrib_item "height" x) as h.
  hstep (step_load_elem e) as x'. hstep (step_lift_attrib_item "width" x') as w.
  hstep step_get_defs as [d|]; [|apply triple_raise_safe; [done|naive_solver]].
  set (t' := set_attr "width" w (set_attr "height" h (set_attr "id" doc_id t))).
  eapply triple_bind.
  { eapply triple_conseq;
      [eapply (step_keeps_frame_pre _ _ _ (fun s => R s /\ e ∈ st_oids s /\ d ∈ st_oids s));
         [apply step_mutate_append|stable_tac]| | |]; [|done|done].
    intros s Hs. unfold t'. rewrite !fresh_tree_set_attr. naive_solver. }
  intros ?. cbv beta.
  hstep (step_mutate_shallow e (set_tag USE_TAG) (oids_set_tag USE_TAG)).
  hstep step_draw_uuid as new_id.
  hstep (step_mutate_shallow e (set_attr "id" new_id) (oids_set_attr "id" new_id)).
  hstep (step_load_elem e) as y.
  eapply triple_bind; [apply triple_strip_attrs; [stable_tac|naive_solver]|intros ?; cbv beta].
  hlast (step_mutate_shallow e (set_attr HREF_ATTR ("#" +:+ doc_id)) (oids_set_attr HREF_ATTR ("#" +:+ doc_id))).
Qed.
End Composite.

(** ** Pruning *)



Lemma st_oids_with_loose_app s k : st_oids (with_loose (st_loose s ++ [k]) s) = st_oids s ++ oids k.
Proof.
  unfold st_oids, with_loose. cbn [st_doc st_loose].
  by rewrite !bind_cons, bind_app, bind_singleton, (assoc_L (++)).
Qed.

(** Detaching the child [k] of [x] moves its subtree to the detached trees. *)
Lemma st_oids_detach p c s x k :
  st_find p s = Some x -> child_of c x = Some k -> NoDup (st_oids s) ->
  st_oids (with_loose (st_loose (st_update p (remove_kid c) s) ++ [k]) (st_update p (remove_kid c) s))
  ≡ₚ st_oids s.
Proof.
  intros Hx Hk Hnd. apply child_of_Some in Hk as [Hk Hc].
  rewrite st_oids_with_loose_app. apply (Permutation_app_inv_r (oids x)).
  rewrite <- (assoc_L (++)), (comm (++) (oids k)), (assoc_L (++)), (st_oids_update p _ s x Hx).
  rewrite <- (assoc_L (++)). apply Permutation_app_head.
  apply oids_remove_kid; [|done|done]. by eapply find_in_NoDup.
Qed.

Section Pruning.
Context `{Uuid} `{XPathEval}.

Lemma step_remove_child p c : step (fun s => p ∈ st_oids s) (remove_child p c) (fun _ _ => True).
Proof.
  intros s0 s (-> & Hwf & Hp). unfold remove_child.
  destruct (st_find p s0) as [x|] eqn:Hx; [|apply st_find_Some_iff in Hp; rewrite Hx in Hp; by destruct Hp].
  rewrite (bind_Ok _ _ _ _ _ (load_elem_found p s0 x Hx)).
  destruct (child_of c x) as [k|] eqn:Hk; [|by split]. py_step (mutate_run p (remove_kid c) s0). cbn.
  pose proof (st_oids_detach p c s0 x k Hx Hk (proj1 Hwf)) as Hperm.
  split_and!; [|apply extends_perm; [done|simpl; rewrite st_next_update; lia]|done].
  apply (wf_transfer s0); [done|done|simpl; rewrite st_next_update; lia| |].
  - simpl. apply st_tid_cache_update.
  - simpl. apply st_defs_update.
Qed.

Lemma triple_expunge R :
  stable R ->
  triple (fun s => wf_state s /\ R s) expunge_layout_elements (fun _ s => wf_state s /\ R s) wf_raise.
Proof.
  intros HR. unfold expunge_layout_elements. apply triple_get_bind. intros s0.
  set (pm := (fun o => (o, parent_of o (st_doc s0))) <$> layout_query (st_doc s0)).
  eapply triple_conseq;
    [apply (triple_for_each _ _ (fun s => wf_state s /\ (R s /\ forall p, p ∈ omap snd pm -> p ∈ st_oids s)))| | |];
    [|intros s ([Hwf HR0] & ->)|naive_solver|done].
  - intros [o [p|]] Hop; cbn [snd fst].
    + eapply triple_conseq; [eapply step_frame; [apply (step_remove_child p o)| |]|intros ?s ?Hs; exact Hs| |done];
        [stable_tac| |naive_solver].
      intros s (_ & Hl). apply Hl. apply list_elem_of_omap. by exists (o, Some p).
    + apply triple_raise_safe; [done|naive_solver].
  - split_and!; [done|done|]. intros p (op & Hop & Hp)%list_elem_of_omap.
    apply list_elem_of_fmap in Hop as (o & -> & _). apply elem_of_st_oids_doc. by eapply parent_of_in.
Qed.
End Pruning.

(** ** Loading, the wrappers and the batch *)

Lemma wf_with_next n s : st_next s <= n -> wf_state s -> wf_state (with_next n s).
Proof. intros Hn Hwf. apply (wf_transfer s); [done|done|simpl; lia|done|done]. Qed.

(** The state [__init__] builds around a freshly allocated tree. *)
Lemma wf_mk_state k x n u :
  wf_state (mk_state k (alloc n x).1 [] ∅ None u (alloc n x).2).
Proof.
  assert (Ho : st_oids (mk_state k (alloc n x).1 [] ∅ None u (alloc n x).2) = oids (alloc n x).1).
  { unfold st_oids. cbn [st_doc st_loose]. rewrite bind_cons. change ([] ≫= oids) with (@nil nat).
    by rewrite (right_id_L [] (++)). }
  split_and!; rewrite ?Ho; [apply alloc_NoDup| |done|done].
  intros o Ho'%elem_of_oids_alloc. simpl. lia.
Qed.

Section Loading.
Context `{Uuid} `{XPathEval} `{XmlCodec} `{FileSystem}.

Lemma step_fromstring txt : step (fun _ => True) (fromstring txt) (fun t s => fresh_tree t s).
Proof.
  intros s0 s (-> & Hwf & _). unfold fromstring. destruct (parse_xml txt) as [x|]; [|by split].
  unfold new_tree. pose proof (elem_of_oids_alloc (st_next s0) x) as Hin.
  pose proof (alloc_next (st_next s0) x) as Hn. pose proof (alloc_NoDup (st_next s0) x) as Hnd.
  destruct (alloc (st_next s0) x) as [t n]. simpl in *.
  split_and!; [apply wf_with_next; [lia|done]|apply extends_same; simpl; [done|lia]|].
  split; [done|]. intros o Ho. apply Hin in Ho. split; [simpl; lia|].
  intros Hs. destruct Hwf as (_ & Hlt & _). specialize (Hlt o Hs). lia.
Qed.

Lemma triple_replace_bytes tid svg R :
  stable_keeps R ->
  triple (fun s => wf_state s /\ R s) (replace_rect_with_svg_bytes tid svg) (fun _ s => wf_state s /\ R s) wf_raise.
Proof.
  intros HR. unfold replace_rect_with_svg_bytes. hstep (step_fromstring svg) as t.
  eapply triple_conseq; [apply (triple_replace tid t (fun s => R s /\ True))|naive_solver|naive_solver|done].
  stable_tac.
Qed.

Lemma init_wf_after_fromstring k txt s s1 t :
  fromstring txt s = (s1, Ok t) -> init k t s1 = (mk_state k t [] ∅ None (st_uuids s1) (st_next s1), Ok tt) /\
  wf_state (mk_state k t [] ∅ None (st_uuids s1) (st_next s1)).
Proof.
  unfold fromstring, new_tree. destruct (parse_xml txt) as [x|]; [|done].
  pose proof (wf_mk_state k x (st_next s) (st_uuids s)) as Hwf.
  destruct (alloc (st_next s) x) as [e n]. intros [= <- <-]. by split.
Qed.

(** [load] from any state gives a well-formed one, or fails and leaves the
    state as it was. *)
Lemma load_outcome src file s :
  match load src file s with
  | (s', Ok _) => wf_state s'
  | (s', Raise e) => s' = s /\ safe_exn e
  end.
Proof.
  assert (Hs : forall k txt, match (r <- fromstring txt ;; init k r) s with
                             | (s', Ok _) => wf_state s' | (s', Raise e) => s' = s /\ safe_exn e end).
  { intros k txt. unfold bind. destruct (fromstring txt s) as [s1 [t|e]] eqn:Hf.
    - by destruct (init_wf_after_fromstring k txt s s1 t Hf) as [-> ?].
    - unfold fromstring in Hf. destruct (parse_xml txt) as [x|]; [unfold new_tree in Hf; by destruct (alloc (st_next s) x)|]. by injection Hf as <- <-. }
  assert (Hf : match load_file file s with
               | (s', Ok _) => wf_state s' | (s', Raise e) => s' = s /\ safe_exn e end).
  { unfold load_file. destruct file as [f|]; [|done]. destruct (read_file f); [apply Hs|done]. }
  unfold load. destruct src as [txt|]; [|done]. case_decide; [done|apply Hs].
Qed.

Lemma triple_load src file :
  triple wf_state (load src file) (fun _ s => wf_state s) wf_raise.
Proof.
  intros s Hwf. pose proof (load_outcome src file s) as Ho.
  destruct (load src file s) as [s' [a|e]]; [done|]. destruct Ho as [-> ?]. by split.
Qed.

Lemma step_tostring : step (fun _ => True) tostring (fun _ _ => True).
Proof. apply step_pure. by intros s _ _. Qed.

Lemma triple_load_any src file :
  triple (fun _ => True) (load src file) (fun _ s => wf_state s) (fun e _ => safe_exn e).
Proof.
  intros s _. pose proof (load_outcome src file s) as Ho.
  destruct (load src file s) as [s' [a|e]]; [done|]. by destruct Ho.
Qed.

(** The batch from any state: its result state is well-formed, and it
    raises only the code's exceptions. *)
Lemma triple_render src file reps clean :
  triple (fun _ => True) (render_svg_string src file reps clean) (fun _ s => wf_state s) (fun e _ => safe_exn e).
Proof.
  unfold render_svg_string. eapply triple_bind; [apply triple_load_any|intros ?; cbv beta].
  apply (triple_conseq _ wf_state _ (fun _ s => wf_state s /\ True) _ wf_raise);
    [|done|naive_solver|by intros e s []].
  apply (triple_bind _ _ _ (fun _ s => wf_state s /\ True)).
  { apply (triple_conseq _ (fun s => wf_state s /\ True) _ (fun _ s => wf_state s /\ True) _ wf_raise);
      [|naive_solver|done|done].
    apply triple_for_each. intros r _. unfold replace_rect_with_svg_string.
    apply triple_replace_bytes. stable_tac. }
  intros ?. apply (triple_bind _ _ _ (fun _ s => wf_state s /\ True)).
  { destruct clean.
    - apply triple_expunge. stable_tac.
    - apply triple_ret. naive_solver. }
  intros ?. hlast step_tostring.
Qed.
End Loading.

(** ** The states a program using the class can reach *)


Section Reach.
Context `{Uuid} `{XPathEval} `{XmlCodec} `{FileSystem}.



Lemma triple_wf_only {A} (m : TplM A) (Q : A -> state -> Prop) :
  triple (fun s => wf_state s /\ True) m (fun a s => wf_state s /\ True /\ Q a s) wf_raise ->
  triple wf_state m (fun _ s => wf_state s) wf_raise.
Proof. intros Hm. eapply triple_conseq; [exact Hm|naive_solver|naive_solver|done]. Qed.

Lemma triple_then_ret {A} (m : TplM A) :
  triple wf_state m (fun _ s => wf_state s) wf_raise ->
  triple wf_state (m ;; ret tt) (fun _ s => wf_state s) wf_raise.
Proof. intros Hm. apply (triple_bind _ _ _ _ _ _ Hm). intros _. by apply triple_ret. Qed.

(** A step from [wf_state] with no precondition keeps [wf_state]. *)
Lemma triple_of_step {A} (m : TplM A) Q :
  step (fun _ => True) m Q -> triple wf_state m (fun _ s => wf_state s) wf_raise.
Proof. intros Hm. apply (triple_wf_only _ Q). apply (step_frame _ _ _ _ Hm); [stable_tac|done]. Qed.

Lemma triple_call c : triple wf_state (run_call c) (fun _ s => wf_state s) wf_raise.
Proof.
  destruct c; cbn [run_call].
  - apply triple_then_ret, (triple_of_step _ _ (step_get_by_id tid)).
  - apply triple_then_ret, (triple_of_step _ _ step_get_defs).
  - apply (triple_wf_only _ (fun _ _ => True)).
    eapply triple_conseq; [apply (triple_replace_bytes tid svg (fun _ => True))|done|naive_solver|done]. stable_tac.
  - apply (triple_wf_only _ (fun _ _ => True)).
    eapply triple_conseq; [apply (triple_replace_bytes tid svg_bytes (fun _ => True))|done|naive_solver|done]. stable_tac.
  - apply (triple_wf_only _ (fun _ _ => True)).
    eapply triple_conseq; [apply (triple_expunge (fun _ => True))|done|naive_solver|done]. stable_tac.
  - apply triple_then_ret, (triple_of_step _ _ step_tostring).
Qed.
End Reach.

(** ** Theorems *)

Section ReachTheorems.
Context `{Uuid} `{XPathEval} `{XmlCodec} `{FileSystem}.

Lemma reachable_wf_ind s : reachable s -> wf_state s.
Proof.
  induction 1 as [src file s0 s Hl|c s _ IH].
  - pose proof (load_outcome src file s0) as Ho. by rewrite Hl in Ho.
  - pose proof (triple_call c s IH) as Hc. destruct (run_call c s) as [s' [[]|e]]; [done|apply Hc].
Qed.



End ReachTheorems.



