(* ===== verification/Uuids.v ===== *)
(** * Uuids: the identifiers [uuid4()] draws

    [replace_rect_with_etree] (svglue.py lines 105-134) draws two
    identifiers with [uuid4()]: [doc_id] for the fragment (line 110) and
    [new_id] for the reference (line 124).  The model's supply is
    injective in the number of draws ([Uuid]), so freshness is a matter of
    counting: [draws k m] says that [m] draws exactly [k] identifiers when
    it returns and never gives a draw back when it raises.  Every method
    of [Template] draws a fixed number, so the counter only grows along any
    sequence of calls, and two successful replacements draw four distinct
    identifiers, whatever was called in between. *)

From S2P Require Import Prelude Etree Template Replace Layout Render Invariant.

(** [m] draws [k] identifiers when it returns, and none are given back when
    it raises. *)
Definition draws {A} (k : nat) (m : TplM A) : Prop :=
  forall n, triple (fun s => st_uuids s = n) m (fun _ s => st_uuids s = n + k) (fun _ s => n <= st_uuids s).

(** The identifiers drawn between [s] and [s']. *)
Definition drawn_ids `{Uuid} (s s' : state) : list string :=
  uuid4 <$> seq (st_uuids s) (st_uuids s' - st_uuids s).

(** A template with two placeholders and a [defs] element. *)
Definition two_slots_src : string :=
  "<svg xmlns='http://www.w3.org/2000/svg'><defs/><rect id='a' height='1' width='2'/><rect id='b' height='3' width='4'/></svg>".

Definition two_slots_loaded : state := (load (Some two_slots_src) None (fresh_state FromString slot_doc 0)).1.

Section Calls.
Context `{Uuid} `{XPathEval} `{XmlCodec} `{FileSystem}.

(** One call of a method of the object, returning or raising. *)
Definition call_step (s s' : state) : Prop := exists c, (run_call c s).1 = s'.
End Calls.

(** ** Counting draws *)

Section Draws.
Context `{Uuid} `{XPathEval} `{XmlCodec} `{FileSystem}.

Lemma draws_ret {A} (a : A) : draws 0 (ret a).
Proof. intros n. apply triple_ret. intros s ->. lia. Qed.

Lemma draws_raise {A} k e : draws k (@raise _ A e).
Proof. intros n. apply triple_raise. intros s ->. lia. Qed.

Lemma draws_lift {A} (o : outcome A) : draws 0 (lift o).
Proof. intros n. apply triple_lift. intros s ->. destruct o; lia. Qed.

Lemma draws_modify f : (forall s, st_uuids (f s) = st_uuids s) -> draws 0 (modify f).
Proof. intros Hf n. apply triple_modify. intros s <-. rewrite Hf. lia. Qed.

Lemma draws_bind {A B} k1 k2 k (m : TplM A) (f : A -> TplM B) :
  k1 + k2 = k -> draws k1 m -> (forall a, draws k2 (f a)) -> draws k (bind m f).
Proof.
  intros <- Hm Hf n s Hs. specialize (Hm n s Hs). unfold bind.
  destruct (m s) as [s1 [a|e]]; [|done]. specialize (Hf a (n + k1) s1 Hm).
  destruct (f a s1) as [s2 [b|e]]; [lia|lia].
Qed.

Lemma draws_get_bind {B} k (f : state -> TplM B) : (forall s0, draws k (f s0)) -> draws k (bind get f).
Proof. intros Hf n. apply triple_get_bind. intros s0 s [Hs Hs0]. subst s. by apply (Hf s0 n s0). Qed.

Lemma draws_for_each {A} (body : A -> TplM unit) xs : (forall x, draws 0 (body x)) -> draws 0 (for_each body xs).
Proof.
  intros Hb. induction xs as [|x xs IH]; [apply draws_ret|]. cbn [for_each].
  apply (draws_bind 0 0); [done|apply Hb|intros _; apply IH].
Qed.

Lemma draws_draw_uuid : draws 1 draw_uuid.
Proof. intros n s <-. simpl. lia. Qed.

Lemma draws_fresh_oid : draws 0 fresh_oid.
Proof. intros n s <-. simpl. lia. Qed.

Lemma draws_new_tree x : draws 0 (new_tree x).
Proof. intros n s <-. unfold new_tree. destruct (alloc _ x). simpl. lia. Qed.

Lemma draws_mutate o f : draws 0 (mutate o f).
Proof. apply draws_modify. apply st_uuids_update. Qed.

Lemma draws_le {A} k (m : TplM A) s : draws k m -> st_uuids s <= st_uuids (m s).1.
Proof. intros Hm. pose proof (Hm (st_uuids s) s eq_refl) as Ht. destruct (m s) as [s' [a|e]]; simpl in *; lia. Qed.

Lemma draws_Ok {A} k (m : TplM A) s s' a : draws k m -> m s = (s', Ok a) -> st_uuids s' = st_uuids s + k.
Proof. intros Hm Hs. pose proof (Hm (st_uuids s) s eq_refl) as Ht. by rewrite Hs in Ht. Qed.
End Draws.

Create HintDb draws.
#[export] Hint Resolve draws_ret draws_lift draws_mutate draws_fresh_oid draws_new_tree : draws.

(** A computation that draws nothing, by its structure. *)
Ltac draws0 :=
  repeat match goal with
  | |- draws _ (ret _) => apply draws_ret
  | |- draws _ (raise _) => apply (draws_raise 0)
  | |- draws _ (lift _) => apply draws_lift
  | |- draws _ (mutate _ _) => apply draws_mutate
  | |- draws _ (modify _) => apply draws_modify; intros ?; reflexivity
  | |- draws _ (bind get _) => apply draws_get_bind; intros ?
  | |- draws _ (bind _ _) => apply (draws_bind 0 0); [done| |intros ?]
  | |- draws _ (for_each _ _) => apply draws_for_each; intros ?
  | |- draws _ (match _ with _ => _ end) => case_match
  | |- draws _ (let _ := _ in _) => cbv zeta
  | |- draws 0 _ => solve [eauto 1 with draws]
  end.

Section Methods.
Context `{Uuid} `{XPathEval} `{XmlCodec} `{FileSystem}.

Lemma draws_load_elem o : draws 0 (load_elem o).
Proof. unfold load_elem. draws0. Qed.
#[local] Hint Resolve draws_load_elem : draws.

Lemma draws_get_by_id tid : draws 0 (get_by_id tid).
Proof. unfold get_by_id. draws0. Qed.
#[local] Hint Resolve draws_get_by_id : draws.

Lemma draws_get_defs : draws 0 get_defs.
Proof. unfold get_defs. draws0. Qed.
#[local] Hint Resolve draws_get_defs : draws.

Lemma draws_del_attrib o k : draws 0 (del_attrib o k).
Proof. unfold del_attrib. draws0. Qed.
#[local] Hint Resolve draws_del_attrib : draws.

Lemma draws_strip_attrs o keys : draws 0 (strip_attrs o keys).
Proof. unfold strip_attrs. draws0. Qed.
#[local] Hint Resolve draws_strip_attrs : draws.

Lemma draws_remove_child p c : draws 0 (remove_child p c).
Proof. unfold remove_child. draws0. Qed.
#[local] Hint Resolve draws_remove_child : draws.

Lemma draws_expunge : draws 0 expunge_layout_elements.
Proof. unfold expunge_layout_elements. draws0. Qed.

Lemma draws_fromstring src : draws 0 (fromstring src).
Proof. unfold fromstring. draws0. Qed.
#[local] Hint Resolve draws_fromstring : draws.

Lemma draws_tostring : draws 0 tostring.
Proof. unfold tostring. draws0. Qed.

(** [replace_rect_with_etree] draws [doc_id] and [new_id]. *)
Lemma draws_replace tid tree : draws 2 (replace_rect_with_etree tid tree).
Proof.
  unfold replace_rect_with_etree.
  apply (draws_bind 0 2); [done|apply draws_get_by_id|intros e].
  apply (draws_bind 1 1); [done|apply draws_draw_uuid|intros doc_id]. cbv zeta.
  apply (draws_bind 0 1); [done|draws0|intros x].
  apply (draws_bind 0 1); [done|draws0|intros h].
  apply (draws_bind 0 1); [done|draws0|intros x'].
  apply (draws_bind 0 1); [done|draws0|intros w].
  apply (draws_bind 0 1); [done|draws0|intros [d|]]; [|apply draws_raise].
  apply (draws_bind 0 1); [done|draws0|intros _].
  apply (draws_bind 0 1); [done|draws0|intros _].
  apply (draws_bind 1 0); [done|apply draws_draw_uuid|intros new_id].
  draws0.
Qed.

Lemma draws_replace_bytes tid b : draws 2 (replace_rect_with_svg_bytes tid b).
Proof. unfold replace_rect_with_svg_bytes. apply (draws_bind 0 2); [done|draws0|intros ?; apply draws_replace]. Qed.

(** Every call draws a fixed number of identifiers. *)
Lemma draws_run_call c : exists k, draws k (run_call c).
Proof.
  destruct c; cbn [run_call].
  - exists 0. apply (draws_bind 0 0); [done|apply draws_get_by_id|intros; apply draws_ret].
  - exists 0. apply (draws_bind 0 0); [done|apply draws_get_defs|intros; apply draws_ret].
  - exists 2. apply draws_replace_bytes.
  - exists 2. apply draws_replace_bytes.
  - exists 0. apply draws_expunge.
  - exists 0. apply (draws_bind 0 0); [done|apply draws_tostring|intros; apply draws_ret].
Qed.

Lemma call_step_uuids s s' : call_step s s' -> st_uuids s <= st_uuids s'.
Proof. intros [c <-]. destruct (draws_run_call c) as [k Hk]. by apply (draws_le k). Qed.

(** The draw counter never decreases along calls. *)
Lemma calls_uuids s s' : rtc call_step s s' -> st_uuids s <= st_uuids s'.
Proof. induction 1 as [|s1 s2 s3 H12 _ IH]; [done|]. apply call_step_uuids in H12. lia. Qed.
End Methods.

Section Theorems.
Context `{Uuid} `{XPathEval} `{XmlCodec} `{FileSystem}.

Lemma drawn_ids_two s s' : st_uuids s' = st_uuids s + 2 -> drawn_ids s s' = [uuid4 (st_uuids s); uuid4 (S (st_uuids s))].
Proof. intros Hs. unfold drawn_ids. rewrite Hs. by replace (st_uuids s + 2 - st_uuids s) with 2 by lia. Qed.

(** C4 Fresh identifiers: a successful replacement draws two identifiers
    ([doc_id] for the fragment, [new_id] for the reference), and any later
    successful replacement, whatever was called in between and whether
    those calls returned or raised, draws two others: the four are
    distinct. *)
Theorem replacement_ids_fresh t1 v1 t2 v2 s s1 s2 s3 :
  run_call (CallReplaceString t1 v1) s = (s1, Ok tt) -> rtc call_step s1 s2 ->
  run_call (CallReplaceString t2 v2) s2 = (s3, Ok tt) ->
  drawn_ids s s1 = [uuid4 (st_uuids s); uuid4 (S (st_uuids s))]
  /\ drawn_ids s2 s3 = [uuid4 (st_uuids s2); uuid4 (S (st_uuids s2))]
  /\ NoDup (drawn_ids s s1 ++ drawn_ids s2 s3).
Proof.
  intros Hr1 Hr Hr3. cbn [run_call] in Hr1, Hr3.
  pose proof (draws_Ok 2 _ _ _ _ (draws_replace_bytes t1 v1) Hr1) as Hu1.
  pose proof (draws_Ok 2 _ _ _ _ (draws_replace_bytes t2 v2) Hr3) as Hu3.
  pose proof (calls_uuids _ _ Hr) as Hu2.
  rewrite !drawn_ids_two by done. split_and!; [done|done|].
  assert (Hl : [uuid4 (st_uuids s); uuid4 (S (st_uuids s))] ++ [uuid4 (st_uuids s2); uuid4 (S (st_uuids s2))]
               = uuid4 <$> [st_uuids s; S (st_uuids s); st_uuids s2; S (st_uuids s2)]) by done.
  rewrite Hl.
  apply NoDup_fmap_2; [apply uuid4_inj|]. repeat constructor; set_solver by lia.
Qed.
End Theorems.

Lemma replacement_ids_fresh_witness :
  drawn_ids two_slots_loaded (run_call (CallReplaceString "a" "<g/>") two_slots_loaded).1
  = [uuid4 (st_uuids two_slots_loaded); uuid4 (S (st_uuids two_slots_loaded))]
  /\ drawn_ids (run_call (CallReplaceString "a" "<g/>") two_slots_loaded).1
       (run_call (CallReplaceString "b" "<g/>") (run_call (CallReplaceString "a" "<g/>") two_slots_loaded).1).1
     = [uuid4 (st_uuids (run_call (CallReplaceString "a" "<g/>") two_slots_loaded).1);
        uuid4 (S (st_uuids (run_call (CallReplaceString "a" "<g/>") two_slots_loaded).1))]
  /\ NoDup (drawn_ids two_slots_loaded (run_call (CallReplaceString "a" "<g/>") two_slots_loaded).1
            ++ drawn_ids (run_call (CallReplaceString "a" "<g/>") two_slots_loaded).1
                 (run_call (CallReplaceString "b" "<g/>") (run_call (CallReplaceString "a" "<g/>") two_slots_loaded).1).1).
Proof.
  apply (replacement_ids_fresh "a" "<g/>" "b" "<g/>" two_slots_loaded _ (run_call (CallReplaceString "a" "<g/>") two_slots_loaded).1);
    [by_eval|apply rtc_refl|by_eval].
Defined.
