(* ===== verification/Prune.v ===== *)
(** * Prune: what [expunge_layout_elements] computes

    The removal loop of [Template.expunge_layout_elements] (svglue.py
    lines 136-145) against a declarative specification: the document
    without its marked elements ([prune_layout]).  The loop state after
    the marked elements [P] have been removed is described by [prune_set
    P]: the document and each removed element, as a detached tree, without
    the elements of [P].  The proof runs the loop one removal at a time
    on that description; the parent map computed before the loop stays
    valid because a parent keeps its identity, wherever it now lives. *)

From S2P Require Import Prelude Etree Template Layout Invariant.

(** The tree without the children whose identity is in [R], at every
    depth. *)
Fixpoint prune_set (R : list nat) (e : elem) : elem :=
  match e with
  | Elem i t a ks => Elem i t a (filter (fun k => e_oid k ∉ R) (prune_set R <$> ks))
  end.

(** The specification: the tree without its marked elements. *)
Fixpoint prune_layout (e : elem) : elem :=
  match e with
  | Elem i t a ks => Elem i t a (filter (fun k => ~ is_layout k) (prune_layout <$> ks))
  end.

(** [p] is the only parent of [c] in [X]. *)
Definition only_parent (c p : nat) (X : elem) : Prop :=
  forall y, y ∈ preorder X -> c ∈ e_oid <$> e_kids y -> e_oid y = p.

(** The elements [P] of [X] after the removal of [P]: the detached trees
    the loop leaves, in the order of removal. *)
Definition removed_trees (P : list nat) (X : elem) : list elem :=
  prune_set P <$> omap (fun c => find_elem c X) P.

(** The state of the loop of [expunge_layout_elements] started in [s0]
    once the elements [P] are removed. *)
Definition loop_state (s0 : state) (P : list nat) : state :=
  with_loose (st_loose s0 ++ removed_trees P (st_doc s0)) (with_doc (prune_set P (st_doc s0)) s0).

(** A template with a layout group holding a marked guide, and a marked
    guide inside a fragment appended to [defs]. *)
Definition nested_guides_doc : elem :=
  Elem 0 SVG_TAG []
    [Elem 1 "{http://www.w3.org/2000/svg}g" [(LABEL_ATTR, "layout")]
       [Elem 2 RECT_TAG [(LABEL_ATTR, "layout")] []; Elem 3 RECT_TAG [] []];
     Elem 4 DEFS_TAG [] [Elem 5 "{http://www.w3.org/2000/svg}g" [] [Elem 6 RECT_TAG [(LABEL_ATTR, "layout")] []]];
     Elem 7 RECT_TAG [("id", "slot")] []].

(** ** Lists *)

Lemma filter_fmap_ext {A B} (P Q : B -> Prop) `{!forall x, Decision (P x)} `{!forall x, Decision (Q x)}
    (f g : A -> B) (l : list A) :
  (forall x, x ∈ l -> P (f x) <-> Q (g x)) -> (forall x, x ∈ l -> Q (g x) -> f x = g x) ->
  filter P (f <$> l) = filter Q (g <$> l).
Proof.
  induction l as [|x l IH]; intros Hpq Hfg; [done|]. rewrite !fmap_cons, !filter_cons.
  assert (Hx : P (f x) <-> Q (g x)) by (apply Hpq; left).
  rewrite IH; [|intros y Hy; apply Hpq; by right|intros y Hy; apply Hfg; by right].
  case_decide; case_decide; [|naive_solver|naive_solver|done]. f_equal. apply Hfg; [left|done].
Qed.

Lemma filter_fmap_comm {A B} (P : B -> Prop) `{!forall x, Decision (P x)} (f : A -> B) (l : list A) :
  filter P (f <$> l) = f <$> filter (fun x => P (f x)) l.
Proof. induction l as [|x l IH]; [done|]. rewrite fmap_cons, !filter_cons, IH. by case_decide. Qed.

Lemma fmap_id_in {A} (f : A -> A) (l : list A) : (forall x, x ∈ l -> f x = x) -> f <$> l = l.
Proof. induction l as [|x l IH]; intros Hf; [done|]. rewrite fmap_cons, Hf, IH by set_solver. done. Qed.

Lemma NoDup_fmap_inj_in {A B} (f : A -> B) (l : list A) x y :
  NoDup (f <$> l) -> x ∈ l -> y ∈ l -> f x = f y -> x = y.
Proof.
  induction l as [|z l IH]; intros Hnd Hx Hy Hf; [by apply not_elem_of_nil in Hx|].
  rewrite fmap_cons in Hnd. apply NoDup_cons in Hnd as [Hz Hnd].
  apply elem_of_cons in Hx as [->|Hx]; apply elem_of_cons in Hy as [->|Hy]; try done.
  - destruct Hz. rewrite Hf. by apply list_elem_of_fmap_2.
  - destruct Hz. rewrite <- Hf. by apply list_elem_of_fmap_2.
  - by apply IH.
Qed.

(** A mutation of [o] in a forest with distinct identities touches the
    one tree that contains [o]. *)
Lemma update_first_oids o (u : elem -> elem) ts :
  NoDup (ts ≫= oids) ->
  update_first (fun k => bool_decide (o ∈ oids k)) u ts = (fun k => if bool_decide (o ∈ oids k) then u k else k) <$> ts.
Proof.
  induction ts as [|k ts IH]; [done|]. rewrite bind_cons. intros Hnd.
  apply NoDup_app in Hnd as (_ & Hdis & Hnd). simpl. case_bool_decide as Ho; [|by rewrite IH].
  f_equal. symmetry. apply fmap_id_in. intros x Hx. rewrite bool_decide_eq_false_2; [done|].
  intros Hox. by apply (Hdis o Ho), (elem_of_bind_oids o x).
Qed.

(** ** Trees *)

Lemma e_oid_prune R e : e_oid (prune_set R e) = e_oid e.
Proof. by destruct e. Qed.

Lemma preorder_Elem i t a ks : preorder (Elem i t a ks) = Elem i t a ks :: (ks ≫= preorder).
Proof. done. Qed.

Lemma preorder_trans X y z : y ∈ preorder X -> z ∈ preorder y -> z ∈ preorder X.
Proof.
  induction X as [i t a ks IH] using elem_ind. rewrite preorder_Elem, elem_of_cons.
  intros [->|Hy] Hz; [done|]. apply list_elem_of_bind in Hy as (k & Hy & Hk).
  rewrite Forall_forall in IH. right. apply list_elem_of_bind. exists k. split; [|done]. by apply (IH k Hk).
Qed.

Lemma kid_preorder X k : k ∈ e_kids X -> k ∈ preorder X.
Proof. destruct X as [i t a ks]. intros Hk. right. apply list_elem_of_bind. exists k. split; [|done]. by destruct k; left. Qed.

Lemma oids_prune_sublist R X : oids (prune_set R X) `sublist_of` oids X.
Proof.
  induction X as [i t a ks IH] using elem_ind. cbn [prune_set]. rewrite !oids_Elem. apply sublist_skip.
  induction IH as [|k ks Hk _ IHks]; [done|]. rewrite fmap_cons, filter_cons, bind_cons.
  case_decide; [rewrite bind_cons; by apply sublist_app|]. by apply sublist_inserts_l.
Qed.

Lemma NoDup_prune R X : NoDup (oids X) -> NoDup (oids (prune_set R X)).
Proof. intros Hnd. eapply sublist_NoDup; [exact Hnd|apply oids_prune_sublist]. Qed.

Lemma elem_of_oids_prune R X o : o ∈ oids (prune_set R X) -> o ∈ oids X.
Proof. apply sublist_subseteq, oids_prune_sublist. Qed.

Lemma preorder_prune_inv R X z : z ∈ preorder (prune_set R X) -> exists y, y ∈ preorder X /\ z = prune_set R y.
Proof.
  induction X as [i t a ks IH] using elem_ind. cbn [prune_set]. rewrite preorder_Elem, elem_of_cons.
  intros [->|Hz]; [exists (Elem i t a ks); split; [left|done]|].
  apply list_elem_of_bind in Hz as (k' & Hz & Hk'). apply list_elem_of_filter in Hk' as [_ Hk'].
  apply list_elem_of_fmap in Hk' as (k & -> & Hk). rewrite Forall_forall in IH.
  destruct (IH k Hk Hz) as (y & Hy & ->). exists y. split; [|done].
  right. apply list_elem_of_bind. by exists k.
Qed.

Lemma only_parent_kid c p i t a ks k :
  only_parent c p (Elem i t a ks) -> k ∈ ks -> only_parent c p k.
Proof. intros Hpar Hk y Hy. apply Hpar. right. apply list_elem_of_bind. by exists k. Qed.

Lemma only_parent_sub c p X y : only_parent c p X -> y ∈ preorder X -> only_parent c p y.
Proof. intros Hpar Hy z Hz. apply Hpar. by apply (preorder_trans X y z). Qed.

(** Removing [c] as well changes nothing where [c]'s parent is gone. *)
Lemma prune_no_parent R c p Y :
  only_parent c p Y -> p ∉ oids (prune_set R Y) -> prune_set (c :: R) Y = prune_set R Y.
Proof.
  induction Y as [i t a ks IH] using elem_ind. intros Hpar Hp. cbn [prune_set]. f_equal.
  assert (Hc : forall k, k ∈ ks -> e_oid k <> c).
  { intros k Hk Hkc. apply Hp. cbn [prune_set]. rewrite oids_Elem.
    rewrite <- (Hpar (Elem i t a ks)); [left|left|]. apply list_elem_of_fmap. by exists k. }
  rewrite Forall_forall in IH. apply filter_fmap_ext.
  - intros k Hk. rewrite !e_oid_prune, not_elem_of_cons. specialize (Hc k Hk). naive_solver.
  - intros k Hk Hkr. apply IH; [done|by eapply only_parent_kid|]. intros Hpk. apply Hp.
    cbn [prune_set]. rewrite oids_Elem. right. apply (elem_of_bind_oids p (prune_set R k)); [|done].
    apply list_elem_of_filter. split; [exact Hkr|by apply list_elem_of_fmap_2].
Qed.

Lemma bind_oids_filter_prune_sublist R (P : elem -> Prop) `{!forall x, Decision (P x)} ks :
  filter P (prune_set R <$> ks) ≫= oids `sublist_of` ks ≫= oids.
Proof.
  induction ks as [|k ks IH]; [done|]. rewrite fmap_cons, filter_cons, bind_cons.
  case_decide; [rewrite bind_cons; apply sublist_app; [apply oids_prune_sublist|done]|].
  by apply sublist_inserts_l.
Qed.

Lemma NoDup_bind_oids_in ks k : NoDup (ks ≫= oids) -> k ∈ ks -> NoDup (oids k).
Proof.
  intros Hnd Hk. apply list_elem_of_split in Hk as (l1 & l2 & ->).
  rewrite bind_app, bind_cons in Hnd. by apply NoDup_app in Hnd as (_ & _ & (? & _ & _)%NoDup_app).
Qed.

(** Removing the child [c] of [p] from a pruned tree prunes [c] too. *)
Lemma prune_update R c p X :
  NoDup (oids X) -> only_parent c p X -> p ∈ oids (prune_set R X) -> c ∉ R ->
  update_elem p (remove_kid c) (prune_set R X) = prune_set (c :: R) X.
Proof.
  induction X as [i t a ks IH] using elem_ind. intros Hnd Hpar Hp HcR.
  rewrite Forall_forall in IH. cbn [prune_set update_elem].
  rewrite oids_Elem in Hnd. apply NoDup_cons in Hnd as [Hi Hnd].
  assert (Hkid : forall k, k ∈ ks -> prune_set (c :: R) k = prune_set R k \/ p ∈ oids (prune_set R k)).
  { intros k Hk. destruct (decide (p ∈ oids (prune_set R k))); [by right|left].
    apply (prune_no_parent R c p); [by eapply only_parent_kid|done]. }
  case_decide as Hip.
  - subst i. cbn [remove_kid]. f_equal. rewrite list_filter_filter. apply filter_fmap_ext.
    + intros k Hk. rewrite !e_oid_prune, not_elem_of_cons. naive_solver.
    + intros k Hk _. destruct (Hkid k Hk) as [->|Hpk]; [done|].
      destruct Hi. apply (elem_of_bind_oids p k); [done|]. by apply (elem_of_oids_prune R).
  - f_equal. assert (Hc : forall k, k ∈ ks -> e_oid k <> c).
    { intros k Hk Hkc. apply Hip. apply (Hpar (Elem i t a ks)); [left|]. apply list_elem_of_fmap. by exists k. }
    rewrite update_first_oids; [|eapply sublist_NoDup; [exact Hnd|apply bind_oids_filter_prune_sublist]].
    rewrite !filter_fmap_comm, <- list_fmap_compose.
    rewrite (filter_ext_in (fun x => e_oid (prune_set (c :: R) x) ∉ c :: R) (fun x => e_oid (prune_set R x) ∉ R));
      [|intros k Hk; rewrite !e_oid_prune, not_elem_of_cons; specialize (Hc k Hk); naive_solver].
    apply list_fmap_ext. intros j k Hj. apply list_elem_of_lookup_2, list_elem_of_filter in Hj as [HkR Hk].
    unfold compose. case_bool_decide as Hpk.
    + apply IH; [done|by apply (NoDup_bind_oids_in ks)|by eapply only_parent_kid|done|done].
    + by destruct (Hkid k Hk) as [->|].
Qed.

(** ** Identities in a forest without duplicates *)

Lemma elem_of_oids_preorder o X : o ∈ oids X <-> exists y, y ∈ preorder X /\ e_oid y = o.
Proof. unfold oids. rewrite list_elem_of_fmap. naive_solver. Qed.

Lemma oids_preorder_sub X y o : y ∈ preorder X -> o ∈ oids y -> o ∈ oids X.
Proof.
  rewrite !elem_of_oids_preorder. intros Hy (z & Hz & <-). exists z. split; [|done]. by apply (preorder_trans X y).
Qed.

Lemma kid_oid_in X y k : y ∈ preorder X -> k ∈ e_kids y -> e_oid k ∈ oids X.
Proof.
  intros Hy Hk. apply (oids_preorder_sub X y); [done|].
  apply (oids_preorder_sub y k); [by apply kid_preorder|apply e_oid_elem_of_oids].
Qed.

(** Two trees of a forest without duplicates that share an identity are
    the same tree. *)
Lemma NoDup_bind_same ks k1 k2 o :
  NoDup (ks ≫= oids) -> k1 ∈ ks -> k2 ∈ ks -> o ∈ oids k1 -> o ∈ oids k2 -> k1 = k2.
Proof.
  induction ks as [|k ks IH]; intros Hnd Hk1 Hk2 Ho1 Ho2; [by apply not_elem_of_nil in Hk1|].
  rewrite bind_cons in Hnd. apply NoDup_app in Hnd as (_ & Hdis & Hnd).
  apply elem_of_cons in Hk1 as [->|Hk1], Hk2 as [->|Hk2]; [done| | |by apply IH].
  - destruct (Hdis o Ho1). by apply (elem_of_bind_oids o k2).
  - destruct (Hdis o Ho2). by apply (elem_of_bind_oids o k1).
Qed.

(** A child of a node below [k] is strictly below [k]'s root. *)
Lemma kid_below k y kc : y ∈ preorder k -> kc ∈ e_kids y -> e_oid kc ∈ e_kids k ≫= oids.
Proof.
  induction k as [i t a ks IH] using elem_ind. rewrite preorder_Elem, elem_of_cons. cbn [e_kids].
  intros [->|Hy] Hkc; [apply (elem_of_bind_oids _ kc); [done|apply e_oid_elem_of_oids]|].
  apply list_elem_of_bind in Hy as (k' & Hy & Hk'). rewrite Forall_forall in IH.
  apply (elem_of_bind_oids _ k'); [done|]. destruct k' as [i' t' a' ks']. rewrite oids_Elem.
  right. by apply (IH _ Hk').
Qed.

Lemma kid_not_root k y kc : NoDup (oids k) -> y ∈ preorder k -> kc ∈ e_kids y -> e_oid kc <> e_oid k.
Proof.
  intros Hnd Hy Hkc Heq. pose proof (kid_below k y kc Hy Hkc) as Hb. destruct k as [i t a ks].
  rewrite oids_Elem in Hnd. apply NoDup_cons in Hnd as [Hi _]. rewrite Heq in Hb. by apply Hi.
Qed.

Lemma kid_parent_root_sub i t a ks y1 y2 k1 k2 :
  NoDup (oids (Elem i t a ks)) -> y1 = Elem i t a ks -> y2 ∈ ks ≫= preorder ->
  k1 ∈ e_kids y1 -> k2 ∈ e_kids y2 -> e_oid k1 <> e_oid k2.
Proof.
  intros Hnd -> Hy2 Hk1 Hk2 Heq. rewrite oids_Elem in Hnd. apply NoDup_cons in Hnd as [_ Hnd].
  apply list_elem_of_bind in Hy2 as (k' & Hy2 & Hk'). cbn [e_kids] in Hk1.
  assert (k1 = k') as ->.
  { apply (NoDup_bind_same ks k1 k' (e_oid k1)); [done|done|done|apply e_oid_elem_of_oids|].
    rewrite Heq. by apply (kid_oid_in k' y2). }
  by apply (kid_not_root k' y2 k2); [by apply (NoDup_bind_oids_in ks)|done|done|].
Qed.

(** In a tree without duplicate identities an element has one parent. *)
Lemma kid_parent_unique X y1 y2 k1 k2 :
  NoDup (oids X) -> y1 ∈ preorder X -> y2 ∈ preorder X -> k1 ∈ e_kids y1 -> k2 ∈ e_kids y2 ->
  e_oid k1 = e_oid k2 -> e_oid y1 = e_oid y2.
Proof.
  induction X as [i t a ks IH] using elem_ind. intros Hnd Hy1 Hy2 Hk1 Hk2 Heq.
  rewrite preorder_Elem, elem_of_cons in Hy1, Hy2.
  destruct Hy1 as [Hy1|Hy1], Hy2 as [Hy2|Hy2]; [by subst| | |].
  - by destruct (kid_parent_root_sub i t a ks y1 y2 k1 k2).
  - by destruct (kid_parent_root_sub i t a ks y2 y1 k2 k1).
  - pose proof Hnd as Hnd'. rewrite oids_Elem in Hnd'. apply NoDup_cons in Hnd' as [_ Hnd'].
    apply list_elem_of_bind in Hy1 as (k' & Hy1 & Hk'), Hy2 as (k'' & Hy2 & Hk'').
    assert (k' = k'') as <-.
    { apply (NoDup_bind_same ks k' k'' (e_oid k1)); [done|done|done| |].
      - by apply (kid_oid_in k' y1).
      - rewrite Heq. by apply (kid_oid_in k'' y2). }
    rewrite Forall_forall in IH. apply (IH k' Hk'); try done. by apply (NoDup_bind_oids_in ks).
Qed.

Lemma bind_oids_preorder (ts : list elem) : ts ≫= oids = e_oid <$> (ts ≫= preorder).
Proof. induction ts as [|t ts IH]; [done|]. by rewrite !bind_cons, fmap_app, IH. Qed.

Lemma find_elem_preorder o e y : find_elem o e = Some y -> y ∈ preorder e.
Proof.
  revert y. induction e as [i t a ks IH] using elem_ind; intros y. simpl. case_decide; [intros [= <-]; left|].
  intros Hy. apply first_some_Some, list_elem_of_fmap in Hy as (k & Hk & Hin). rewrite Forall_forall in IH.
  right. apply list_elem_of_bind. exists k. split; [|done]. by apply IH.
Qed.

Lemma find_in_preorder o ts y : find_in o ts = Some y -> y ∈ ts ≫= preorder /\ e_oid y = o.
Proof.
  intros Hf. split; [|by eapply find_in_oid]. unfold find_in in Hf.
  apply first_some_Some, list_elem_of_fmap in Hf as (t & Ht & Hin).
  apply list_elem_of_bind. exists t. split; [|done]. by apply (find_elem_preorder o).
Qed.

(** In a forest without duplicates, the object [o] is the one node with
    identity [o]. *)
Lemma find_in_iff o ts y :
  NoDup (ts ≫= oids) -> find_in o ts = Some y <-> y ∈ ts ≫= preorder /\ e_oid y = o.
Proof.
  intros Hnd. split; [apply find_in_preorder|]. intros [Hy Ho].
  destruct (find_in o ts) as [y'|] eqn:Hf.
  - destruct (find_in_preorder o ts y' Hf) as [Hy' Ho']. f_equal.
    rewrite bind_oids_preorder in Hnd. apply (NoDup_fmap_inj_in e_oid (ts ≫= preorder)); [done|done|done|congruence].
  - apply list_elem_of_bind in Hy as (t & Hy & Ht). apply find_in_None with (t := t) in Hf; [|done].
    destruct Hf. apply elem_of_oids_preorder. eauto.
Qed.

Lemma find_elem_iff o X y : NoDup (oids X) -> find_elem o X = Some y <-> y ∈ preorder X /\ e_oid y = o.
Proof.
  intros Hnd. pose proof (find_in_iff o [X] y) as Hi. unfold find_in in Hi. cbn in Hi.
  rewrite !(right_id_L [] (++)) in Hi. destruct (find_elem o X); apply Hi; done.
Qed.

Lemma NoDup_preorder_inj X y1 y2 :
  NoDup (oids X) -> y1 ∈ preorder X -> y2 ∈ preorder X -> e_oid y1 = e_oid y2 -> y1 = y2.
Proof. intros Hnd. by apply (NoDup_fmap_inj_in e_oid). Qed.

Lemma parent_of_kid c X p :
  parent_of c X = Some p -> exists y kc, y ∈ preorder X /\ e_oid y = p /\ kc ∈ e_kids y /\ e_oid kc = c.
Proof.
  induction X as [i t a ks IH] using elem_ind. simpl. case_decide; [done|].
  intros Hp. apply first_some_Some, list_elem_of_fmap in Hp as (k & Hk & Hin).
  case_decide as Hkc.
  - injection Hk as Hip. subst p. exists (Elem i t a ks), k. split_and!; [left|done|done|done].
  - rewrite Forall_forall in IH. destruct (IH k Hin (eq_sym Hk)) as (y & kc & Hy & ?). exists y, kc. split; [|done].
    right. apply list_elem_of_bind. by exists k.
Qed.

Lemma only_parent_of c X p : NoDup (oids X) -> parent_of c X = Some p -> only_parent c p X.
Proof.
  intros Hnd Hp y Hy Hc. destruct (parent_of_kid c X p Hp) as (y' & kc & Hy' & <- & Hkc & Hc').
  apply list_elem_of_fmap in Hc as (kc' & Hc & Hkc'). apply (kid_parent_unique X y y' kc' kc); try done; congruence.
Qed.

Lemma first_some_is_Some {A} (l : list (option A)) x : Some x ∈ l -> is_Some (first_some l).
Proof. induction l as [|[y|] l IH]; intros Hx; [by apply not_elem_of_nil in Hx|by eexists|]. simpl. apply IH. set_solver. Qed.

(** Every element but the root has a parent. *)
Lemma parent_of_is_Some o X : o ∈ oids X -> o <> e_oid X -> is_Some (parent_of o X).
Proof.
  induction X as [i t a ks IH] using elem_ind. rewrite elem_of_oids_Elem. cbn [e_oid parent_of].
  intros [->|(k & Hk & Ho)] Hne; [done|]. rewrite decide_False by done.
  assert (Hx : exists x, (if decide (e_oid k = o) then Some i else parent_of o k) = Some x).
  { case_decide; [by eexists|]. rewrite Forall_forall in IH. destruct (IH k Hk Ho) as [x Hx]; [done|by exists x]. }
  destruct Hx as [x Hx]. apply (first_some_is_Some _ x). apply list_elem_of_fmap. exists k. by split.
Qed.

(** The child [c] of a node, after pruning that keeps [c]. *)
Lemma child_of_prune R y kc c :
  NoDup (oids y) -> kc ∈ e_kids y -> e_oid kc = c -> c ∉ R -> child_of c (prune_set R y) = Some (prune_set R kc).
Proof.
  destruct y as [i t a ks]. cbn [e_kids prune_set]. unfold child_of. cbn [e_kids].
  rewrite oids_Elem. intros [_ Hnd]%NoDup_cons Hkc Hc HcR.
  induction ks as [|k ks IHks]; [by apply not_elem_of_nil in Hkc|].
  pose proof Hnd as Hnd'. rewrite bind_cons in Hnd'. apply NoDup_app in Hnd' as (_ & _ & Hnd').
  rewrite fmap_cons, filter_cons. destruct (decide (e_oid k = c)) as [Hk|Hk].
  - assert (k = kc) as ->.
    { apply (NoDup_bind_same (k :: ks) k kc c); [done|left|done|rewrite <- Hk; apply e_oid_elem_of_oids|rewrite <- Hc; apply e_oid_elem_of_oids]. }
    rewrite decide_True by (rewrite e_oid_prune; congruence). cbn. by rewrite decide_True by (rewrite e_oid_prune; done).
  - apply elem_of_cons in Hkc as [->|Hkc]; [done|].
    case_decide; [cbn; rewrite decide_False by (rewrite e_oid_prune; done)|]; by apply IHks.
Qed.

Lemma NoDup_preorder_sub X y : NoDup (oids X) -> y ∈ preorder X -> NoDup (oids y).
Proof.
  intros Hnd Hy. apply (find_in_NoDup (e_oid y) [X]); [|cbn; by rewrite (right_id_L [] (++))].
  unfold find_in. cbn. by rewrite (proj2 (find_elem_iff (e_oid y) X y Hnd)) by done.
Qed.

Lemma prune_set_ext R R' X : (forall x, x ∈ R <-> x ∈ R') -> prune_set R X = prune_set R' X.
Proof.
  intros HR. induction X as [i t a ks IH] using elem_ind. cbn [prune_set]. f_equal. rewrite Forall_forall in IH.
  apply filter_fmap_ext; intros k Hk; [rewrite !e_oid_prune; naive_solver|]. intros _. by apply IH.
Qed.

(** ** One removal of the loop *)

Section Loop.
Context `{Uuid} `{XPathEval}.
Variable s0 : state.
Hypothesis Hnd0 : NoDup (st_oids s0).

Lemma NoDup_doc0 : NoDup (oids (st_doc s0)).
Proof. pose proof Hnd0 as Hnd. unfold st_oids in Hnd. rewrite bind_cons in Hnd. by apply NoDup_app in Hnd as (? & _ & _). Qed.

Lemma doc0_loose0_disjoint o T : o ∈ oids (st_doc s0) -> T ∈ st_loose s0 -> o ∉ oids T.
Proof.
  intros Ho HT HoT. pose proof Hnd0 as Hnd. unfold st_oids in Hnd. rewrite bind_cons in Hnd.
  apply NoDup_app in Hnd as (_ & Hdis & _). apply (Hdis o Ho). by apply (elem_of_bind_oids o T).
Qed.

Lemma loop_trees P :
  st_doc (loop_state s0 P) :: st_loose (loop_state s0 P)
  = prune_set P (st_doc s0) :: st_loose s0 ++ (prune_set P <$> omap (fun c => find_elem c (st_doc s0)) P).
Proof. done. Qed.

Lemma removed_preorder (P : list nat) Y : Y ∈ omap (fun c => find_elem c (st_doc s0)) P -> Y ∈ preorder (st_doc s0).
Proof. intros (c & _ & HY)%list_elem_of_omap. by apply (find_elem_preorder c). Qed.

(** The parent [p] of [c], wherever it lives in the loop state, is the
    pruned original node, and [c] is still its child. *)
Lemma locate_parent P c p :
  NoDup (st_oids (loop_state s0 P)) -> p ∈ st_oids (loop_state s0 P) -> parent_of c (st_doc s0) = Some p ->
  exists y kc, st_find p (loop_state s0 P) = Some (prune_set P y) /\ y ∈ preorder (st_doc s0) /\
               e_oid y = p /\ kc ∈ e_kids y /\ e_oid kc = c.
Proof.
  intros Hnd Hp Hpar. destruct (parent_of_kid c _ p Hpar) as (y & kc & Hy & Hyp & Hkc & Hc).
  exists y, kc. split_and!; try done.
  apply st_find_Some_iff in Hp as [z Hz]. pose proof Hz as Hz'.
  unfold st_find, st_oids in *. apply find_in_iff in Hz' as [Hzin Hzp]; [|done].
  rewrite loop_trees in Hzin. apply list_elem_of_bind in Hzin as (T & HzT & HT).
  assert (exists Y, Y ∈ preorder (st_doc s0) /\ T = prune_set P Y) as (Y & HY & ->).
  { apply elem_of_cons in HT as [->|HT]; [exists (st_doc s0); split; [by destruct (st_doc s0); left|done]|].
    apply elem_of_app in HT as [HT|HT].
    - exfalso. apply (doc0_loose0_disjoint p T); [rewrite <- Hyp; by apply elem_of_oids_preorder; eauto|done|].
      apply elem_of_oids_preorder. eauto.
    - apply list_elem_of_fmap in HT as (Y & -> & HY). exists Y. split; [by apply (removed_preorder P)|done]. }
  apply preorder_prune_inv in HzT as (y' & Hy' & ->). rewrite Hz. f_equal. f_equal.
  apply (NoDup_preorder_inj (st_doc s0)); [apply NoDup_doc0|by apply (preorder_trans _ Y)|done|].
  rewrite <- e_oid_prune with (R := P). congruence.
Qed.
Lemma parent_notin_kid y kc :
  y ∈ preorder (st_doc s0) -> kc ∈ e_kids y -> e_oid y ∉ oids kc.
Proof.
  intros Hy Hkc Hin. pose proof NoDup_doc0 as Hnd.
  assert (Hkc0 : kc ∈ preorder (st_doc s0)) by (apply (preorder_trans _ y); [done|by apply kid_preorder]).
  apply elem_of_oids_preorder in Hin as (z & Hz & Hzy).
  assert (z = y) as -> by (apply (NoDup_preorder_inj (st_doc s0)); [done|by apply (preorder_trans _ kc)|done|done]).
  by apply (kid_not_root kc y kc); [apply (NoDup_preorder_sub (st_doc s0))|..].
Qed.

(** One tree of the loop state after the removal of [c] from its parent. *)
Lemma prune_step_tree P c p Y :
  Y ∈ preorder (st_doc s0) -> c ∉ P -> parent_of c (st_doc s0) = Some p ->
  (if bool_decide (p ∈ oids (prune_set P Y)) then update_elem p (remove_kid c) (prune_set P Y) else prune_set P Y)
  = prune_set (c :: P) Y.
Proof.
  intros HY HcP Hpar. pose proof NoDup_doc0 as Hnd.
  assert (Hop : only_parent c p Y) by (apply (only_parent_sub c p (st_doc s0)); [by apply only_parent_of|done]).
  case_bool_decide; [apply prune_update; [by apply (NoDup_preorder_sub (st_doc s0))|done|done|done]|].
  symmetry. by apply (prune_no_parent P c p).
Qed.

Lemma update_loop_trees P c p :
  NoDup (st_oids (loop_state s0 P)) -> c ∉ P -> parent_of c (st_doc s0) = Some p ->
  update_in p (remove_kid c) (st_doc (loop_state s0 P) :: st_loose (loop_state s0 P))
  = prune_set (c :: P) (st_doc s0) :: st_loose s0 ++ (prune_set (c :: P) <$> omap (fun c => find_elem c (st_doc s0)) P).
Proof.
  intros Hnd HcP Hpar. unfold update_in. rewrite update_first_oids by done. rewrite loop_trees.
  rewrite fmap_cons, fmap_app, <- list_fmap_compose. f_equal; [apply prune_step_tree; [by destruct (st_doc s0); left|done|done]|].
  f_equal.
  - apply fmap_id_in. intros T HT. rewrite bool_decide_eq_false_2; [done|].
    apply (doc0_loose0_disjoint p T); [by eapply parent_of_in|done].
  - apply list_fmap_ext. intros j Y HY. apply prune_step_tree; [|done|done].
    apply (removed_preorder P). by eapply list_elem_of_lookup_2.
Qed.

(** The removal of [c] from its parent [p] takes the loop from [P] to
    [P ++ [c]]. *)
Lemma remove_step P c p :
  NoDup (st_oids (loop_state s0 P)) -> p ∈ st_oids (loop_state s0 P) -> c ∉ P ->
  parent_of c (st_doc s0) = Some p ->
  remove_child p c (loop_state s0 P) = (loop_state s0 (P ++ [c]), Ok tt).
Proof.
  intros Hnd Hp HcP Hpar. pose proof NoDup_doc0 as Hnd0'.
  destruct (locate_parent P c p Hnd Hp Hpar) as (y & kc & Hz & Hy & Hyp & Hkc & Hc).
  assert (Hkc0 : kc ∈ preorder (st_doc s0)) by (apply (preorder_trans _ y); [done|by apply kid_preorder]).
  assert (Hfind : find_elem c (st_doc s0) = Some kc) by (by apply find_elem_iff).
  unfold remove_child. py_step (load_elem_found p _ _ Hz).
  rewrite (child_of_prune P y kc c); [|by apply (NoDup_preorder_sub (st_doc s0))|done|done|done].
  py_step (mutate_run p (remove_kid c) (loop_state s0 P)). py_unfold.
  rewrite st_update_alt, update_loop_trees by done.
  assert (Hkc' : prune_set P kc = prune_set (c :: P) kc).
  { symmetry. apply (prune_no_parent P c p).
    - apply (only_parent_sub c p (st_doc s0)); [by apply only_parent_of|done].
    - intros Hin. apply (parent_notin_kid y kc); [done|done|]. rewrite Hyp. by apply (elem_of_oids_prune P). }
  unfold loop_state, removed_trees. rewrite omap_app. cbn [omap list_omap]. rewrite Hfind.
  rewrite (prune_set_ext (P ++ [c]) (c :: P)) by set_solver.
  rewrite (list_fmap_ext (prune_set (P ++ [c])) (prune_set (c :: P))) by (intros; apply prune_set_ext; set_solver).
  rewrite fmap_app, Hkc'. unfold modify, with_loose, with_doc. cbn [st_kind st_doc st_loose st_tid_cache st_defs st_uuids st_next]. by rewrite <- (assoc_L (++)).
Qed.
Lemma remove_child_perm p c s s' :
  NoDup (st_oids s) -> remove_child p c s = (s', Ok tt) -> st_oids s' ≡ₚ st_oids s.
Proof.
  intros Hnd. unfold remove_child. destruct (st_find p s) as [x|] eqn:Hx; [|assert (Hl : load_elem p s = (s, Raise (ValueError "dangling element reference"))) by (unfold load_elem; py_unfold; by rewrite Hx); by py_step Hl].
  py_step (load_elem_found p s x Hx). destruct (child_of c x) as [k|] eqn:Hk; [|done].
  py_step (mutate_run p (remove_kid c) s). intros [= <-]. by apply (st_oids_detach p c s x k).
Qed.

(** The loop over the parent map, from the removal of [P] on. *)
Lemma expunge_loop P rest :
  NoDup (P ++ rest) -> (forall c, c ∈ rest -> is_Some (parent_of c (st_doc s0))) ->
  st_oids (loop_state s0 P) ≡ₚ st_oids s0 ->
  for_each (fun op => match op.2 with
                      | Some p => remove_child p op.1
                      | None => raise (AttributeError "'NoneType' object has no attribute 'remove'")
                      end) ((fun o => (o, parent_of o (st_doc s0))) <$> rest) (loop_state s0 P)
  = (loop_state s0 (P ++ rest), Ok tt).
Proof.
  revert P. induction rest as [|c rest IH]; intros P Hnd Hpar Hperm; [by rewrite (right_id_L [] (++))|].
  destruct (Hpar c ltac:(left)) as [p Hp]. rewrite fmap_cons. cbn [for_each fst snd]. rewrite Hp.
  assert (HndP : NoDup (st_oids (loop_state s0 P))) by (by rewrite Hperm).
  assert (HcP : c ∉ P).
  { intros HcP. apply NoDup_app in Hnd as (_ & Hdis & _). apply (Hdis c HcP). left. }
  assert (Hs : remove_child p c (loop_state s0 P) = (loop_state s0 (P ++ [c]), Ok tt)).
  { apply remove_step; [done| |done|done]. rewrite Hperm. apply elem_of_st_oids_doc. by eapply parent_of_in. }
  py_step Hs. rewrite IH; [by rewrite <- (assoc_L (++))|by rewrite <- (assoc_L (++))|intros; apply Hpar; by right|].
  by rewrite (remove_child_perm p c _ _ HndP Hs).
Qed.
End Loop.

(** ** The removal loop against the specification *)

Lemma prune_set_nil X : prune_set [] X = X.
Proof.
  induction X as [i t a ks IH] using elem_ind. cbn [prune_set]. f_equal. rewrite Forall_forall in IH.
  rewrite filter_all; [|intros k _; apply not_elem_of_nil]. apply fmap_id_in. done.
Qed.

Lemma loop_state_nil s : loop_state s [] = s.
Proof. unfold loop_state, removed_trees. cbn. rewrite prune_set_nil, (right_id_L [] (++)). by destruct s. Qed.

Lemma is_layout_prune_layout k : is_layout (prune_layout k) <-> is_layout k.
Proof. by destruct k. Qed.

(** Pruning the elements [R] is pruning the marked elements when [R]
    names exactly the marked ones. *)
Lemma prune_set_layout R X :
  (forall y, y ∈ preorder X -> e_oid y ∈ R <-> is_layout y) -> prune_set R X = prune_layout X.
Proof.
  induction X as [i t a ks IH] using elem_ind. intros HR. cbn [prune_set prune_layout]. f_equal.
  rewrite Forall_forall in IH.
  assert (Hk : forall k, k ∈ ks -> forall y, y ∈ preorder k -> e_oid y ∈ R <-> is_layout y).
  { intros k Hk y Hy. apply HR. right. apply list_elem_of_bind. by exists k. }
  apply filter_fmap_ext.
  - intros k Hkin. rewrite e_oid_prune, is_layout_prune_layout, (Hk k Hkin k); [done|by destruct k; left].
  - intros k Hkin _. by apply IH, Hk.
Qed.

Lemma layout_query_iff X y :
  NoDup (oids X) -> y ∈ preorder X -> e_oid y ∈ layout_query X <-> is_layout y.
Proof.
  intros Hnd Hy. unfold layout_query. rewrite list_elem_of_fmap. split.
  - intros (y' & Heq & Hy'). apply list_elem_of_filter in Hy' as [Hl Hy'].
    by rewrite (NoDup_preorder_inj X y y') by done.
  - intros Hl. exists y. split; [done|]. by apply list_elem_of_filter.
Qed.

Lemma layout_query_NoDup X : NoDup (oids X) -> NoDup (layout_query X).
Proof.
  intros Hnd. eapply sublist_NoDup; [exact Hnd|]. unfold layout_query, oids.
  apply fmap_sublist, sublist_filter.
Qed.

Section Theorems.
Context `{Uuid} `{XPathEval}.

(** C11 Equivalence of the removal loop with the declarative pruning: in a
    state without duplicate identities whose root is not marked,
    [expunge_layout_elements] returns, its document is the document
    without its marked elements ([prune_layout]), and every marked
    element lives on, pruned itself, as a detached tree, in document
    order.  Marked elements inside fragments appended to [defs] are
    removed as well: the query runs over the whole document. *)
Theorem expunge_prunes s :
  NoDup (st_oids s) -> ~ is_layout (st_doc s) ->
  expunge_layout_elements s =
  (with_loose (st_loose s ++ (prune_layout <$> omap (fun c => find_elem c (st_doc s)) (layout_query (st_doc s))))
              (with_doc (prune_layout (st_doc s)) s), Ok tt).
Proof.
  intros Hnd Hroot. pose proof (NoDup_doc0 s Hnd) as Hnd'. unfold expunge_layout_elements. py_unfold.
  pose proof (expunge_loop s Hnd [] (layout_query (st_doc s))) as Hl. rewrite loop_state_nil in Hl.
  rewrite Hl; [|by apply layout_query_NoDup| |done].
  - unfold loop_state, removed_trees. rewrite prune_set_layout; [|intros y Hy; by apply layout_query_iff].
    f_equal. f_equal. f_equal. apply list_fmap_ext. intros j Y HY%list_elem_of_lookup_2.
    apply prune_set_layout. intros y Hy. apply layout_query_iff; [done|]. apply (preorder_trans _ Y); [|done].
    by apply (removed_preorder s (layout_query (st_doc s))).
  - intros c Hc. apply parent_of_is_Some.
    + unfold layout_query in Hc. apply list_elem_of_fmap in Hc as (y & -> & Hy). apply list_elem_of_filter in Hy as [_ Hy].
      apply elem_of_oids_preorder. eauto.
    + intros Hcr. apply Hroot. apply (layout_query_iff (st_doc s) (st_doc s)); [done|by destruct (st_doc s); left|]. by rewrite <- Hcr.
Qed.
End Theorems.

Lemma expunge_prunes_witness :
  expunge_layout_elements (fresh_state FromString nested_guides_doc 8)
  = (with_loose ([] ++ (prune_layout <$> omap (fun c => find_elem c nested_guides_doc) (layout_query nested_guides_doc)))
       (with_doc (prune_layout nested_guides_doc) (fresh_state FromString nested_guides_doc 8)), Ok tt).
Proof. apply expunge_prunes; by_eval. Defined.
