(* ===== verification/Svg.v ===== *)
(** * Svg: the front end of [src/svgcomposer/svg.py]

    The module's functions on the state of the process ([proc]): the
    [Template] state of [Template] (object identities, uuid draws), the
    disk cache [cache = Cache(__name__)] (line 12) as a map from keys to
    values with their expiry time, the clock and the switch
    [__CACHE_DISABLED] (14).

    - [get_or_compute] (100-114) with the key of
      [diskcache.core.args_to_key] (base, positional arguments, [None],
      sorted keyword items);
    - [_svgs_into_svg_string] (28-33), which memoises
      [render_svg_string], and [interpolate_svg_to_string] (36-61): the
      missing-input check, reading the template file, the literal
      [str.replace] loop, [str.format] and the memoised rendering;
    - rasterisation: [svg_string_to_pil] (82-83) memoises
      [_svg_string_to_pil] (86-90), whose cairosvg call is the interface
      [Rasteriser]; [interpolate_svg] (64-79) and [constant_svg] (21-25);
    - [empty_svg_string] (17-18).

    The one cache holds strings and images ([pyval]); the theorems show
    that each function name's entries keep its kind of value, through an
    invariant of the cache that every entry point keeps
    ([Section CacheInvariant]).  The entry points of the package are the
    calls [api_call]; with the clock advancing ([tick]) they generate the
    reachable process states [preach], in which no entry outlives a day. *)

From Stdlib Require Import NArith.
From stdpp Require Import sorting.
From S2P Require Import Prelude Etree Xml PyStr Template Replace Layout Render Invariant.

Definition empty_svg_string : string := "<svg></svg>".

(** ** Python values *)

(** [Image.open(f)] of the PNG bytes cairosvg wrote to [f]. *)
Record pil_image := PilImage { img_png : string }.

(** What [get_or_compute] returns and the cache stores: the SVG text of
    [render_svg_string] or the image of [_svg_string_to_pil]. *)
Inductive pyval := VStr (s : string) | VImage (img : pil_image).

(** The items of a cache key: strings (bytes), an image passed as an
    argument (pickled), the separator [None] and the dictionary of
    replacements (pickled in its iteration order). *)
Inductive keyatom := KStr (s : string) | KImage (png : string) | KNone | KDict (items : list (string * string)).

#[export] Instance pil_image_eq_dec : EqDecision pil_image.
Proof. solve_decision. Defined.
#[export] Instance pyval_eq_dec : EqDecision pyval.
Proof. solve_decision. Defined.
#[export] Instance keyatom_eq_dec : EqDecision keyatom.
Proof. solve_decision. Defined.
#[export] Instance keyatom_countable : Countable keyatom.
Proof.
  refine (inj_countable'
    (fun k => match k with KStr s => inl (inl s) | KImage s => inl (inr s) | KNone => inr (inl tt) | KDict d => inr (inr d) end)
    (fun c => match c with inl (inl s) => KStr s | inl (inr s) => KImage s | inr (inl _) => KNone | inr (inr d) => KDict d end) _).
  by intros [].
Defined.

Abbreviation cache_key := (list keyatom).

(** An argument as a key item. *)
Definition key_of (v : pyval) : keyatom :=
  match v with VStr s => KStr s | VImage i => KImage (img_png i) end.

(** [sorted(kwargs.items())]: the names are distinct, so the items are
    ordered by name. *)
Definition kw_le (a b : string * keyatom) : Prop := String.leb a.1 b.1 = true.
#[export] Instance kw_le_dec : RelDecision kw_le := fun a b => decide (String.leb a.1 b.1 = true).

(** [args_to_key(base, args, kwargs, typed=False, ignore=[])] *)
Definition args_to_key (base args : list keyatom) (kwargs : list (string * keyatom)) : cache_key :=
  base ++ args ++ [KNone] ++ (merge_sort kw_le kwargs ≫= fun kv => [KStr kv.1; kv.2]).

(** ** The cache switch *)

Definition CACHE_ENV : string := "DECK_SVG_CACHE_DISABLED".

(** [os.environ.get("DECK_SVG_CACHE_DISABLED", 0)] used as a condition:
    the default [0] is false, an environment value (a string) is true
    unless it is empty. *)
Definition cache_disabled (env : gmap string string) : bool :=
  match env !! CACHE_ENV with
  | Some v => bool_decide (v <> "")
  | None => false
  end.

(** ** The process state *)

(** [expire=3600*24], in seconds; times are [N]. *)
Definition EXPIRE : N := 3600 * 24.

Record proc := mk_proc {
  p_tpl : state;                            (** the Template objects and counters *)
  p_cache : gmap cache_key (pyval * N);     (** value and expiry time of each entry *)
  p_now : N;                                (** the clock, in seconds *)
  p_disabled : bool                         (** [__CACHE_DISABLED] *)
}.

Definition with_tpl (t : state) (p : proc) : proc := mk_proc t (p_cache p) (p_now p) (p_disabled p).
Definition with_pcache (c : gmap cache_key (pyval * N)) (p : proc) : proc :=
  mk_proc (p_tpl p) c (p_now p) (p_disabled p).

Abbreviation ProcM := (PyM proc).

(** A [Template] computation run on the process state. *)
Definition lift_tpl {A} (m : TplM A) : ProcM A :=
  fun p => let '(t, r) := m (p_tpl p) in (with_tpl t p, r).

(** [cache.get(key, default=ENOVAL)]: an entry is served until its expiry
    time. *)
Definition cache_get (p : proc) (k : cache_key) : option pyval :=
  match p_cache p !! k with
  | Some (v, t) => if decide (p_now p < t)%N then Some v else None
  | None => None
  end.

(** [cache.set(key, result, expire=3600*24)] *)
Definition cache_set (k : cache_key) (v : pyval) (p : proc) : proc :=
  with_pcache (<[k := (v, p_now p + EXPIRE)%N]> (p_cache p)) p.

(** cairosvg: [Tree(bytestring=...)] and [PNGSurface(tree, f,
    dpi=96).finish()] give the PNG bytes of an SVG text, or raise on a
    text they cannot read. *)
Class Rasteriser := { svg_to_png : string -> outcome string }.

Section Front.
Context `{Uuid} `{XPathEval} `{XmlCodec} `{FileSystem} `{FormatField} `{Rasteriser}.

(** [get_or_compute(func, ...)] for a function named [name]: [func] is
    the call of the function on the arguments; a raised exception is not
    cached. *)
Definition get_or_compute (name : string) (func : ProcM pyval)
    (args : list keyatom) (kwargs : list (string * keyatom)) : ProcM pyval :=
  p <- get ;;
  if p_disabled p then func
  else
    let key := args_to_key [KStr name] args kwargs in
    match cache_get p key with
    | Some v => ret v
    | None =>
        result <- func ;;
        modify (cache_set key result) ;;
        ret result
    end.

(** [_svgs_into_svg_string(txt, replacements)]: [Template.render_svg_string]
    has the [__name__] ["render_svg_string"]. *)
Definition _svgs_into_svg_string (txt : string) (replacements : list (string * string)) : ProcM pyval :=
  get_or_compute "render_svg_string"
    (r <- lift_tpl (render_svg_string (Some txt) None replacements true) ;; ret (VStr r))
    [] [("src", KStr txt); ("replacements", KDict replacements)].

(** A Python string as a condition. *)
Definition truthy (s : option string) : bool :=
  match s with Some v => bool_decide (v <> "") | None => false end.

(** [with open(path) as f: ... = f.read()] *)
Definition open_read (path : string) : ProcM string :=
  match read_file path with
  | Some txt => ret txt
  | None => raise (OSError ("[Errno 2] No such file or directory: '" +:+ path +:+ "'"))
  end.

(** [for (lit_src, lit_sub) in literal_replacements.items(): string =
    string.replace(lit_src, lit_sub)] *)
Definition literal_replace (txt : string) (literal_replacements : list (string * string)) : string :=
  foldl (fun s r => str_replace s r.1 r.2) txt literal_replacements.

(** [string.format] with the text replacements as keyword arguments, and
    the memoised rendering. *)
Definition after_format (txt : string) (lits : list (string * string)) (kw : gmap string string)
    (svgs : list (string * string)) : ProcM pyval :=
  t <- lift (py_format (literal_replace txt lits) kw) ;;
  _svgs_into_svg_string t svgs.

(** [interpolate_svg_to_string]; [None] for the dictionaries is [{}], so
    they are given as their items (the literal ones in iteration order,
    which [str.replace] depends on).  The parameter [string] is [str_arg],
    since [string] names the type. *)
Definition interpolate_svg_to_string (filepath str_arg : option string)
    (literal_replacements : list (string * string)) (text_replacements : gmap string string)
    (svg_replacements : list (string * string)) : ProcM pyval :=
  if negb (truthy filepath) && negb (truthy str_arg) then
    raise (TypeError "Need to provide either 'filepath' or 'string'")
  else
    txt <- (match filepath, truthy str_arg with
            | Some f, false => open_read f
            | _, _ => ret (default "" str_arg)
            end) ;;
    after_format txt literal_replacements text_replacements svg_replacements.

(** [_svg_string_to_pil(svg)]: [svg.encode] needs a string. *)
Definition _svg_string_to_pil (svg : pyval) : ProcM pyval :=
  match svg with
  | VStr s => png <- lift (svg_to_png s) ;; ret (VImage (PilImage png))
  | VImage _ => raise (AttributeError "'PngImageFile' object has no attribute 'encode'")
  end.

(** [svg_string_to_pil(svg)] *)
Definition svg_string_to_pil (svg : pyval) : ProcM pyval :=
  get_or_compute "_svg_string_to_pil" (_svg_string_to_pil svg) [key_of svg] [].

(** [interpolate_svg]: the image of the interpolated text. *)
Definition interpolate_svg (filepath str_arg : option string)
    (literal_replacements : list (string * string)) (text_replacements : gmap string string)
    (svg_replacements : list (string * string)) : ProcM pyval :=
  v <- interpolate_svg_to_string filepath str_arg literal_replacements text_replacements svg_replacements ;;
  svg_string_to_pil v.

(** [constant_svg(path)]: the image of the file's text, and the function
    [lambda _: pil] that returns it whatever its argument. *)
Definition constant_svg (path : string) : ProcM (pyval -> pyval) :=
  svg_data <- open_read path ;;
  pil <- svg_string_to_pil (VStr svg_data) ;;
  ret (fun _ => pil).

(** The package's entry points ([__init__.py] re-exports [empty_svg_string],
    [constant_svg], [interpolate_svg_to_string] and [svg_string_to_pil];
    [interpolate_svg] is public in [svg.py]). *)
Inductive api_call :=
  | CallEmptySvgString
  | CallConstantSvg (path : string)
  | CallInterpolateSvgToString (filepath str_arg : option string) (literal_replacements : list (string * string))
      (text_replacements : gmap string string) (svg_replacements : list (string * string))
  | CallInterpolateSvg (filepath str_arg : option string) (literal_replacements : list (string * string))
      (text_replacements : gmap string string) (svg_replacements : list (string * string))
  | CallSvgStringToPil (svg : pyval).

(** The process state after a call, returning or raising. *)
Definition api_state (c : api_call) (p : proc) : proc :=
  match c with
  | CallEmptySvgString => p
  | CallConstantSvg path => (constant_svg path p).1
  | CallInterpolateSvgToString fp s lits kw svgs => (interpolate_svg_to_string fp s lits kw svgs p).1
  | CallInterpolateSvg fp s lits kw svgs => (interpolate_svg fp s lits kw svgs p).1
  | CallSvgStringToPil svg => (svg_string_to_pil svg p).1
  end.

(** The clock advancing by [d] seconds. *)
Definition tick (d : N) (p : proc) : proc := mk_proc (p_tpl p) (p_cache p) (p_now p + d) (p_disabled p).

(** Every entry expires at most a day from now, as the entries [cache.set]
    stores do. *)
Definition expiry_bounded (p : proc) : Prop := map_Forall (fun _ vt => (vt.2 <= p_now p + EXPIRE)%N) (p_cache p).

(** The process states reachable from a start whose disk cache was written
    in the past, by calls of the entry points and the passing of time. *)
Inductive preach : proc -> Prop :=
  | preach_start p : expiry_bounded p -> preach p
  | preach_tick p d : preach p -> preach (tick d p)
  | preach_call p c : preach p -> preach (api_state c p).
End Front.

(** The kind of value each memoised function returns. *)
Definition fits (k : cache_key) (v : pyval) : bool :=
  match k, v with
  | KStr n :: _, VImage _ => negb (bool_decide (n = "render_svg_string"))
  | KStr n :: _, VStr _ => negb (bool_decide (n = "_svg_string_to_pil"))
  | _, _ => true
  end.

(** Every entry of the cache holds the kind of value of its function. *)
Definition cache_typed (p : proc) : Prop := map_Forall (fun k vt => fits k vt.1 = true) (p_cache p).

(** The result of a run from a typed cache: the cache is still typed and
    a returned value satisfies [Q]. *)
Definition typed_outcome {A} (Q : A -> Prop) (r : proc * outcome A) : Prop :=
  match r with (p', Ok v) => cache_typed p' /\ Q v | (p', Raise _) => cache_typed p' end.

(** The cache serves [G k] for every valid entry [k]: [G] is what the
    memoised functions compute. *)
Definition cache_coherent (G : cache_key -> pyval) (p : proc) : Prop :=
  forall k v, cache_get p k = Some v -> v = G k.

(** A braced field in a template: a field name [k]. *)
Definition field_name_ok (k : list ascii) : Prop :=
  k <> [] /\ Forall (fun c => name_end c = false) k /\ forallb is_digit k = false.

(** A rasteriser for running the model: the "PNG" is the text. *)
#[export] Instance text_rasteriser : Rasteriser := {| svg_to_png svg := Ok ("PNG:" +:+ svg) |}.

(** A template in the SVG namespace with a [defs] element and one
    placeholder. *)
Definition defs_src : string :=
  "<svg xmlns='http://www.w3.org/2000/svg' xmlns:xlink='http://www.w3.org/1999/xlink'><defs/><rect id='slot' x='1' height='10' width='10'/></svg>".

(** Processes for running the model: a fresh [Template] state, an empty
    cache at time 0, the cache on or off. *)
Definition proc0 : proc := mk_proc (fresh_state FromString slot_doc 0) ∅ 0 false.
Definition proc_nocache : proc := mk_proc (fresh_state FromString slot_doc 0) ∅ 0 true.

(** ** Theorems *)

Section Running.
Context `{Uuid} `{XPathEval} `{XmlCodec} `{FileSystem} `{FormatField} `{Rasteriser}.
Lemma get_or_compute_disabled n f args kw p :
  p_disabled p = true -> get_or_compute n f args kw p = f p.
Proof. intros Hd. unfold get_or_compute. py_unfold. by rewrite Hd. Qed.

Lemma get_or_compute_hit n f args kw p v :
  p_disabled p = false -> cache_get p (args_to_key [KStr n] args kw) = Some v ->
  get_or_compute n f args kw p = (p, Ok v).
Proof. intros Hd Hg. unfold get_or_compute. py_unfold. by rewrite Hd, Hg. Qed.

Lemma get_or_compute_miss n f args kw p :
  p_disabled p = false -> cache_get p (args_to_key [KStr n] args kw) = None ->
  get_or_compute n f args kw p =
  match f p with
  | (p', Ok v) => (cache_set (args_to_key [KStr n] args kw) v p', Ok v)
  | (p', Raise e) => (p', Raise e)
  end.
Proof.
  intros Hd Hg. unfold get_or_compute. py_unfold. rewrite Hd, Hg. unfold bind.
  by destruct (f p) as [p' [v|e]].
Qed.

Lemma cache_get_set k v p k' :
  cache_get (cache_set k v p) k' = if decide (k' = k) then Some v else cache_get p k'.
Proof.
  unfold cache_get, cache_set, with_pcache. simpl. case_decide as Hk.
  - subst. rewrite lookup_insert_eq. rewrite decide_True; [done|]. unfold EXPIRE. lia.
  - by rewrite lookup_insert_ne by done.
Qed.


(** C12 Refinement: memoisation is transparent.  For a cache coherent with
    the meaning [G] of its keys and a call that returns the meaning of its
    key (the uuids [render_svg_string] draws aside) and leaves the cache
    and the clock alone, [get_or_compute] returns that meaning and keeps
    the cache coherent, whether the entry was cached, expired or absent,
    and with the cache disabled. *)
Theorem get_or_compute_refines n f G args kw p :
  cache_coherent G p ->
  (f p).2 = Ok (G (args_to_key [KStr n] args kw)) -> p_cache (f p).1 = p_cache p -> p_now (f p).1 = p_now p ->
  (get_or_compute n f args kw p).2 = Ok (G (args_to_key [KStr n] args kw))
  /\ cache_coherent G (get_or_compute n f args kw p).1.
Proof.
  intros Hc Hr Hc' Hn'. set (key := args_to_key [KStr n] args kw) in *.
  assert (Hcoh : cache_coherent G (f p).1).
  { intros k' v'. unfold cache_get. rewrite Hc', Hn'. apply Hc. }
  destruct (p_disabled p) eqn:Hd; [by rewrite get_or_compute_disabled|].
  destruct (cache_get p key) as [v|] eqn:Hg.
  - rewrite (get_or_compute_hit _ _ _ _ _ v) by done. split; [|done]. simpl. by rewrite (Hc key v Hg).
  - rewrite get_or_compute_miss by done. fold key.
    destruct (f p) as [p' [v|e]]; simpl in *; [|done]. injection Hr as ->. split; [done|].
    intros k' v'. rewrite cache_get_set. case_decide as Hk; [subst; by intros [= <-]|by apply Hcoh].
Qed.

(** C36 Divergence from the spec: the cache key is the function's
    [__name__] and the arguments, not the function's identity.  After a
    function named [n] computed [v], any other function of that name
    called on the same arguments gets [v] from the cache without being
    called. *)
Theorem get_or_compute_same_name n f g args kw p p1 v :
  p_disabled p = false -> cache_get p (args_to_key [KStr n] args kw) = None ->
  f p = (p1, Ok v) -> p_disabled p1 = false ->
  get_or_compute n g args kw (get_or_compute n f args kw p).1 = ((get_or_compute n f args kw p).1, Ok v).
Proof.
  intros Hd Hg Hf Hd1. rewrite (get_or_compute_miss n f args kw p Hd Hg), Hf. simpl.
  apply get_or_compute_hit; [done|]. rewrite cache_get_set. by rewrite decide_True.
Qed.

(** ** The branches of [interpolate_svg_to_string] *)

Lemma truthy_Some s : s <> "" -> truthy (Some s) = true.
Proof. intros Hs. by apply bool_decide_eq_true_2. Qed.

(** A non-empty [string] is used, whatever [filepath] is. *)
Lemma interpolate_string_run fp s lits kw svgs p :
  s <> "" -> interpolate_svg_to_string fp (Some s) lits kw svgs p = after_format s lits kw svgs p.
Proof.
  intros Hs. unfold interpolate_svg_to_string. rewrite truthy_Some, andb_false_r by done.
  by destruct fp.
Qed.

(** Otherwise a non-empty [filepath] is read. *)
Lemma interpolate_file_run f s lits kw svgs p :
  f <> "" -> truthy s = false ->
  interpolate_svg_to_string (Some f) s lits kw svgs p =
  match read_file f with
  | Some txt => after_format txt lits kw svgs p
  | None => (p, Raise (OSError ("[Errno 2] No such file or directory: '" +:+ f +:+ "'")))
  end.
Proof.
  intros Hf Hs. unfold interpolate_svg_to_string, open_read.
  rewrite truthy_Some, Hs by done. cbn [negb andb]. by destruct (read_file f).
Qed.

Lemma after_format_run txt lits kw svgs p :
  after_format txt lits kw svgs p =
  match py_format (literal_replace txt lits) kw with
  | Ok t => _svgs_into_svg_string t svgs p
  | Raise e => (p, Raise e)
  end.
Proof. unfold after_format. py_unfold. by destruct (py_format _ kw). Qed.

Lemma interpolate_missing_input_run fp s lits kw svgs p :
  truthy fp = false -> truthy s = false ->
  interpolate_svg_to_string fp s lits kw svgs p = (p, Raise (TypeError "Need to provide either 'filepath' or 'string'")).
Proof. intros Hf Hs. unfold interpolate_svg_to_string. by rewrite Hf, Hs. Qed.

Lemma escape_braces_nonempty s : s <> "" -> String.string_of_list_ascii (escape_braces (String.list_ascii_of_string s)) <> "".
Proof. destruct s as [|c s]; [done|]. intros _. cbn [String.list_ascii_of_string escape_braces]. by case_bool_decide. Qed.

(** The memoised renderer raises only what the renderer raises. *)
Lemma svgs_into_svg_string_raise t svgs p p' e :
  _svgs_into_svg_string t svgs p = (p', Raise e) ->
  exists s', render_svg_string (Some t) None svgs true (p_tpl p) = (s', Raise e).
Proof.
  unfold _svgs_into_svg_string. set (f := (r <- lift_tpl _ ;; ret (VStr r))).
  assert (Hf : forall p p' e, f p = (p', Raise e) -> exists s', render_svg_string (Some t) None svgs true (p_tpl p) = (s', Raise e)).
  { intros q q' e'. unfold f, bind, lift_tpl. destruct (render_svg_string _ _ _ _ (p_tpl q)) as [s' [r|e'']]; [done|].
    intros [= _ ->]. by exists s'. }
  destruct (p_disabled p) eqn:Hd; [rewrite get_or_compute_disabled by done; apply Hf|].
  destruct (cache_get p (args_to_key [KStr "render_svg_string"] [] [("src", KStr t); ("replacements", KDict svgs)]))
    as [v|] eqn:Hg; [by rewrite (get_or_compute_hit _ _ _ _ _ v)|].
  rewrite get_or_compute_miss by done. destruct (f p) as [p1 [v|e']] eqn:Hl; [done|]. intros [= -> ->]. by eapply Hf.
Qed.
(** ** Invariants of the cache kept by every entry point *)

Lemma cache_set_typed k v p : cache_typed p -> fits k v = true -> cache_typed (cache_set k v p).
Proof. intros Hp Hv. by apply map_Forall_insert_2. Qed.

Lemma cache_get_typed k v p : cache_typed p -> cache_get p k = Some v -> fits k v = true.
Proof.
  unfold cache_get. intros Hp. destruct (p_cache p !! k) as [[v' t]|] eqn:Hk; [|done].
  case_decide; [|done]. intros [= <-]. apply (Hp k (v', t) Hk).
Qed.

Lemma fits_render v a k : fits (args_to_key [KStr "render_svg_string"] a k) v = true <-> exists s, v = VStr s.
Proof. destruct v; simpl; naive_solver. Qed.

Lemma fits_pil v a k : fits (args_to_key [KStr "_svg_string_to_pil"] a k) v = true <-> exists i, v = VImage i.
Proof. destruct v; simpl; naive_solver. Qed.

(** An invariant [I] of the process state that the [Template] computations
    keep, that [cache.set] keeps for a value [F] allows under its key, and
    that guarantees [F] of every value [cache.get] serves. *)
Section CacheInvariant.
#[local] Set Default Proof Using "All".
Variables (I : proc -> Prop) (F : cache_key -> pyval -> Prop).
Hypothesis HI_tpl : forall t p, I p -> I (with_tpl t p).
Hypothesis HI_set : forall k v p, I p -> F k v -> I (cache_set k v p).
Hypothesis HI_get : forall k v p, I p -> cache_get p k = Some v -> F k v.
Hypothesis HF_render : forall a kw r, F (args_to_key [KStr "render_svg_string"] a kw) (VStr r).
Hypothesis HF_pil : forall a kw png, F (args_to_key [KStr "_svg_string_to_pil"] a kw) (VImage (PilImage png)).

Local Abbreviation run Q m := (triple I m (fun v p => I p /\ Q v) (fun _ => I)).

Lemma inv_lift_tpl {A} (m : TplM A) : triple I (lift_tpl m) (fun _ => I) (fun _ => I).
Proof. intros p Hp. unfold lift_tpl. destruct (m (p_tpl p)) as [t [a|e]]; by apply HI_tpl. Qed.

Lemma inv_lift {A} (o : outcome A) : triple I (lift o) (fun _ => I) (fun _ => I).
Proof. apply triple_lift. intros p Hp. by destruct o. Qed.

Lemma inv_open_read path : triple I (open_read path) (fun _ => I) (fun _ => I).
Proof. unfold open_read. destruct (read_file path); [apply triple_ret|apply triple_raise]; done. Qed.

(** A memoised call whose function returns a value [F] allows returns
    one too, from the cache or not. *)
Lemma inv_get_or_compute n f args kw :
  run (F (args_to_key [KStr n] args kw)) f -> run (F (args_to_key [KStr n] args kw)) (get_or_compute n f args kw).
Proof.
  intros Hf p Hp. unfold get_or_compute. py_unfold. destruct (p_disabled p); [by apply Hf|].
  destruct (cache_get p _) as [v|] eqn:Hg; [split; [done|by eapply HI_get]|].
  unfold bind. specialize (Hf p Hp). destruct (f p) as [p' [v|e]]; [|done]. destruct Hf.
  py_unfold. split; [by apply HI_set|done].
Qed.

Lemma inv_svgs_into t svgs :
  run (fun v => exists a kw, F (args_to_key [KStr "render_svg_string"] a kw) v) (_svgs_into_svg_string t svgs).
Proof.
  eapply triple_conseq; [apply inv_get_or_compute|done|intros v p [? Hv]; split; [done|eauto]|done].
  eapply triple_bind; [apply inv_lift_tpl|]. intros r. apply triple_ret. auto.
Qed.

Lemma inv_svg_string_to_pil svg :
  run (fun v => exists a kw, F (args_to_key [KStr "_svg_string_to_pil"] a kw) v) (svg_string_to_pil svg).
Proof.
  eapply triple_conseq; [apply inv_get_or_compute|done|intros v p [? Hv]; split; [done|eauto]|done].
  destruct svg as [s|i]; [|by apply triple_raise].
  eapply triple_bind; [apply inv_lift|]. intros png. apply triple_ret. auto.
Qed.

Lemma inv_interpolate fp s lits kw svgs :
  run (fun v => exists a kw, F (args_to_key [KStr "render_svg_string"] a kw) v) (interpolate_svg_to_string fp s lits kw svgs).
Proof.
  unfold interpolate_svg_to_string. destruct (_ && _); [by apply triple_raise|].
  apply (triple_bind _ _ _ (fun _ => I)).
  { destruct fp, (truthy s); first [apply inv_open_read|by apply triple_ret]. }
  intros txt. eapply triple_bind; [apply inv_lift|]. intros t'. apply inv_svgs_into.
Qed.

Lemma inv_interpolate_svg fp s lits kw svgs :
  run (fun v => exists a kw, F (args_to_key [KStr "_svg_string_to_pil"] a kw) v) (interpolate_svg fp s lits kw svgs).
Proof.
  eapply triple_bind; [apply inv_interpolate|]. intros v.
  eapply triple_conseq; [apply inv_svg_string_to_pil|naive_solver|done|done].
Qed.

Lemma inv_constant_svg path :
  run (fun f => forall x, exists a kw, F (args_to_key [KStr "_svg_string_to_pil"] a kw) (f x)) (constant_svg path).
Proof.
  eapply triple_bind; [apply inv_open_read|]. intros txt.
  eapply triple_bind; [apply inv_svg_string_to_pil|]. intros pil.
  apply triple_ret. naive_solver.
Qed.
End CacheInvariant.

Lemma typed_interpolate fp s lits kw svgs p :
  cache_typed p -> typed_outcome (fun v => exists t, v = VStr t) (interpolate_svg_to_string fp s lits kw svgs p).
Proof.
  intros Hp. unfold typed_outcome.
  pose proof (triple_run _ _ _ _ p (inv_interpolate cache_typed (fun k v => fits k v = true)
    (fun _ _ H => H) cache_set_typed cache_get_typed ltac:(done) ltac:(done) fp s lits kw svgs) Hp) as Ht.
  destruct (interpolate_svg_to_string _ _ _ _ _ p) as [p' [v|e]]; [|done].
  destruct Ht as [? (a & k & Hv)]. split; [done|]. by apply fits_render in Hv.
Qed.

Lemma typed_interpolate_svg fp s lits kw svgs p :
  cache_typed p -> typed_outcome (fun v => exists i, v = VImage i) (interpolate_svg fp s lits kw svgs p).
Proof.
  intros Hp. unfold typed_outcome.
  pose proof (triple_run _ _ _ _ p (inv_interpolate_svg cache_typed (fun k v => fits k v = true)
    (fun _ _ H => H) cache_set_typed cache_get_typed ltac:(done) ltac:(done) fp s lits kw svgs) Hp) as Ht.
  destruct (interpolate_svg _ _ _ _ _ p) as [p' [v|e]]; [|done].
  destruct Ht as [? (a & k & Hv)]. split; [done|]. by apply fits_pil in Hv.
Qed.

Lemma typed_constant_svg path p :
  cache_typed p -> typed_outcome (fun f => forall x, exists i, f x = VImage i) (constant_svg path p).
Proof.
  intros Hp. unfold typed_outcome.
  pose proof (triple_run _ _ _ _ p (inv_constant_svg cache_typed (fun k v => fits k v = true)
    (fun _ _ H => H) cache_set_typed cache_get_typed ltac:(done) ltac:(done) path) Hp) as Ht.
  destruct (constant_svg path p) as [p' [f|e]]; [|done].
  destruct Ht as [? Hf]. split; [done|]. intros x. destruct (Hf x) as (a & k & Hv). by apply fits_pil in Hv.
Qed.

(** C13 Type of the cache: [svg.py] keeps strings and images in one cache;
    from a cache whose entries hold their function's kind of value (the
    text under ["render_svg_string"], an image under
    ["_svg_string_to_pil"]), every entry point keeps it so, whether it
    returns or raises, and returns its kind of value:
    [interpolate_svg_to_string] a string, [interpolate_svg] an image,
    [constant_svg] a function that gives an image. *)
Theorem entry_points_typed fp s lits kw svgs path p :
  cache_typed p ->
  typed_outcome (fun v => exists t, v = VStr t) (interpolate_svg_to_string fp s lits kw svgs p)
  /\ typed_outcome (fun v => exists i, v = VImage i) (interpolate_svg fp s lits kw svgs p)
  /\ typed_outcome (fun f => forall x, exists i, f x = VImage i) (constant_svg path p).
Proof.
  intros Hp. split_and!; [by apply typed_interpolate|by apply typed_interpolate_svg|by apply typed_constant_svg].
Qed.

(** C38 The template without a [string] argument: with no non-empty
    [filepath] either, [interpolate_svg_to_string] raises [TypeError]; a
    file that cannot be opened raises [OSError]; otherwise the file's text
    is formatted and rendered.  Nothing changes before an error. *)
Theorem interpolate_input_errors fp s lits kw svgs p :
  truthy s = false ->
  interpolate_svg_to_string fp s lits kw svgs p =
  match fp with
  | Some f =>
      if decide (f = "") then (p, Raise (TypeError "Need to provide either 'filepath' or 'string'"))
      else match read_file f with
           | Some txt => after_format txt lits kw svgs p
           | None => (p, Raise (OSError ("[Errno 2] No such file or directory: '" +:+ f +:+ "'")))
           end
  | None => (p, Raise (TypeError "Need to provide either 'filepath' or 'string'"))
  end.
Proof.
  intros Hs. destruct fp as [f|]; [|by apply interpolate_missing_input_run].
  case_decide as Hf; [subst f; by apply interpolate_missing_input_run|by apply interpolate_file_run].
Qed.

(** C15 Spec gap: the whole template goes through [str.format], so a
    literal brace, as in a CSS rule [.a{fill:red}] of a [<style>] block,
    is read as a field: a name [k] absent from [text_replacements] raises
    [KeyError k], and nothing is rendered. *)
Theorem interpolate_css_brace fp s a k spec b kw svgs p :
  String.list_ascii_of_string s = a ++ lbrace :: k ++ spec ++ rbrace :: b ->
  brace_free a -> brace_free (k ++ spec) -> field_name_ok k ->
  (spec = [] \/ exists c r, spec = c :: r /\ name_end c = true) ->
  kw !! String.string_of_list_ascii k = None ->
  interpolate_svg_to_string fp (Some s) [] kw svgs p = (p, Raise (KeyError (String.string_of_list_ascii k))).
Proof.
  intros Hl Ha Hks (Hk & Hn & Hd) Hs Hkw. rewrite interpolate_string_run; last first.
  { intros ->. by destruct a. }
  rewrite after_format_run. unfold literal_replace, py_format. cbn [foldl]. by rewrite Hl, fmt_missing_key.
Qed.

(** C39 Round trip: a template whose braces are all doubled reaches the
    renderer as the original text. *)
Theorem interpolate_escape_roundtrip fp s kw svgs p :
  s <> "" ->
  interpolate_svg_to_string fp (Some (String.string_of_list_ascii (escape_braces (String.list_ascii_of_string s))))
    [] kw svgs p = _svgs_into_svg_string s svgs p.
Proof.
  intros Hs. rewrite interpolate_string_run by by apply escape_braces_nonempty.
  rewrite after_format_run. unfold literal_replace. cbn [foldl]. by rewrite py_format_escape.
Qed.

Lemma interpolate_uncached_run fp s lits kw svgs p t t' out :
  p_disabled p = true -> s <> "" -> py_format (literal_replace s lits) kw = Ok t ->
  render_svg_string (Some t) None svgs true (p_tpl p) = (t', Ok out) ->
  interpolate_svg_to_string fp (Some s) lits kw svgs p = (with_tpl t' p, Ok (VStr out)).
Proof.
  intros Hd Hs Ht Hr. rewrite interpolate_string_run, after_format_run, Ht by done.
  unfold _svgs_into_svg_string. rewrite get_or_compute_disabled by done. unfold bind, lift_tpl. by rewrite Hr.
Qed.

(** C34 Composition: a non-empty [string] takes precedence over
    [filepath]; the literal replacements run before [str.format], and with
    the cache disabled the result is what the [Template] batch with
    pruning returns on the formatted text. *)
Theorem interpolate_uncached fp s lits kw svgs p t t' out :
  p_disabled p = true -> s <> "" -> py_format (literal_replace s lits) kw = Ok t ->
  render_svg_string (Some t) None svgs true (p_tpl p) = (t', Ok out) ->
  interpolate_svg_to_string fp (Some s) lits kw svgs p = (with_tpl t' p, Ok (VStr out)).
Proof. apply interpolate_uncached_run. Qed.

(** C35 The whole pipeline: with the cache disabled, [interpolate_svg]
    rasterises exactly the text the [Template] batch produced. *)
Theorem interpolate_svg_uncached fp s lits kw svgs p t t' out png :
  p_disabled p = true -> s <> "" -> py_format (literal_replace s lits) kw = Ok t ->
  render_svg_string (Some t) None svgs true (p_tpl p) = (t', Ok out) -> svg_to_png out = Ok png ->
  interpolate_svg fp (Some s) lits kw svgs p = (with_tpl t' p, Ok (VImage (PilImage png))).
Proof.
  intros Hd Hs Ht Hr Hpng. unfold interpolate_svg. py_step (interpolate_uncached_run fp s lits kw svgs p t t' out Hd Hs Ht Hr).
  unfold svg_string_to_pil. rewrite get_or_compute_disabled by done. cbn [_svg_string_to_pil]. py_unfold. by rewrite Hpng.
Qed.

(** ** Expiry *)

Lemma expiry_bounded_tpl t p : expiry_bounded p -> expiry_bounded (with_tpl t p).
Proof. done. Qed.

Lemma expiry_bounded_set k v p : expiry_bounded p -> expiry_bounded (cache_set k v p).
Proof. intros Hp. apply map_Forall_insert_2; [simpl; lia|]. exact Hp. Qed.

Lemma expiry_bounded_tick d p : expiry_bounded p -> expiry_bounded (tick d p).
Proof. intros Hp k [v t] Hk. specialize (Hp k (v, t) Hk). simpl in *. lia. Qed.

Lemma triple_state {A} (I : proc -> Prop) (m : ProcM A) Q p :
  triple I m (fun v p => I p /\ Q v) (fun _ => I) -> I p -> I (m p).1.
Proof. intros Hm Hp. pose proof (triple_run _ _ _ _ p Hm Hp) as Ht. destruct (m p) as [p' [v|e]]; naive_solver. Qed.

Lemma api_state_bounded c p : expiry_bounded p -> expiry_bounded (api_state c p).
Proof.
  intros Hp.
  destruct c; cbn [api_state]; [done| | | |];
    (eapply triple_state; [|exact Hp]);
    first [ apply (inv_constant_svg expiry_bounded (fun _ _ => True))
          | apply (inv_interpolate expiry_bounded (fun _ _ => True))
          | apply (inv_interpolate_svg expiry_bounded (fun _ _ => True))
          | apply (inv_svg_string_to_pil expiry_bounded (fun _ _ => True)) ];
    auto using expiry_bounded_tpl, expiry_bounded_set.
Qed.

(** Every reachable process state bounds the expiry of its entries. *)
Lemma preach_bounded p : preach p -> expiry_bounded p.
Proof. induction 1; auto using expiry_bounded_tick, api_state_bounded. Qed.

Lemma cache_get_expired p d k : expiry_bounded p -> (EXPIRE <= d)%N -> cache_get (tick d p) k = None.
Proof.
  intros Hp Hd. unfold cache_get. cbn [p_cache p_now tick]. destruct (p_cache p !! k) as [[v t]|] eqn:Hk; [|done].
  specialize (Hp k (v, t) Hk). simpl in Hp. rewrite decide_False; [done|lia].
Qed.

(** C16 Liveness of the cache: whatever the process did before, once a day
    has passed every call of [get_or_compute] with the cache on misses the
    cache, calls the function and stores its fresh result: no value is
    served more than a day after it was computed. *)
Theorem recompute_after_a_day p d n f args kw :
  preach p -> (86400 <= d)%N -> p_disabled p = false ->
  get_or_compute n f args kw (tick d p) =
  match f (tick d p) with
  | (p', Ok v) => (cache_set (args_to_key [KStr n] args kw) v p', Ok v)
  | (p', Raise e) => (p', Raise e)
  end.
Proof.
  intros Hr Hd Hdis. apply get_or_compute_miss; [done|]. apply cache_get_expired; [by apply preach_bounded|done].
Qed.
End Running.


Lemma get_or_compute_refines_witness :
  (get_or_compute "f" (fun p => (p, Ok (VStr "x"))) [KStr "x"] [] proc0).2 = Ok (VStr "x")
  /\ cache_coherent (fun _ => VStr "x") (get_or_compute "f" (fun p => (p, Ok (VStr "x"))) [KStr "x"] [] proc0).1.
Proof.
  apply (get_or_compute_refines "f" (fun p => (p, Ok (VStr "x"))) (fun _ => VStr "x") [KStr "x"] [] proc0); done.
Defined.

Lemma get_or_compute_same_name_witness :
  get_or_compute "f" (fun p => (p, Ok (VStr "second"))) [KStr "x"] []
    (get_or_compute "f" (fun p => (p, Ok (VStr "first"))) [KStr "x"] [] proc0).1
  = ((get_or_compute "f" (fun p => (p, Ok (VStr "first"))) [KStr "x"] [] proc0).1, Ok (VStr "first")).
Proof. apply (get_or_compute_same_name _ _ _ _ _ proc0 proc0); by_eval. Defined.

Lemma entry_points_typed_witness :
  typed_outcome (fun v => exists t, v = VStr t) (interpolate_svg_to_string None (Some spec_src) [] ∅ [] proc0)
  /\ typed_outcome (fun v => exists i, v = VImage i) (interpolate_svg None (Some spec_src) [] ∅ [] proc0)
  /\ typed_outcome (fun f => forall x, exists i, f x = VImage i) (constant_svg "template.svg" proc0).
Proof. apply entry_points_typed. apply map_Forall_empty. Defined.


Lemma interpolate_input_errors_witness :
  interpolate_svg_to_string (Some "missing.svg") None [] ∅ [] proc0
  = (proc0, Raise (OSError "[Errno 2] No such file or directory: 'missing.svg'")).
Proof. rewrite (interpolate_input_errors _ None); [by_eval|reflexivity]. Defined.

Lemma interpolate_css_brace_witness :
  interpolate_svg_to_string None (Some "<style>.a{fill:red}</style>") [] ∅ [] proc0
  = (proc0, Raise (KeyError "fill")).
Proof.
  apply (interpolate_css_brace None _ (String.list_ascii_of_string "<style>.a") (String.list_ascii_of_string "fill")
           (String.list_ascii_of_string ":red") (String.list_ascii_of_string "</style>")); try by_eval.
  right. by exists ":"%char, (String.list_ascii_of_string "red").
Defined.

Lemma interpolate_escape_roundtrip_witness :
  interpolate_svg_to_string None (Some (String.string_of_list_ascii (escape_braces (String.list_ascii_of_string spec_src))))
    [] ∅ [("slot", spec_frag)] proc0 = _svgs_into_svg_string spec_src [("slot", spec_frag)] proc0.
Proof. apply interpolate_escape_roundtrip. done. Defined.

Lemma interpolate_uncached_witness :
  interpolate_svg_to_string (Some "template.svg") (Some spec_frag) [] ∅ [] proc_nocache
  = (with_tpl (render_svg_string (Some spec_frag) None [] true (p_tpl proc_nocache)).1 proc_nocache,
     Ok (VStr (print_xml frag_tree))).
Proof. apply (interpolate_uncached _ _ _ _ _ _ spec_frag); by_eval. Defined.

Lemma interpolate_svg_uncached_witness :
  interpolate_svg None (Some spec_frag) [] ∅ [] proc_nocache
  = (with_tpl (render_svg_string (Some spec_frag) None [] true (p_tpl proc_nocache)).1 proc_nocache,
     Ok (VImage (PilImage ("PNG:" +:+ print_xml frag_tree)))).
Proof. apply (interpolate_svg_uncached _ _ _ _ _ _ spec_frag _ (print_xml frag_tree)); by_eval. Defined.


Lemma recompute_after_a_day_witness :
  get_or_compute "render_svg_string" (fun p => (p, Ok (VStr "fresh"))) [] []
    (tick 86400 (api_state (CallInterpolateSvgToString None (Some spec_frag) [] ∅ []) proc0))
  = (cache_set (args_to_key [KStr "render_svg_string"] [] []) (VStr "fresh")
       (tick 86400 (api_state (CallInterpolateSvgToString None (Some spec_frag) [] ∅ []) proc0)), Ok (VStr "fresh")).
Proof.
  apply (recompute_after_a_day _ _ _ (fun p => (p, Ok (VStr "fresh")))).
  - apply preach_call, preach_start. apply map_Forall_empty.
  - by_eval.
  - by_eval.
Defined.
